(** * A shallow embedding of the LRU cache simulator [cachesim_modified.cc]

    The simulator keeps, for a cache of [sets] x [ways] lines, a table of
    tag words and a table of per-set LRU orders.  This file embeds
    [cache_sim_t] and [fa_cache_sim_t] as functions on a record of the
    object's fields and proves the properties of the design document.

    Conventions of the embedding:
    - [size_t] and [uint64_t] are 64-bit unsigned; values are [Z] and every
      arithmetic operation that can wrap is written with its reduction
      modulo [2^64] ([add64], [sub64], [mul64], [shl64], [not64]);
    - the two heap arrays [tags] and [lru] are lists; an index outside the
      array is undefined behaviour in C++ and is the fault [OutOfBounds]
      here, dereferencing the null pointer is the fault [NullDeref];
    - [help()] prints the usage text and calls [exit(1)]: fault [UsageExit];
    - calls made on the miss handler and lines written to the diagnostic
      stream are collected, in order, in a list of events; the handler is
      another object, so a call on it does not change the fields of the
      cache that makes it (a chain of levels, not a cycle);
    - the class declarations and the constants [VALID] and [DIRTY] come
      from the header [cachesim.h], which is not part of the sources at
      hand: the two constants are parameters, and [fa_cache_sim_t] uses
      the [tags] and [lru] arrays of its base class, as its code indexes
      them the way the base class does. *)

From Stdlib Require Import ZArith Lia Ascii.
From stdpp Require Import base tactics option list strings.

Local Open Scope Z_scope.

(** ** 64-bit unsigned arithmetic *)

Definition wrap (z : Z) : Z := z mod 2 ^ 64.
Definition add64 (a b : Z) : Z := wrap (a + b).
Definition sub64 (a b : Z) : Z := wrap (a - b).
Definition mul64 (a b : Z) : Z := wrap (a * b).
Definition shl64 (a s : Z) : Z := wrap (Z.shiftl a s).
Definition not64 (a : Z) : Z := wrap (Z.lnot a).

(** The values a [uint64_t] or [size_t] can hold. *)
Definition is_u64 (z : Z) : Prop := 0 <= z < 2 ^ 64.

(** ** Faults and the error monad *)

Inductive fault : Set :=
| UsageExit        (* help(): usage message, exit(1) *)
| BadArrayLength   (* new[] of a size whose byte count does not fit size_t *)
| OutOfBounds      (* array access outside the allocation *)
| NullDeref.       (* write through a NULL slot pointer *)

Inductive result (A : Type) : Type :=
| Ok (a : A)
| Fault (f : fault).
Arguments Ok {A} a.
Arguments Fault {A} f.

#[global] Instance result_ret : MRet result := fun A a => Ok a.
#[global] Instance result_bind : MBind result := fun A B k r =>
  match r with
  | Ok a => k a
  | Fault f => Fault f
  end.

(** ** Heap arrays of [uint64_t] *)

Definition load (a : list Z) (i : Z) : result Z :=
  match a !! Z.to_nat i with
  | Some v => Ok v
  | None => Fault OutOfBounds
  end.

Definition store (a : list Z) (i v : Z) : result (list Z) :=
  if decide (Z.to_nat i < length a)%nat
  then Ok (<[Z.to_nat i := v]> a)
  else Fault OutOfBounds.

(** [new uint64_t[n]()]: value-initialised, so all zero.  The allocation
    throws [std::bad_array_new_length] when the array would be larger than
    the largest object, [PTRDIFF_MAX] bytes: from [2^60] elements of 8
    bytes on.  The heap is taken to have room for an array of any smaller
    length: running out of memory ([std::bad_alloc]) is not modelled. *)
Definition new_zeroed (n : Z) : result (list Z) :=
  if 2 ^ 60 <=? n then Fault BadArrayLength
  else Ok (replicate (Z.to_nat n) 0).

(** [new uint64_t[n]] followed by [memcpy] of [n] elements from [src]:
    every element of the fresh array is overwritten. *)
Definition new_copied (n : Z) (src : list Z) : result (list Z) :=
  if 2 ^ 60 <=? n then Fault BadArrayLength
  else if decide (Z.to_nat n <= length src)%nat
       then Ok (take (Z.to_nat n) src)
       else Fault OutOfBounds.

(** ** The object *)

(** A miss handler is a non-owning pointer to another cache; the object it
    points to lives in a table owned by the caller. *)
Definition handler_ref : Set := nat.

Record cache_sim_t : Type := mk_cache_sim_t {
  sets : Z;
  ways : Z;
  linesz : Z;
  idx_shift : Z;
  tags : list Z;
  lru : list Z;
  read_accesses : Z;
  read_misses : Z;
  bytes_read : Z;
  write_accesses : Z;
  write_misses : Z;
  bytes_written : Z;
  writebacks : Z;
  miss_handler : option handler_ref;
  name : string;
  log : bool
}.

(** What leaves the object during a call. *)
Inductive event : Type :=
| MissTrace (who : string) (is_store : bool) (addr : Z)
| Forward (h : handler_ref) (addr bytes : Z) (is_store : bool).

(** The two classes; [check_tag] and [victimize] are virtual. *)
Inductive cache_kind : Set := SetAssoc | FullyAssoc.

(** Field updates. *)
Definition set_tags (c : cache_sim_t) (t : list Z) : cache_sim_t :=
  mk_cache_sim_t (sets c) (ways c) (linesz c) (idx_shift c) t (lru c)
    (read_accesses c) (read_misses c) (bytes_read c)
    (write_accesses c) (write_misses c) (bytes_written c) (writebacks c)
    (miss_handler c) (name c) (log c).

Definition set_lru (c : cache_sim_t) (l : list Z) : cache_sim_t :=
  mk_cache_sim_t (sets c) (ways c) (linesz c) (idx_shift c) (tags c) l
    (read_accesses c) (read_misses c) (bytes_read c)
    (write_accesses c) (write_misses c) (bytes_written c) (writebacks c)
    (miss_handler c) (name c) (log c).

Definition set_read_accesses (c : cache_sim_t) (v : Z) : cache_sim_t :=
  mk_cache_sim_t (sets c) (ways c) (linesz c) (idx_shift c) (tags c) (lru c)
    v (read_misses c) (bytes_read c)
    (write_accesses c) (write_misses c) (bytes_written c) (writebacks c)
    (miss_handler c) (name c) (log c).

Definition set_read_misses (c : cache_sim_t) (v : Z) : cache_sim_t :=
  mk_cache_sim_t (sets c) (ways c) (linesz c) (idx_shift c) (tags c) (lru c)
    (read_accesses c) v (bytes_read c)
    (write_accesses c) (write_misses c) (bytes_written c) (writebacks c)
    (miss_handler c) (name c) (log c).

Definition set_bytes_read (c : cache_sim_t) (v : Z) : cache_sim_t :=
  mk_cache_sim_t (sets c) (ways c) (linesz c) (idx_shift c) (tags c) (lru c)
    (read_accesses c) (read_misses c) v
    (write_accesses c) (write_misses c) (bytes_written c) (writebacks c)
    (miss_handler c) (name c) (log c).

Definition set_write_accesses (c : cache_sim_t) (v : Z) : cache_sim_t :=
  mk_cache_sim_t (sets c) (ways c) (linesz c) (idx_shift c) (tags c) (lru c)
    (read_accesses c) (read_misses c) (bytes_read c)
    v (write_misses c) (bytes_written c) (writebacks c)
    (miss_handler c) (name c) (log c).

Definition set_write_misses (c : cache_sim_t) (v : Z) : cache_sim_t :=
  mk_cache_sim_t (sets c) (ways c) (linesz c) (idx_shift c) (tags c) (lru c)
    (read_accesses c) (read_misses c) (bytes_read c)
    (write_accesses c) v (bytes_written c) (writebacks c)
    (miss_handler c) (name c) (log c).

Definition set_bytes_written (c : cache_sim_t) (v : Z) : cache_sim_t :=
  mk_cache_sim_t (sets c) (ways c) (linesz c) (idx_shift c) (tags c) (lru c)
    (read_accesses c) (read_misses c) (bytes_read c)
    (write_accesses c) (write_misses c) v (writebacks c)
    (miss_handler c) (name c) (log c).

Definition set_writebacks (c : cache_sim_t) (v : Z) : cache_sim_t :=
  mk_cache_sim_t (sets c) (ways c) (linesz c) (idx_shift c) (tags c) (lru c)
    (read_accesses c) (read_misses c) (bytes_read c)
    (write_accesses c) (write_misses c) (bytes_written c) v
    (miss_handler c) (name c) (log c).

(** [set_miss_handler] and [set_log] are the inline setters of the header. *)
Definition set_miss_handler (c : cache_sim_t) (mh : option handler_ref)
  : cache_sim_t :=
  mk_cache_sim_t (sets c) (ways c) (linesz c) (idx_shift c) (tags c) (lru c)
    (read_accesses c) (read_misses c) (bytes_read c)
    (write_accesses c) (write_misses c) (bytes_written c) (writebacks c)
    mh (name c) (log c).

Definition set_log (c : cache_sim_t) (b : bool) : cache_sim_t :=
  mk_cache_sim_t (sets c) (ways c) (linesz c) (idx_shift c) (tags c) (lru c)
    (read_accesses c) (read_misses c) (bytes_read c)
    (write_accesses c) (write_misses c) (bytes_written c) (writebacks c)
    (miss_handler c) (name c) b.

(** ** Construction: [cache_sim_t::init] *)

(** [for (x = linesz; x > 1; x >>= 1) idx_shift++]: one increment for each
    binary digit of [linesz] after the leading one, since [x >>= 1] drops
    the last digit of a positive numeral. *)
Fixpoint halvings (p : positive) : Z :=
  match p with
  | xH => 0
  | xO q | xI q => 1 + halvings q
  end.

Definition count_idx_shift (linesz : Z) : Z :=
  match linesz with
  | Zpos p => halvings p
  | _ => 0
  end.

(** Inner loop of the LRU initialisation, [n] iterations left, at [j]. *)
Fixpoint init_lru_row (n : nat) (i j ways : Z) (l : list Z)
  : result (list Z) :=
  match n with
  | O => Ok l
  | S n' =>
      l' ← store l (add64 (mul64 i ways) j) (sub64 (sub64 ways j) 1);
      init_lru_row n' i (j + 1) ways l'
  end.

(** Outer loop, [n] sets left, at set [i]. *)
Fixpoint init_lru_rows (n : nat) (i ways : Z) (l : list Z)
  : result (list Z) :=
  match n with
  | O => Ok l
  | S n' =>
      l' ← init_lru_row (Z.to_nat ways) i 0 ways l;
      init_lru_rows n' (i + 1) ways l'
  end.

(** [init()], run by the constructor after the member initialisers have
    set [sets], [ways], [linesz], [name] and [log]. *)
Definition init (sets ways linesz : Z) (name : string) (log : bool)
  : result cache_sim_t :=
  if (sets =? 0) || negb (Z.land sets (sub64 sets 1) =? 0)
  then Fault UsageExit
  else if (linesz <? 8) || negb (Z.land linesz (sub64 linesz 1) =? 0)
  then Fault UsageExit
  else
    let idx_shift := count_idx_shift linesz in
    tags ← new_zeroed (mul64 sets ways);
    lru0 ← new_zeroed (mul64 sets ways);
    lru ← init_lru_rows (Z.to_nat sets) 0 ways lru0;
    Ok (mk_cache_sim_t sets ways linesz idx_shift tags lru
          0 0 0 0 0 0 0 None name log).

(** [cache_sim_t::cache_sim_t(sets, ways, linesz, name)]. *)
Definition new_cache_sim_t (sets ways linesz : Z) (name : string)
  : result cache_sim_t :=
  init sets ways linesz name false.

(** [fa_cache_sim_t::fa_cache_sim_t(ways, linesz, name)]. *)
Definition new_fa_cache_sim_t (ways linesz : Z) (name : string)
  : result cache_sim_t :=
  new_cache_sim_t 1 ways linesz name.

(** The dispatch at the end of [cache_sim_t::construct], after the
    configuration string has been split into its three numbers. *)
Definition construct_kind (sets ways : Z) : cache_kind :=
  if (4 <? ways) && (sets =? 1) then FullyAssoc else SetAssoc.

Definition construct (sets ways linesz : Z) (name : string)
  : cache_kind * result cache_sim_t :=
  match construct_kind sets ways with
  | FullyAssoc => (FullyAssoc, new_fa_cache_sim_t ways linesz name)
  | SetAssoc => (SetAssoc, new_cache_sim_t sets ways linesz name)
  end.

(** The copy constructor.  Its member initialisers copy the geometry and
    the name and clear [log]; its body allocates and copies the two
    tables.  The counters and [miss_handler] are not mentioned: they keep
    whatever the storage of the new object held, here the fields of
    [raw]. *)
Definition copy_cache_sim_t (rhs raw : cache_sim_t) : result cache_sim_t :=
  let n := mul64 (sets rhs) (ways rhs) in
  tags' ← new_copied n (tags rhs);
  lru' ← new_copied n (lru rhs);
  Ok (mk_cache_sim_t (sets rhs) (ways rhs) (linesz rhs) (idx_shift rhs)
        tags' lru'
        (read_accesses raw) (read_misses raw) (bytes_read raw)
        (write_accesses raw) (write_misses raw) (bytes_written raw)
        (writebacks raw) (miss_handler raw) (name rhs) false).

(** ** Lookup, replacement and access *)

Section Simulator.

(** [static const uint64_t VALID, DIRTY] of the header. *)
Context (VALID DIRTY : Z).

(** [for (j = i; j > 0; j--) lru[idx*ways + j] = lru[idx*ways + j - 1];] *)
Fixpoint shift_down (j : nat) (idx ways : Z) (l : list Z)
  : result (list Z) :=
  match j with
  | O => Ok l
  | S j' =>
      v ← load l (sub64 (add64 (mul64 idx ways) (Z.of_nat (S j'))) 1);
      l' ← store l (add64 (mul64 idx ways) (Z.of_nat (S j'))) v;
      shift_down j' idx ways l'
  end.

(** The loop over [i] in [check_tag]: find the LRU position of
    [updated_way], move the entries before it one position back and put
    [updated_way] in front; [n] iterations left. *)
Fixpoint promote (n : nat) (i idx ways updated_way : Z) (l : list Z)
  : result (list Z) :=
  match n with
  | O => Ok l
  | S n' =>
      v ← load l (add64 (mul64 idx ways) i);
      if v =? updated_way then
        l1 ← shift_down (Z.to_nat i) idx ways l;
        store l1 (mul64 idx ways) updated_way
      else promote n' (i + 1) idx ways updated_way l
  end.

(** The loop over [k] in [check_tag]; the result is the index of the
    matching slot in [tags] (the pointer [&tags[idx*ways + k]]) or [None]
    for [NULL], with the LRU table. *)
Fixpoint scan_ways (n : nat) (k idx ways tag : Z) (tags lru : list Z)
  : result (option Z * list Z) :=
  match n with
  | O => Ok (None, lru)
  | S n' =>
      t ← load tags (add64 (mul64 idx ways) k);
      if tag =? Z.land t (not64 DIRTY) then
        l' ← promote (Z.to_nat ways) 0 idx ways k lru;
        Ok (Some (add64 (mul64 idx ways) k), l')
      else scan_ways n' (k + 1) idx ways tag tags lru
  end.

Definition check_tag (c : cache_sim_t) (addr : Z)
  : result (option Z * cache_sim_t) :=
  let idx := Z.land (Z.shiftr addr (idx_shift c)) (sub64 (sets c) 1) in
  let tag := Z.lor (Z.shiftr addr (idx_shift c)) VALID in
  '(hit, l) ← scan_ways (Z.to_nat (ways c)) 0 idx (ways c) tag
                (tags c) (lru c);
  Ok (hit, set_lru c l).

Definition victimize (c : cache_sim_t) (addr : Z)
  : result (Z * cache_sim_t) :=
  let idx := Z.land (Z.shiftr addr (idx_shift c)) (sub64 (sets c) 1) in
  lru_way ← load (lru c) (sub64 (add64 (mul64 idx (ways c)) (ways c)) 1);
  l1 ← shift_down (Z.to_nat (sub64 (ways c) 1)) idx (ways c) (lru c);
  l2 ← store l1 (mul64 idx (ways c)) lru_way;
  victim ← load (tags c) (add64 (mul64 idx (ways c)) lru_way);
  t' ← store (tags c) (add64 (mul64 idx (ways c)) lru_way)
         (Z.lor (Z.shiftr addr (idx_shift c)) VALID);
  Ok (victim, set_tags (set_lru c l2) t').

(** [fa_cache_sim_t::check_tag]: the same text as the base class. *)
Definition fa_check_tag (c : cache_sim_t) (addr : Z)
  : result (option Z * cache_sim_t) :=
  let idx := Z.land (Z.shiftr addr (idx_shift c)) (sub64 (sets c) 1) in
  let tag := Z.lor (Z.shiftr addr (idx_shift c)) VALID in
  '(hit, l) ← scan_ways (Z.to_nat (ways c)) 0 idx (ways c) tag
                (tags c) (lru c);
  Ok (hit, set_lru c l).

(** [for (i = ways - 1; i > 0; i--) lru[i] = lru[i - 1];] *)
Fixpoint fa_shift_down (i : nat) (l : list Z) : result (list Z) :=
  match i with
  | O => Ok l
  | S i' =>
      v ← load l (sub64 (Z.of_nat (S i')) 1);
      l' ← store l (Z.of_nat (S i')) v;
      fa_shift_down i' l'
  end.

(** [fa_cache_sim_t::victimize]: no set index, tag slot written first. *)
Definition fa_victimize (c : cache_sim_t) (addr : Z)
  : result (Z * cache_sim_t) :=
  lru_way ← load (lru c) (sub64 (ways c) 1);
  old_tag ← load (tags c) lru_way;
  t' ← store (tags c) lru_way (Z.lor (Z.shiftr addr (idx_shift c)) VALID);
  l1 ← fa_shift_down (Z.to_nat (sub64 (ways c) 1)) (lru c);
  l2 ← store l1 0 lru_way;
  Ok (old_tag, set_lru (set_tags c t') l2).

(** Virtual dispatch. *)
Definition v_check_tag (k : cache_kind)
  : cache_sim_t -> Z -> result (option Z * cache_sim_t) :=
  match k with SetAssoc => check_tag | FullyAssoc => fa_check_tag end.

Definition v_victimize (k : cache_kind)
  : cache_sim_t -> Z -> result (Z * cache_sim_t) :=
  match k with SetAssoc => victimize | FullyAssoc => fa_victimize end.

(** [*slot |= DIRTY] through a non-null slot pointer. *)
Definition mark_dirty (c : cache_sim_t) (slot : Z) : result cache_sim_t :=
  t ← load (tags c) slot;
  t' ← store (tags c) slot (Z.lor t DIRTY);
  Ok (set_tags c t').

(** [cache_sim_t::access], inherited unchanged by [fa_cache_sim_t]. *)
Definition access (k : cache_kind) (c : cache_sim_t) (addr bytes : Z)
    (is_store : bool) : result (cache_sim_t * list event) :=
  let c := if is_store
           then set_write_accesses c (add64 (write_accesses c) 1)
           else set_read_accesses c (add64 (read_accesses c) 1) in
  let c := if is_store
           then set_bytes_written c (add64 (bytes_written c) bytes)
           else set_bytes_read c (add64 (bytes_read c) bytes) in
  '(hit_way, c) ← v_check_tag k c addr;
  match hit_way with
  | Some slot =>
      if is_store then c ← mark_dirty c slot; Ok (c, [])
      else Ok (c, [])
  | None =>
      let c := if is_store
               then set_write_misses c (add64 (write_misses c) 1)
               else set_read_misses c (add64 (read_misses c) 1) in
      let ev_log := if log c then [MissTrace (name c) is_store addr]
                    else [] in
      '(victim, c) ← v_victimize k c addr;
      let wb := Z.land victim (Z.lor VALID DIRTY) =? Z.lor VALID DIRTY in
      let dirty_addr :=
        shl64 (Z.land victim (not64 (Z.lor VALID DIRTY))) (idx_shift c) in
      let ev_wb :=
        if wb then
          match miss_handler c with
          | Some h => [Forward h dirty_addr (linesz c) true]
          | None => []
          end
        else [] in
      let c := if wb then set_writebacks c (add64 (writebacks c) 1)
               else c in
      let ev_fill :=
        match miss_handler c with
        | Some h => [Forward h (Z.land addr (not64 (sub64 (linesz c) 1)))
                       (linesz c) false]
        | None => []
        end in
      if is_store then
        '(slot, c) ← v_check_tag k c addr;
        match slot with
        | Some p => c ← mark_dirty c p; Ok (c, ev_log ++ ev_wb ++ ev_fill)
        | None => Fault NullDeref
        end
      else Ok (c, ev_log ++ ev_wb ++ ev_fill)
  end.

End Simulator.

(** * Notions used in the statements *)

(** ** Segments of a table *)

(** The [W] entries of a table that start at position [b]: with
    [b = idx * ways] and [W = ways], the entries of set [idx]. *)
Definition segment (b W : nat) (l : list Z) : list Z := take W (drop b l).

(** The table with that segment replaced. *)
Definition splice (b W : nat) (seg l : list Z) : list Z :=
  take b l ++ seg ++ drop (b + W) l.

(** An LRU order after the entry at position [i], whose value is [w], has
    been moved to the front. *)
Definition to_front (i : nat) (w : Z) (seg : list Z) : list Z :=
  w :: take i seg ++ drop (S i) seg.

(** The table [l'] differs from [l] by a reordering of the segment at [b]
    only. *)
Definition reordered (b W : nat) (l l' : list Z) : Prop :=
  length l' = length l /\
  segment b W l' ≡ₚ segment b W l /\
  forall b' : nat, (b' + W <= b)%nat \/ (b + W <= b')%nat ->
                   segment b' W l' = segment b' W l.

(** Way [k] of the set that starts at [b] holds a word equal to [tag] once
    its dirty flag is masked out. *)
Definition slot_matches (DIRTY : Z) (b : nat) (tag : Z) (tgs : list Z)
    (k : nat) : Prop :=
  exists t, tgs !! (b + k)%nat = Some t /\ tag = Z.land t (not64 DIRTY).

(** The set an address maps to. *)
Definition set_of (c : cache_sim_t) (addr : Z) : Z :=
  Z.land (Z.shiftr addr (idx_shift c)) (sub64 (sets c) 1).

(** The LRU order of set [idx]: position 0 is the most recently used way. *)
Definition lru_set (c : cache_sim_t) (idx : Z) : list Z :=
  segment (Z.to_nat (idx * ways c)) (Z.to_nat (ways c)) (lru c).

(** The tag words of set [idx], by way. *)
Definition tag_set (c : cache_sim_t) (idx : Z) : list Z :=
  segment (Z.to_nat (idx * ways c)) (Z.to_nat (ways c)) (tags c).

(** A well-formed object: the geometry [init] leaves, tables of
    [sets * ways] words, and in every set an LRU order that lists each way
    once. *)
Record wf (c : cache_sim_t) : Prop := mk_wf {
  wf_sets : 1 <= sets c < 2 ^ 64;
  wf_ways : 0 <= ways c;
  wf_size : sets c * ways c < 2 ^ 60;
  wf_shift : 3 <= idx_shift c < 64;
  wf_linesz : linesz c = 2 ^ idx_shift c;
  wf_tags : length (tags c) = Z.to_nat (sets c * ways c);
  wf_lru : length (lru c) = Z.to_nat (sets c * ways c);
  wf_perm : forall idx, 0 <= idx < sets c -> lru_set c idx ≡ₚ seqZ 0 (ways c)
}.

(** The geometries [init] accepts: [sets] and [linesz] powers of two,
    [linesz] at least 8, and tables of [sets * ways] words, a length
    below the [2^60] words from which [new[]] throws. *)
Definition accepted_geometry (sets ways linesz : Z) : Prop :=
  sets = 2 ^ Z.log2 sets /\ sets < 2 ^ 64 /\ 0 <= ways /\
  linesz = 2 ^ Z.log2 linesz /\ 8 <= linesz < 2 ^ 64 /\
  sets * ways < 2 ^ 60.

(** The valid geometries of the design: accepted, with at least one way. *)
Definition valid_geometry (sets ways linesz : Z) : Prop :=
  accepted_geometry sets ways linesz /\ 1 <= ways.

(** The word [check_tag] looks for and [victimize] writes. *)
Definition tag_of (VALID : Z) (c : cache_sim_t) (addr : Z) : Z :=
  Z.lor (Z.shiftr addr (idx_shift c)) VALID.

(** Way [k] of the set of [addr] holds the line of [addr]. *)
Definition resident_at (VALID DIRTY : Z) (c : cache_sim_t) (addr : Z)
    (k : nat) : Prop :=
  slot_matches DIRTY (Z.to_nat (set_of c addr * ways c))
    (tag_of VALID c addr) (tags c) k.

(** The class of an object fits its geometry. *)
Definition kind_ok (k : cache_kind) (c : cache_sim_t) : Prop :=
  k = FullyAssoc -> sets c = 1.

(** A victim word with both flags set. *)
Definition valid_and_dirty (VALID DIRTY victim : Z) : bool :=
  (Z.land victim VALID =? VALID) && (Z.land victim DIRTY =? DIRTY).

(** Two objects with the same geometry and tables: [check_tag] and
    [victimize] read nothing else. *)
Definition same_tables (c1 c2 : cache_sim_t) : Prop :=
  sets c1 = sets c2 /\ ways c1 = ways c2 /\ idx_shift c1 = idx_shift c2 /\
  tags c1 = tags c2 /\ lru c1 = lru c2.

(** The counters after the first two statements of [access]. *)
Definition count_access (c : cache_sim_t) (bytes : Z) (is_store : bool)
  : cache_sim_t :=
  if is_store
  then set_bytes_written
         (set_write_accesses c (add64 (write_accesses c) 1))
         (add64 (bytes_written c) bytes)
  else set_bytes_read
         (set_read_accesses c (add64 (read_accesses c) 1))
         (add64 (bytes_read c) bytes).

(** The counters after a miss, and after the victim has been examined. *)
Definition count_miss (c : cache_sim_t) (is_store : bool) : cache_sim_t :=
  if is_store
  then set_write_misses c (add64 (write_misses c) 1)
  else set_read_misses c (add64 (read_misses c) 1).

Definition count_writeback (VALID DIRTY : Z) (c : cache_sim_t) (victim : Z)
  : cache_sim_t :=
  if valid_and_dirty VALID DIRTY victim
  then set_writebacks c (add64 (writebacks c) 1)
  else c.

(** The events of a miss that evicts [victim], in the order they occur:
    the trace line, the writeback of a dirty victim, the fill. *)
Definition miss_events (VALID DIRTY : Z) (c : cache_sim_t)
    (victim addr : Z) (is_store : bool) : list event :=
  (if log c then [MissTrace (name c) is_store addr] else [])
  ++ (if valid_and_dirty VALID DIRTY victim then
        match miss_handler c with
        | Some h =>
            [Forward h
               (shl64 (Z.land victim (not64 (Z.lor VALID DIRTY)))
                  (idx_shift c))
               (linesz c) true]
        | None => []
        end
      else [])
  ++ match miss_handler c with
     | Some h => [Forward h (addr - addr mod linesz c) (linesz c) false]
     | None => []
     end.

(** The state [victimize] leaves, by the way [w] it evicts. *)
Definition filled (VALID : Z) (c : cache_sim_t) (addr w : Z) : cache_sim_t :=
  let idx := set_of c addr in
  let b := Z.to_nat (idx * ways c) in
  let W := Z.to_nat (ways c) in
  set_tags
    (set_lru c (splice b W (w :: take (W - 1) (lru_set c idx)) (lru c)))
    (<[(b + Z.to_nat w)%nat := tag_of VALID c addr]> (tags c)).

(** The invariant of reachable states. *)
Definition inv (k : cache_kind) (c : cache_sim_t) : Prop :=
  wf c /\ kind_ok k c.

(** ** The flag constants *)

(** What the proofs ask of the two constants of the header: both are
    64-bit words, [VALID] is not zero, the two share no bit, and [DIRTY]
    has no bit among the 61 low ones, where the line numbers
    [addr >> idx_shift] of 64-bit addresses live ([idx_shift >= 3]). *)
Definition flags_ok (VALID DIRTY : Z) : Prop :=
  0 < VALID < 2 ^ 64 /\ 0 <= DIRTY < 2 ^ 64 /\
  Z.land VALID DIRTY = 0 /\ Z.land DIRTY (Z.ones 61) = 0.

(** ** Sequences of calls *)

Inductive call : Type :=
| Access (addr bytes : Z) (is_store : bool)
| CheckTag (addr : Z)
| Victimize (addr : Z)
| SetMissHandler (mh : option handler_ref)
| SetLog (b : bool).

(** One call on the object: the state it leaves and the events. *)
Definition do_call (VALID DIRTY : Z) (k : cache_kind) (c : cache_sim_t)
    (o : call) : result (cache_sim_t * list event) :=
  match o with
  | Access addr bytes is_store => access VALID DIRTY k c addr bytes is_store
  | CheckTag addr =>
      r ← v_check_tag VALID DIRTY k c addr; Ok (r.2, [])
  | Victimize addr =>
      r ← v_victimize VALID k c addr; Ok (r.2, [])
  | SetMissHandler mh => Ok (set_miss_handler c mh, [])
  | SetLog b => Ok (set_log c b, [])
  end.

(** The state after a sequence of calls. *)
Fixpoint after (VALID DIRTY : Z) (k : cache_kind) (c : cache_sim_t)
    (calls : list call) : result cache_sim_t :=
  match calls with
  | [] => Ok c
  | o :: calls' =>
      r ← do_call VALID DIRTY k c o;
      after VALID DIRTY k r.1 calls'
  end.

(** A state is reachable when calls lead to it from a constructed object:
    [cache_sim_t(sets, ways, linesz, name)] for the base class,
    [fa_cache_sim_t(ways, linesz, name)], which passes [sets = 1], for the
    fully associative one. *)
Definition reachable (VALID DIRTY : Z) (k : cache_kind) (c : cache_sim_t)
  : Prop :=
  exists (sets ways linesz : Z) (name : string) (c0 : cache_sim_t)
         (calls : list call),
    is_u64 sets /\ is_u64 ways /\ is_u64 linesz /\
    (k = FullyAssoc -> sets = 1) /\
    new_cache_sim_t sets ways linesz name = Ok c0 /\
    after VALID DIRTY k c0 calls = Ok c.

(** The outcome of the lookup for [addr] in state [c]. *)
Definition hits (VALID DIRTY : Z) (k : cache_kind) (c : cache_sim_t)
    (addr : Z) : Prop :=
  exists slot c', v_check_tag VALID DIRTY k c addr = Ok (Some slot, c').

Definition misses (VALID DIRTY : Z) (k : cache_kind) (c : cache_sim_t)
    (addr : Z) : Prop :=
  exists c', v_check_tag VALID DIRTY k c addr = Ok (None, c').

(** What one step of a trace shows: whether a miss was counted, the state
    it leaves, and the events. *)
Record observation : Type := mk_observation {
  obs_miss : bool;
  obs_state : cache_sim_t;
  obs_events : list event
}.

Definition miss_counted (c c' : cache_sim_t) : bool :=
  negb ((read_misses c' =? read_misses c)
        && (write_misses c' =? write_misses c)).

(** A trace of calls, with what each step shows. *)
Fixpoint run (VALID DIRTY : Z) (k : cache_kind) (c : cache_sim_t)
    (calls : list call) : result (list observation) :=
  match calls with
  | [] => Ok []
  | o :: calls' =>
      r ← do_call VALID DIRTY k c o;
      rest ← run VALID DIRTY k r.1 calls';
      Ok (mk_observation (miss_counted c r.1) r.1 r.2 :: rest)
  end.

(** The trace run on a cache under construction. *)
Definition run_from (VALID DIRTY : Z) (k : cache_kind)
    (built : result cache_sim_t) (calls : list call)
  : result (list observation) :=
  c ← built; run VALID DIRTY k c calls.

(** ** Concrete instances *)

(** The flag constants of the simulator this cache model derives from:
    [1ULL << 63] and [1ULL << 62]. *)
Definition VALID63 : Z := 2 ^ 63.
Definition DIRTY62 : Z := 2 ^ 62.

(** A two-set, two-way cache of 8-byte lines, as constructed, and after a
    store to address 16 followed by loads from 48 and 80 (all in set 0). *)
Definition fresh_2x2 : cache_sim_t :=
  mk_cache_sim_t 2 2 8 3 [0; 0; 0; 0] [1; 0; 1; 0] 0 0 0 0 0 0 0 None "L1" false.

Definition trace_2x2 : list call :=
  [Access 16 4 true; Access 48 4 false; Access 80 8 false].

Definition used_2x2 : cache_sim_t :=
  mk_cache_sim_t 2 2 8 3
    [2 ^ 63 + 10; 2 ^ 63 + 6; 0; 0] [0; 1; 1; 0]
    2 2 12 1 1 4 1 None "L1" false.

(** The same cache after the store to 16 and the load from 48 only: the
    dirty line of address 16 is the least recently used of set 0. *)
Definition warm_2x2 : cache_sim_t :=
  mk_cache_sim_t 2 2 8 3
    [2 ^ 63 + 2 ^ 62 + 2; 2 ^ 63 + 6; 0; 0] [1; 0; 1; 0]
    1 1 4 1 1 4 0 None "L1" false.

(** The same, with a next level and the miss trace switched on first. *)
Definition chained_2x2 : cache_sim_t :=
  mk_cache_sim_t 2 2 8 3
    [2 ^ 63 + 2 ^ 62 + 2; 2 ^ 63 + 6; 0; 0] [1; 0; 1; 0]
    1 1 4 1 1 4 0 (Some 1%nat) "L1" true.

(** An eight-way single-set geometry, which [construct] builds as a fully
    associative cache, and a trace that fills it and evicts a dirty line. *)
Definition trace_fa : list call :=
  [SetMissHandler (Some 2%nat); Access 0 8 true; Access 64 8 false;
   Access 128 8 false; Access 192 8 false; Access 256 8 false;
   Access 320 8 false; Access 384 8 false; Access 448 8 false;
   Access 64 8 true; Access 512 8 false; Access 0 8 false].

(** The scenario of the design document on a 64-set, 4-way cache of
    64-byte lines: address [0x1000] is loaded twice and stored to, four
    more lines of the same set follow, then [0x1000] is loaded again. *)
Definition trace_scenario : list call :=
  [SetMissHandler (Some 1%nat);
   Access 4096 4 false; Access 4096 4 false; Access 4096 4 true;
   Access 8192 4 false; Access 12288 4 false; Access 16384 4 false;
   Access 20480 4 false; Access 4096 4 false].

(** * Further notions *)

(** ** Counters *)

(** The counters after an access that did or did not miss ([m]) and did or
    did not count a writeback ([wb]). *)
Definition tally (c : cache_sim_t) (bytes : Z) (is_store m wb : bool)
  : cache_sim_t :=
  let c1 := count_access c bytes is_store in
  let c2 := if m then count_miss c1 is_store else c1 in
  if wb then set_writebacks c2 (add64 (writebacks c2) 1) else c2.

(** The loads and stores of a sequence of calls, and their bytes. *)
Fixpoint loads (calls : list call) : Z :=
  match calls with
  | [] => 0
  | Access _ _ false :: calls' => 1 + loads calls'
  | _ :: calls' => loads calls'
  end.

Fixpoint stores (calls : list call) : Z :=
  match calls with
  | [] => 0
  | Access _ _ true :: calls' => 1 + stores calls'
  | _ :: calls' => stores calls'
  end.

Fixpoint bytes_loaded (calls : list call) : Z :=
  match calls with
  | [] => 0
  | Access _ bytes false :: calls' => bytes + bytes_loaded calls'
  | _ :: calls' => bytes_loaded calls'
  end.

Fixpoint bytes_stored (calls : list call) : Z :=
  match calls with
  | [] => 0
  | Access _ bytes true :: calls' => bytes + bytes_stored calls'
  | _ :: calls' => bytes_stored calls'
  end.

(** The counters of [c] stand for these true counts, taken modulo
    [2^64]: [nl] loads and [ns] stores of [bl] and [bs] bytes, [rm] and
    [wm] of them misses, and [wbk] writebacks. *)
Definition tallied (c : cache_sim_t) (nl ns bl bs rm wm wbk : Z) : Prop :=
  read_accesses c = wrap nl /\ write_accesses c = wrap ns /\
  bytes_read c = wrap bl /\ bytes_written c = wrap bs /\
  read_misses c = wrap rm /\ write_misses c = wrap wm /\
  writebacks c = wrap wbk /\
  0 <= rm <= nl /\ 0 <= wm <= ns /\ 0 <= wbk <= rm + wm.

(** ** A direct-mapped instance *)


(** ** The configuration string of [construct]

    [cache_sim_t::construct] receives the geometry as text,
    [sets:ways:blocksize].  A C string is the list of its characters
    before the terminating NUL.  [int] has 32 bits, and [isspace] is the
    one of the C locale. *)

(** [strchr(s, ch)]: the offset of the first [ch] in [s], if there is one
    before the end of the string. *)
Fixpoint strchr (s : list Ascii.ascii) (ch : Ascii.ascii) : option nat :=
  match s with
  | [] => None
  | c :: s' =>
      if Ascii.eqb c ch then Some 0%nat
      else if Ascii.eqb c Ascii.zero then None
      else S <$> strchr s' ch
  end.

Definition isspace (c : Ascii.ascii) : bool :=
  let n := Ascii.N_of_ascii c in ((n =? 32) || ((9 <=? n) && (n <=? 13)))%N.

Definition isdigit (c : Ascii.ascii) : bool :=
  let n := Ascii.N_of_ascii c in ((48 <=? n) && (n <=? 57))%N.

Fixpoint skip_spaces (s : list Ascii.ascii) : list Ascii.ascii :=
  match s with
  | [] => []
  | c :: s' => if isspace c then skip_spaces s' else s
  end.

(** The optional sign: whether it is a minus, and the text after it. *)
Definition read_sign (s : list Ascii.ascii) : bool * list Ascii.ascii :=
  match s with
  | [] => (false, [])
  | c :: s' =>
      if Ascii.eqb c "-"%char then (true, s')
      else if Ascii.eqb c "+"%char then (false, s')
      else (false, s)
  end.

(** The value of the decimal digits [s] starts with, after [acc]. *)
Fixpoint digits_value (s : list Ascii.ascii) (acc : Z) : Z :=
  match s with
  | [] => acc
  | c :: s' =>
      if isdigit c
      then digits_value s' (10 * acc + (Z.of_N (Ascii.N_of_ascii c) - 48))
      else acc
  end.

(** [atoi(s)]: white space, an optional sign, decimal digits; the text
    after the digits is ignored, and no digits give 0.  The behaviour is
    undefined when the value does not fit [int]: there is no result
    then. *)
Definition atoi (s : list Ascii.ascii) : option Z :=
  let '(neg, s') := read_sign (skip_spaces s) in
  let v := digits_value s' 0 in
  let v' := if neg then - v else v in
  if (- 2 ^ 31 <=? v') && (v' <? 2 ^ 31) then Some v' else None.

(** The first half of [construct]: the two [strchr] calls, each followed
    by [help()] when no colon is found, then the three [atoi] calls on
    [std::string(config, wp)], [std::string(wp, bp)] and [bp], whose [int]
    results are converted to [size_t]. *)
Definition parse_config (config : list Ascii.ascii) : option (result (Z * Z * Z)) :=
  match strchr config ":"%char with
  | None => Some (Fault UsageExit)
  | Some i =>
      let wp := S i in
      match strchr (drop wp config) ":"%char with
      | None => Some (Fault UsageExit)
      | Some j =>
          let bp := (wp + S j)%nat in
          sets ← atoi (take wp config);
          ways ← atoi (take (S j) (drop wp config));
          linesz ← atoi (drop bp config);
          Some (Ok (wrap sets, wrap ways, wrap linesz))
      end
  end.

(** [cache_sim_t::construct(config, name)]: the class of the object made
    and the object, a fault, or no result where [atoi] has none. *)
Definition construct_config (config : list Ascii.ascii) (name : string)
  : option (result (cache_kind * cache_sim_t)) :=
  g ← parse_config config;
  match g with
  | Fault f => Some (Fault f)
  | Ok (sets, ways, linesz) =>
      let '(k, r) := construct sets ways linesz name in
      Some (c ← r; Ok (k, c))
  end.

(** * Properties *)

(** ** Arithmetic *)

Lemma wrap_small (z : Z) : is_u64 z -> wrap z = z.
Proof. intros H. unfold wrap. apply Z.mod_small. exact H. Qed.

Lemma wrap_is_u64 (z : Z) : is_u64 (wrap z).
Proof. unfold is_u64, wrap. apply Z.mod_pos_bound. lia. Qed.

Lemma land_le_r (a b : Z) : 0 <= b -> 0 <= Z.land a b <= b.
Proof.
  intros Hb. split; [apply Z.land_nonneg; auto|].
  pose proof (Z.sub_land_same_l b a) as H.
  assert (0 <= Z.land b (Z.lnot a)) by (apply Z.land_nonneg; auto).
  rewrite (Z.land_comm a b). lia.
Qed.

Lemma land_wrap_l (a x : Z) : is_u64 a -> Z.land a (wrap x) = Z.land a x.
Proof.
  intros Ha. unfold wrap. rewrite <- Z.land_ones by lia.
  rewrite Z.land_assoc, (Z.land_comm a x), <- Z.land_assoc.
  rewrite (Z.land_ones a) by lia. rewrite Z.mod_small by exact Ha. reflexivity.
Qed.

(** [a & ~(2^s - 1)] clears the [s] low bits: [a] rounded down to a
    multiple of [2^s]. *)
Lemma align_down (a s : Z) :
  is_u64 a -> 0 <= s < 64 ->
  Z.land a (not64 (sub64 (2 ^ s) 1)) = a - a mod 2 ^ s.
Proof.
  intros Ha Hs. unfold not64. rewrite land_wrap_l by exact Ha.
  assert (Hp : 0 < 2 ^ s <= 2 ^ 63).
  { split; [apply Z.pow_pos_nonneg; lia|apply Z.pow_le_mono_r; lia]. }
  unfold sub64. rewrite wrap_small by (unfold is_u64; lia).
  replace (2 ^ s - 1) with (Z.ones s) by (rewrite Z.ones_equiv; lia).
  rewrite <- Z.ldiff_land.
  rewrite Z.ldiff_ones_r by lia.
  rewrite Z.shiftr_div_pow2, Z.shiftl_mul_pow2 by lia.
  pose proof (Z.div_mod a (2 ^ s)). lia.
Qed.

Lemma length_segment (b W : nat) (l : list Z) :
  (b + W <= length l)%nat -> length (segment b W l) = W.
Proof. intros H. unfold segment. rewrite length_take, length_drop. lia. Qed.

Lemma lookup_segment (b W i : nat) (l : list Z) :
  (i < W)%nat -> segment b W l !! i = l !! (b + i)%nat.
Proof.
  intros H. unfold segment. rewrite lookup_take_lt by exact H.
  apply lookup_drop.
Qed.

Lemma length_splice (b W : nat) (seg l : list Z) :
  length seg = W -> (b + W <= length l)%nat ->
  length (splice b W seg l) = length l.
Proof.
  intros Hs Hl. unfold splice.
  rewrite !length_app, length_take, length_drop. lia.
Qed.

Lemma segment_splice_same (b W : nat) (seg l : list Z) :
  length seg = W -> (b <= length l)%nat ->
  segment b W (splice b W seg l) = seg.
Proof.
  intros Hs Hl. unfold segment, splice.
  rewrite drop_app_length' by (rewrite length_take; lia).
  rewrite take_app_length' by (symmetry; exact Hs). reflexivity.
Qed.

Lemma segment_splice_other (b b' W : nat) (seg l : list Z) :
  length seg = W -> (b + W <= length l)%nat ->
  (b' + W <= b)%nat \/ (b + W <= b')%nat ->
  segment b' W (splice b W seg l) = segment b' W l.
Proof.
  intros Hs Hl Hd. apply list_eq. intros i.
  destruct (decide (i < W)%nat) as [Hi|Hi].
  2:{ unfold segment. rewrite !lookup_take_ge by lia. reflexivity. }
  rewrite !lookup_segment by exact Hi. unfold splice.
  destruct Hd as [Hd|Hd].
  - rewrite lookup_app_l by (rewrite length_take; lia).
    apply lookup_take_lt. lia.
  - rewrite lookup_app_r by (rewrite length_take; lia).
    rewrite length_take, lookup_app_r by lia.
    rewrite lookup_drop. f_equal. lia.
Qed.

Lemma splice_segment (b W : nat) (l : list Z) :
  splice b W (segment b W l) l = l.
Proof.
  unfold splice, segment.
  rewrite <- (take_drop b l) at 4. f_equal.
  rewrite <- (take_drop W (drop b l)) at 2. f_equal.
  rewrite drop_drop. reflexivity.
Qed.

Lemma to_front_length (i : nat) (w : Z) (seg : list Z) :
  (i < length seg)%nat -> length (to_front i w seg) = length seg.
Proof.
  intros H. unfold to_front. cbn [length].
  rewrite length_app, length_take, length_drop. lia.
Qed.

Lemma to_front_perm (i : nat) (w : Z) (seg : list Z) :
  seg !! i = Some w -> to_front i w seg ≡ₚ seg.
Proof.
  intros H. unfold to_front.
  rewrite <- (take_drop_middle seg i w H) at 3.
  apply Permutation_middle.
Qed.

(** The table after the entries [b .. b+j-1] have been copied one
    position back and [w] has been written at [b]. *)
Lemma moved_as_splice (b W j : nat) (w : Z) (l : list Z) :
  (j < W)%nat -> (b + W <= length l)%nat ->
  take b l ++ w :: take j (drop b l) ++ drop (S (b + j)) l
  = splice b W (to_front j w (segment b W l)) l.
Proof.
  intros Hj Hl. unfold splice, to_front, segment. f_equal.
  cbn [app]. f_equal. rewrite <- app_assoc. f_equal.
  - rewrite take_take. f_equal. lia.
  - replace (S (b + j)) with (b + S j)%nat by lia.
    rewrite <- !drop_drop.
    generalize (drop b l) (length_drop l b). intros d Hd.
    rewrite <- (take_drop W d) at 1.
    apply drop_app_le. rewrite length_take. lia.
Qed.

(** ** Array accesses inside the allocation *)

Lemma load_at (a : list Z) (n : nat) (v : Z) :
  a !! n = Some v -> load a (Z.of_nat n) = Ok v.
Proof. intros H. unfold load. rewrite Nat2Z.id, H. reflexivity. Qed.

Lemma store_at (a : list Z) (n : nat) (v : Z) :
  (n < length a)%nat -> store a (Z.of_nat n) v = Ok (<[n := v]> a).
Proof.
  intros H. unfold store. rewrite Nat2Z.id.
  destruct (decide (n < length a)%nat); [reflexivity|contradiction].
Qed.

Lemma load_in (a : list Z) (i v : Z) :
  a !! Z.to_nat i = Some v -> load a i = Ok v.
Proof. intros H. unfold load. rewrite H. reflexivity. Qed.

Lemma store_in (a : list Z) (i v : Z) :
  (Z.to_nat i < length a)%nat -> store a i v = Ok (<[Z.to_nat i := v]> a).
Proof.
  intros H. unfold store.
  destruct (decide (Z.to_nat i < length a)%nat); [reflexivity|contradiction].
Qed.

Lemma load_Ok_inv (a : list Z) (i v : Z) :
  load a i = Ok v -> a !! Z.to_nat i = Some v.
Proof. unfold load. destruct (a !! Z.to_nat i); congruence. Qed.

Lemma store_Ok_inv (a a' : list Z) (i v : Z) :
  store a i v = Ok a' ->
  (Z.to_nat i < length a)%nat /\ a' = <[Z.to_nat i := v]> a.
Proof.
  unfold store. destruct (decide (Z.to_nat i < length a)%nat); [|discriminate].
  intros [= <-]. split; [assumption|reflexivity].
Qed.

Lemma bind_Ok_inv {A B : Type} (r : result A) (k : A -> result B) (b : B) :
  (r ≫= k) = Ok b -> exists a, r = Ok a /\ k a = Ok b.
Proof. destruct r as [a|f]; cbn; [eauto|discriminate]. Qed.

(** ** The shifting loops *)

Section Loops.
Context (idx ways : Z) (b : nat).
Hypothesis Hbase : mul64 idx ways = Z.of_nat b.

Lemma index_at (j : nat) :
  Z.of_nat (b + j) < 2 ^ 64 ->
  add64 (mul64 idx ways) (Z.of_nat j) = Z.of_nat (b + j).
Proof.
  intros H. rewrite Hbase. unfold add64.
  rewrite wrap_small by (unfold is_u64; lia). lia.
Qed.

Lemma shift_down_spec (j : nat) (l : list Z) :
  Z.of_nat (b + j) < 2 ^ 64 ->
  (b + j < length l)%nat ->
  shift_down j idx ways l
  = Ok (take (S b) l ++ take j (drop b l) ++ drop (S (b + j)) l).
Proof.
  revert l. induction j as [|j IH]; intros l Hr Hl.
  - cbn [shift_down]. rewrite Nat.add_0_r, take_0, app_nil_l, take_drop.
    reflexivity.
  - cbn [shift_down]. rewrite index_at by exact Hr.
    replace (sub64 (Z.of_nat (b + S j)) 1) with (Z.of_nat (b + j))
      by (unfold sub64; rewrite wrap_small by (unfold is_u64; lia); lia).
    destruct (lookup_lt_is_Some_2 l (b + j)%nat ltac:(lia)) as [x Hx].
    rewrite (load_at _ _ _ Hx). cbn.
    rewrite store_at by lia. cbn.
    rewrite IH by (rewrite ?length_insert; lia).
    f_equal.
    rewrite take_insert_ge by lia. f_equal.
    rewrite drop_insert_ge by lia.
    rewrite take_insert_ge by lia.
    rewrite (take_S_r (drop b l) j x) by (rewrite lookup_drop; exact Hx).
    rewrite <- app_assoc. f_equal.
    replace (S (b + j)) with (b + S j)%nat by lia.
    rewrite drop_insert_ge by lia.
    replace (b + S j - (b + S j))%nat with 0%nat by lia.
    destruct (lookup_lt_is_Some_2 l (b + S j)%nat ltac:(lia)) as [y Hy].
    rewrite (drop_S l y (b + S j) Hy). reflexivity.
Qed.

Lemma move_front_spec (W j : nat) (w : Z) (l : list Z) :
  (j < W)%nat ->
  (b + W <= length l)%nat ->
  Z.of_nat (b + W) <= 2 ^ 64 ->
  (l1 ← shift_down j idx ways l; store l1 (mul64 idx ways) w)
  = Ok (splice b W (to_front j w (segment b W l)) l).
Proof.
  intros Hj Hl Hr.
  rewrite shift_down_spec by lia. cbn.
  rewrite Hbase, store_at
    by (rewrite !length_app, length_take; lia).
  f_equal. rewrite <- moved_as_splice by assumption.
  destruct (lookup_lt_is_Some_2 l b ltac:(lia)) as [y Hy].
  rewrite (take_S_r l b y Hy), <- app_assoc.
  rewrite insert_app_r_alt by (rewrite length_take; lia).
  rewrite length_take.
  replace (b - b `min` length l)%nat with 0%nat by lia.
  reflexivity.
Qed.

Lemma reordered_refl (W : nat) (l : list Z) : reordered b W l l.
Proof. split; [reflexivity|]. split; [reflexivity|]. intros; reflexivity. Qed.

Lemma reordered_to_front (W p : nat) (k : Z) (l : list Z) :
  (p < W)%nat -> (b + W <= length l)%nat -> l !! (b + p)%nat = Some k ->
  reordered b W l (splice b W (to_front p k (segment b W l)) l).
Proof.
  intros Hp Hl Hk.
  assert (Hlen : length (to_front p k (segment b W l)) = W).
  { rewrite to_front_length; rewrite length_segment; lia. }
  split; [|split].
  - apply length_splice; assumption.
  - rewrite segment_splice_same by (assumption || lia).
    apply to_front_perm. rewrite lookup_segment by exact Hp. exact Hk.
  - intros b' Hd. apply segment_splice_other; assumption.
Qed.

(** The loop over [i] of [check_tag], from position [i] with [n]
    iterations left: the first position [p] that holds [k], if there is
    one, is moved to the front. *)
Lemma promote_spec (W : nat) (k : Z) (l : list Z) (n i : nat) :
  (b + W <= length l)%nat ->
  Z.of_nat (b + W) <= 2 ^ 64 ->
  (i + n <= W)%nat ->
  (exists p : nat,
      (i <= p < i + n)%nat /\ l !! (b + p)%nat = Some k /\
      (forall q : nat, (i <= q < p)%nat -> l !! (b + q)%nat <> Some k) /\
      promote n (Z.of_nat i) idx ways k l
      = Ok (splice b W (to_front p k (segment b W l)) l))
  \/ ((forall q : nat, (i <= q < i + n)%nat -> l !! (b + q)%nat <> Some k) /\
      promote n (Z.of_nat i) idx ways k l = Ok l).
Proof.
  intros Hl Hr. revert i. induction n as [|n IH]; intros i Hi.
  - right. split; [intros q Hq; lia|reflexivity].
  - cbn [promote]. rewrite index_at by lia.
    destruct (lookup_lt_is_Some_2 l (b + i)%nat ltac:(lia)) as [v Hv].
    rewrite (load_at _ _ _ Hv). cbn.
    destruct (Z.eqb_spec v k) as [->|Hne].
    + left. exists i. split; [lia|]. split; [exact Hv|].
      split; [intros q Hq; lia|].
      rewrite Nat2Z.id. apply move_front_spec; lia.
    + replace (Z.of_nat i + 1) with (Z.of_nat (S i)) by lia.
      destruct (IH (S i) ltac:(lia)) as [(p & Hp & Hk & Hfirst & Hres)|[Hno Hres]].
      * left. exists p. split; [lia|]. split; [exact Hk|]. split; [|exact Hres].
        intros q Hq. destruct (decide (q = i)) as [->|Hqi].
        -- rewrite Hv. congruence.
        -- apply Hfirst. lia.
      * right. split; [|exact Hres].
        intros q Hq. destruct (decide (q = i)) as [->|Hqi].
        -- rewrite Hv. congruence.
        -- apply Hno. lia.
Qed.

Lemma promote_reordered (W : nat) (k : Z) (l : list Z) :
  (b + W <= length l)%nat ->
  Z.of_nat (b + W) <= 2 ^ 64 ->
  exists l', promote W 0 idx ways k l = Ok l' /\ reordered b W l l'.
Proof.
  intros Hl Hr.
  destruct (promote_spec W k l W 0 Hl Hr ltac:(lia))
    as [(p & Hp & Hk & _ & Hres)|[_ Hres]]; cbn in Hres.
  - eexists. split; [exact Hres|]. apply reordered_to_front; (lia || assumption).
  - exists l. split; [exact Hres|]. apply reordered_refl.
Qed.

End Loops.

(** ** The lookup loop *)

Section Scan.
Context (DIRTY : Z) (idx ways : Z) (b W : nat).
Hypothesis Hbase : mul64 idx ways = Z.of_nat b.
Hypothesis Hways : ways = Z.of_nat W.

Lemma scan_ways_spec (tag : Z) (tgs l : list Z) (n k0 : nat) :
  (b + W <= length tgs)%nat ->
  (b + W <= length l)%nat ->
  Z.of_nat (b + W) <= 2 ^ 64 ->
  (k0 + n <= W)%nat ->
  (exists (k : nat) (l' : list Z),
      (k0 <= k < k0 + n)%nat /\ slot_matches DIRTY b tag tgs k /\
      (forall q : nat, (k0 <= q < k)%nat -> ~ slot_matches DIRTY b tag tgs q) /\
      promote W 0 idx ways (Z.of_nat k) l = Ok l' /\
      reordered b W l l' /\
      scan_ways DIRTY n (Z.of_nat k0) idx ways tag tgs l
      = Ok (Some (Z.of_nat (b + k)), l'))
  \/ ((forall q : nat, (k0 <= q < k0 + n)%nat -> ~ slot_matches DIRTY b tag tgs q) /\
      scan_ways DIRTY n (Z.of_nat k0) idx ways tag tgs l = Ok (None, l)).
Proof.
  intros Ht Hl Hr. revert k0. induction n as [|n IH]; intros k0 Hk.
  - right. split; [intros q Hq; lia|reflexivity].
  - cbn [scan_ways]. rewrite (index_at idx ways b Hbase) by lia.
    destruct (lookup_lt_is_Some_2 tgs (b + k0)%nat ltac:(lia)) as [t Hv].
    rewrite (load_at _ _ _ Hv). cbn.
    destruct (Z.eqb_spec tag (Z.land t (not64 DIRTY))) as [Heq|Hne].
    + left.
      destruct (promote_reordered idx ways b Hbase W (Z.of_nat k0) l Hl Hr)
        as (l' & Hp & Hre).
      exists k0, l'. split; [lia|]. split; [exists t; auto|].
      split; [intros q Hq; lia|]. split; [exact Hp|]. split; [exact Hre|].
      replace (Z.to_nat ways) with W by lia. rewrite Hp. reflexivity.
    + assert (Hnot : ~ slot_matches DIRTY b tag tgs k0).
      { intros (t' & Ht' & Hm). rewrite Hv in Ht'. congruence. }
      replace (Z.of_nat k0 + 1) with (Z.of_nat (S k0)) by lia.
      destruct (IH (S k0) ltac:(lia))
        as [(k & l' & Hk' & Hm & Hfirst & Hp & Hre & Hres)|[Hno Hres]].
      * left. exists k, l'. split; [lia|]. split; [exact Hm|].
        split; [|auto].
        intros q Hq. destruct (decide (q = k0)) as [->|Hq0]; [exact Hnot|].
        apply Hfirst. lia.
      * right. split; [|exact Hres].
        intros q Hq. destruct (decide (q = k0)) as [->|Hq0]; [exact Hnot|].
        apply Hno. lia.
Qed.

End Scan.

(** ** Well-formed objects *)

Lemma set_of_range (c : cache_sim_t) (addr : Z) :
  wf c -> 0 <= set_of c addr < sets c.
Proof.
  intros Hc. destruct (wf_sets c Hc) as [H1 H2]. unfold set_of.
  unfold sub64. rewrite wrap_small by (unfold is_u64; lia).
  pose proof (land_le_r (Z.shiftr addr (idx_shift c)) (sets c - 1)). lia.
Qed.

(** The position arithmetic of one set, in the form the loop lemmas use. *)
Lemma set_base (c : cache_sim_t) (idx : Z) :
  wf c -> 0 <= idx < sets c ->
  let b := Z.to_nat (idx * ways c) in
  let W := Z.to_nat (ways c) in
  mul64 idx (ways c) = Z.of_nat b /\ ways c = Z.of_nat W /\
  (b + W <= length (tags c))%nat /\ (b + W <= length (lru c))%nat /\
  Z.of_nat (b + W) < 2 ^ 61.
Proof.
  intros Hc Hi b W. subst b W.
  pose proof (wf_ways c Hc). pose proof (wf_size c Hc).
  pose proof (wf_sets c Hc).
  rewrite (wf_tags c Hc), (wf_lru c Hc).
  assert (0 <= idx * ways c) by nia.
  assert (idx * ways c + ways c <= sets c * ways c) by nia.
  unfold mul64. rewrite wrap_small by (unfold is_u64; lia).
  repeat split; lia.
Qed.

Lemma sets_disjoint (c : cache_sim_t) (idx idx' : Z) :
  0 <= ways c -> 0 <= idx -> 0 <= idx' -> idx <> idx' ->
  let W := Z.to_nat (ways c) in
  (Z.to_nat (idx' * ways c) + W <= Z.to_nat (idx * ways c))%nat \/
  (Z.to_nat (idx * ways c) + W <= Z.to_nat (idx' * ways c))%nat.
Proof.
  intros Hw Hi Hi' Hne W. subst W.
  destruct (Z.lt_total idx idx') as [Hlt|[?|Hlt]]; [right| contradiction |left].
  - assert (idx * ways c + ways c <= idx' * ways c) by nia.
    assert (0 <= idx * ways c) by nia. lia.
  - assert (idx' * ways c + ways c <= idx * ways c) by nia.
    assert (0 <= idx' * ways c) by nia. lia.
Qed.

(** A reordering of one set's LRU segment keeps the object well formed. *)
Lemma wf_set_lru (c : cache_sim_t) (idx : Z) (l' : list Z) :
  wf c -> 0 <= idx < sets c ->
  reordered (Z.to_nat (idx * ways c)) (Z.to_nat (ways c)) (lru c) l' ->
  wf (set_lru c l').
Proof.
  intros Hc Hi (Hlen & Hperm & Hother).
  destruct Hc as [H1 H2 H3 H4 H5 H6 H7 H8].
  constructor; cbn; try assumption.
  - rewrite Hlen. assumption.
  - intros idx' Hi'. unfold lru_set; cbn.
    destruct (Z.eq_dec idx idx') as [<-|Hne].
    + rewrite Hperm. apply (H8 idx Hi).
    + rewrite Hother by (apply sets_disjoint; lia).
      apply (H8 idx' Hi').
Qed.

Lemma wf_set_tags (c : cache_sim_t) (t' : list Z) :
  wf c -> length t' = length (tags c) -> wf (set_tags c t').
Proof.
  intros [H1 H2 H3 H4 H5 H6 H7 H8] Hlen.
  constructor; cbn; try assumption. rewrite Hlen. assumption.
Qed.

Lemma bind_assoc {A B C : Type} (r : result A) (f : A -> result B)
    (g : B -> result C) :
  (r ≫= f) ≫= g = r ≫= (fun a => f a ≫= g).
Proof. destruct r; reflexivity. Qed.

Lemma set_lru_same (c : cache_sim_t) : set_lru c (lru c) = c.
Proof. destruct c; reflexivity. Qed.

(** ** [check_tag] and [victimize] on a well-formed object *)

Section Methods.
Context (VALID DIRTY : Z).

Lemma check_tag_spec (c : cache_sim_t) (addr : Z) :
  wf c ->
  let b := Z.to_nat (set_of c addr * ways c) in
  let W := Z.to_nat (ways c) in
  (exists (k : nat) (l' : list Z),
      (k < W)%nat /\ resident_at VALID DIRTY c addr k /\
      (forall q : nat, (q < k)%nat -> ~ resident_at VALID DIRTY c addr q) /\
      promote W 0 (set_of c addr) (ways c) (Z.of_nat k) (lru c) = Ok l' /\
      reordered b W (lru c) l' /\
      check_tag VALID DIRTY c addr
      = Ok (Some (Z.of_nat (b + k)), set_lru c l'))
  \/ ((forall q : nat, (q < W)%nat -> ~ resident_at VALID DIRTY c addr q) /\
      check_tag VALID DIRTY c addr = Ok (None, c)).
Proof.
  intros Hc b W.
  destruct (set_base c (set_of c addr) Hc (set_of_range c addr Hc))
    as (Hb & Hw & Ht & Hl & Hr). fold b W in Hb, Hw, Ht, Hl, Hr.
  unfold check_tag. fold (set_of c addr). fold (tag_of VALID c addr).
  replace (Z.to_nat (ways c)) with W by reflexivity.
  destruct (scan_ways_spec DIRTY (set_of c addr) (ways c) b W Hb Hw
              (tag_of VALID c addr) (tags c) (lru c) W 0 Ht Hl ltac:(lia)
              ltac:(lia))
    as [(k & l' & Hk & Hm & Hfirst & Hp & Hre & Hres)|[Hno Hres]];
    change (Z.of_nat 0) with 0 in Hres; rewrite Hres; cbn.
  - left. exists k, l'. split; [lia|]. split; [exact Hm|].
    split; [intros q Hq; apply Hfirst; lia|]. split; [exact Hp|].
    split; [exact Hre|reflexivity].
  - right. split; [intros q Hq; apply Hno; lia|].
    rewrite set_lru_same. reflexivity.
Qed.

(** [check_tag] returns and keeps the object well formed. *)
Lemma check_tag_wf (c : cache_sim_t) (addr : Z) :
  wf c ->
  exists hit c', check_tag VALID DIRTY c addr = Ok (hit, c') /\ wf c' /\
                 tags c' = tags c.
Proof.
  intros Hc.
  destruct (check_tag_spec c addr Hc)
    as [(k & l' & _ & _ & _ & _ & Hre & Hres)|[_ Hres]];
    rewrite Hres; eexists _, _; (split; [reflexivity|]).
  - split; [|reflexivity].
    eapply wf_set_lru; [exact Hc|apply set_of_range; exact Hc|exact Hre].
  - split; [exact Hc|reflexivity].
Qed.

(** The way at the last LRU position of a set is a way index. *)
Lemma lru_last (c : cache_sim_t) (idx : Z) :
  wf c -> 1 <= ways c -> 0 <= idx < sets c ->
  exists w, lru_set c idx !! (Z.to_nat (ways c) - 1)%nat = Some w /\
            0 <= w < ways c.
Proof.
  intros Hc Hw Hi.
  destruct (set_base c idx Hc Hi) as (_ & _ & _ & Hl & _).
  destruct (lookup_lt_is_Some_2 (lru_set c idx) (Z.to_nat (ways c) - 1))
    as [w Hlk].
  { unfold lru_set. rewrite length_segment; lia. }
  exists w. split; [exact Hlk|].
  assert (Hin : w ∈ seqZ 0 (ways c)).
  { rewrite <- (wf_perm c Hc idx Hi). eapply list_elem_of_lookup_2, Hlk. }
  apply elem_of_seqZ in Hin. lia.
Qed.

Lemma victimize_spec (c : cache_sim_t) (addr : Z) :
  wf c -> 1 <= ways c ->
  let idx := set_of c addr in
  let b := Z.to_nat (idx * ways c) in
  let W := Z.to_nat (ways c) in
  exists w victim,
    lru_set c idx !! (W - 1)%nat = Some w /\ 0 <= w < ways c /\
    tags c !! (b + Z.to_nat w)%nat = Some victim /\
    victimize VALID c addr
    = Ok (victim,
          set_tags
            (set_lru c (splice b W (w :: take (W - 1) (lru_set c idx))
                          (lru c)))
            (<[(b + Z.to_nat w)%nat := tag_of VALID c addr]> (tags c))).
Proof.
  intros Hc Hw idx b W.
  pose proof (set_of_range c addr Hc) as Hi. fold idx in Hi.
  destruct (set_base c idx Hc Hi) as (Hb & HW & Ht & Hl & Hr).
  fold b W in Hb, HW, Ht, Hl, Hr.
  destruct (lru_last c idx Hc Hw Hi) as (w & Hlk & Hrange). fold W in Hlk.
  destruct (lookup_lt_is_Some_2 (tags c) (b + Z.to_nat w)%nat ltac:(lia))
    as [victim Hv].
  exists w, victim. split; [exact Hlk|]. split; [exact Hrange|].
  split; [exact Hv|].
  unfold victimize. fold (set_of c addr). fold idx. fold (tag_of VALID c addr).
  assert (Hlast : lru c !! (b + (W - 1))%nat = Some w).
  { unfold lru_set in Hlk. fold b W in Hlk.
    rewrite lookup_segment in Hlk by lia. exact Hlk. }
  replace (sub64 (add64 (mul64 idx (ways c)) (ways c)) 1)
    with (Z.of_nat (b + (W - 1))).
  2:{ rewrite Hb. unfold sub64, add64.
      rewrite (wrap_small (Z.of_nat b + ways c)) by (unfold is_u64; lia).
      rewrite wrap_small by (unfold is_u64; lia). lia. }
  rewrite (load_at _ _ _ Hlast). cbn.
  replace (Z.to_nat (sub64 (ways c) 1)) with (W - 1)%nat.
  2:{ unfold sub64. rewrite wrap_small by (unfold is_u64; lia). lia. }
  rewrite <- (bind_assoc (shift_down _ _ _ _)
                (fun l1 => store l1 (mul64 idx (ways c)) w)).
  rewrite (move_front_spec idx (ways c) b Hb W (W - 1)) by lia. cbn.
  replace (add64 (mul64 idx (ways c)) w) with (Z.of_nat (b + Z.to_nat w)).
  2:{ rewrite Hb. unfold add64.
      rewrite wrap_small by (unfold is_u64; lia). lia. }
  rewrite (load_at _ _ _ Hv). cbn.
  rewrite store_at by lia. cbn.
  do 4 f_equal. unfold to_front, lru_set. fold b W.
  rewrite drop_ge by (rewrite length_segment; lia).
  rewrite app_nil_r. reflexivity.
Qed.

End Methods.

(** ** Construction *)

Lemma halvings_log2 (p : positive) : halvings p = Z.log2 (Zpos p).
Proof.
  induction p as [p IH|p IH|].
  - cbn [halvings]. rewrite IH, Pos2Z.inj_xI.
    rewrite Z.log2_succ_double by lia. lia.
  - cbn [halvings]. rewrite IH, Pos2Z.inj_xO.
    rewrite Z.log2_double by lia. lia.
  - reflexivity.
Qed.

Lemma count_idx_shift_log2 (x : Z) : count_idx_shift x = Z.log2 x.
Proof. destruct x; [reflexivity|apply halvings_log2|reflexivity]. Qed.

(** The test [x & (x - 1)] of [init] is zero exactly on powers of two. *)
Lemma land_pred_pow2 (k : Z) : 0 <= k -> Z.land (2 ^ k) (2 ^ k - 1) = 0.
Proof.
  intros Hk. replace (2 ^ k - 1) with (Z.ones k) by (rewrite Z.ones_equiv; lia).
  rewrite Z.land_ones by lia. apply Z.mod_same.
  apply Z.pow_nonzero; lia.
Qed.

Lemma land_pred_zero (x : Z) :
  0 < x -> Z.land x (x - 1) = 0 -> x = 2 ^ Z.log2 x.
Proof.
  intros Hx Hz. destruct (Z.log2_spec x Hx) as [Hlo Hhi].
  destruct (Z.eq_dec x (2 ^ Z.log2 x)) as [|Hne]; [assumption|exfalso].
  assert (Hk : 0 <= Z.log2 x) by apply Z.log2_nonneg.
  assert (Hlog : Z.log2 (x - 1) = Z.log2 x).
  { apply Z.log2_unique; [exact Hk|]. lia. }
  assert (Hbit : Z.testbit (Z.land x (x - 1)) (Z.log2 x) = true).
  { rewrite Z.land_spec, (Z.bit_log2 x Hx).
    rewrite <- Hlog. rewrite Z.bit_log2 by lia. reflexivity. }
  rewrite Hz, Z.bits_0 in Hbit. discriminate.
Qed.

Lemma pow2_log2_range (x : Z) :
  8 <= x < 2 ^ 64 -> 3 <= Z.log2 x < 64.
Proof.
  intros [Hlo Hhi]. split.
  - change 3 with (Z.log2 8). apply Z.log2_le_mono. exact Hlo.
  - apply Z.log2_lt_pow2; lia.
Qed.

(** The inner initialisation loop writes [ways - j - 1] at position [j]
    of the row that starts at [b]. *)
Lemma init_lru_row_spec (i ways : Z) (b n j : nat) (l : list Z) :
  mul64 i ways = Z.of_nat b ->
  Z.of_nat (j + n) <= ways < 2 ^ 64 ->
  (b + j + n <= length l)%nat ->
  Z.of_nat (b + j + n) <= 2 ^ 64 ->
  exists l',
    init_lru_row n i (Z.of_nat j) ways l = Ok l' /\
    length l' = length l /\
    forall p : nat,
      l' !! p = if decide (b + j <= p < b + j + n)%nat
                then Some (ways - Z.of_nat (p - b) - 1)
                else l !! p.
Proof.
  intros Hb. revert j l. induction n as [|n IH]; intros j l Hw Hl Hr.
  - exists l. split; [reflexivity|]. split; [reflexivity|].
    intros p. case_decide; [lia|reflexivity].
  - cbn [init_lru_row]. rewrite (index_at i ways b Hb) by lia.
    replace (sub64 (sub64 ways (Z.of_nat j)) 1) with (ways - Z.of_nat j - 1)
      by (unfold sub64;
          rewrite (wrap_small (ways - Z.of_nat j)) by (unfold is_u64; lia);
          rewrite wrap_small by (unfold is_u64; lia); lia).
    rewrite store_at by lia. cbn.
    replace (Z.of_nat j + 1) with (Z.of_nat (S j)) by lia.
    destruct (IH (S j) (<[(b + j)%nat := ways - Z.of_nat j - 1]> l))
      as (l' & Hres & Hlen & Hlook);
      rewrite ?length_insert; try lia.
    exists l'. split; [exact Hres|].
    split; [rewrite Hlen, length_insert; reflexivity|].
    intros p. rewrite Hlook, list_lookup_insert.
    repeat case_decide; destruct_and?; try lia; try reflexivity.
    f_equal. lia.
Qed.

(** The outer loop does so for every row. *)
Lemma init_lru_rows_spec (ways : Z) (W n i : nat) (l : list Z) :
  ways = Z.of_nat W ->
  ((i + n) * W <= length l)%nat ->
  Z.of_nat ((i + n) * W) < 2 ^ 64 ->
  exists l',
    init_lru_rows n (Z.of_nat i) ways l = Ok l' /\
    length l' = length l /\
    (forall i' j : nat, (i <= i' < i + n)%nat -> (j < W)%nat ->
        l' !! (i' * W + j)%nat = Some (ways - Z.of_nat j - 1)) /\
    (forall p : nat, ~ (i * W <= p < (i + n) * W)%nat -> l' !! p = l !! p).
Proof.
  intros HW. revert i l. induction n as [|n IH]; intros i l Hl Hr.
  - exists l. split; [reflexivity|]. split; [reflexivity|].
    split; [intros; lia|reflexivity].
  - cbn [init_lru_rows].
    assert (Hrow : (i * W + W <= (i + S n) * W)%nat) by nia.
    assert (Hb : mul64 (Z.of_nat i) ways = Z.of_nat (i * W)).
    { unfold mul64. rewrite wrap_small by (unfold is_u64; nia). nia. }
    destruct (init_lru_row_spec (Z.of_nat i) ways (i * W) W 0 l Hb)
      as (l1 & Hres1 & Hlen1 & Hlook1); try lia.
    replace (Z.to_nat ways) with W by lia.
    change (Z.of_nat 0) with 0 in Hres1. rewrite Hres1. cbn.
    replace (Z.of_nat i + 1) with (Z.of_nat (S i)) by lia.
    destruct (IH (S i) l1) as (l' & Hres & Hlen & Hin & Hout).
    { rewrite Hlen1. replace (S i + n)%nat with (i + S n)%nat by lia. lia. }
    { replace (S i + n)%nat with (i + S n)%nat by lia. lia. }
    exists l'. split; [exact Hres|]. split; [congruence|]. split.
    + intros i' j Hi' Hj. destruct (decide (i' = i)) as [->|Hne].
      * rewrite Hout by nia. rewrite Hlook1.
        case_decide; [|lia]. f_equal. lia.
      * apply Hin; lia.
    + intros p Hp. rewrite Hout by nia. rewrite Hlook1.
      case_decide; [nia|reflexivity].
Qed.

Lemma pow2_log2_pos (x : Z) : x = 2 ^ Z.log2 x -> 1 <= x.
Proof.
  intros H. rewrite H.
  pose proof (Z.pow_pos_nonneg 2 (Z.log2 x) ltac:(lia) (Z.log2_nonneg x)). lia.
Qed.

Lemma descending_perm (W : nat) (seg : list Z) :
  length seg = W ->
  (forall j : nat, (j < W)%nat ->
                   seg !! j = Some (Z.of_nat W - Z.of_nat j - 1)) ->
  seg ≡ₚ seqZ 0 (Z.of_nat W).
Proof.
  intros Hlen Hlook.
  assert (Heq : seg = reverse (seqZ 0 (Z.of_nat W))).
  { apply (list_eq_same_length _ _ W).
    - rewrite length_reverse, length_seqZ. lia.
    - exact Hlen.
    - intros i x y Hi Hx Hy. rewrite Hlook in Hx by exact Hi.
      rewrite reverse_lookup in Hy by (rewrite length_seqZ; lia).
      rewrite length_seqZ, lookup_seqZ_lt in Hy by lia.
      injection Hx as <-. injection Hy as <-. lia. }
  rewrite Heq. apply reverse_Permutation.
Qed.

(** [init] succeeds on every accepted geometry, with all tag words zero,
    every LRU position [j] holding way [ways - j - 1], all counters zero
    and no miss handler. *)
Lemma init_accepted (sets ways linesz : Z) (name : string) (log : bool) :
  accepted_geometry sets ways linesz ->
  exists l0,
    init sets ways linesz name log
    = Ok (mk_cache_sim_t sets ways linesz (Z.log2 linesz)
            (replicate (Z.to_nat (sets * ways)) 0) l0
            0 0 0 0 0 0 0 None name log) /\
    length l0 = Z.to_nat (sets * ways) /\
    forall i j, 0 <= i < sets -> 0 <= j < ways ->
                l0 !! Z.to_nat (i * ways + j) = Some (ways - j - 1).
Proof.
  intros (Hs & Hs64 & Hw & Hl & Hl8 & Hsz).
  pose proof (pow2_log2_pos sets Hs) as Hs1.
  unfold init.
  destruct (Z.eqb_spec sets 0) as [?|_]; [lia|].
  replace (sub64 sets 1) with (sets - 1)
    by (unfold sub64; rewrite wrap_small by (unfold is_u64; lia); lia).
  replace (Z.land sets (sets - 1)) with 0
    by (rewrite Hs; symmetry; apply land_pred_pow2, Z.log2_nonneg).
  destruct (Z.ltb_spec linesz 8) as [?|_]; [lia|].
  replace (sub64 linesz 1) with (linesz - 1)
    by (unfold sub64; rewrite wrap_small by (unfold is_u64; lia); lia).
  replace (Z.land linesz (linesz - 1)) with 0
    by (rewrite Hl; symmetry; apply land_pred_pow2, Z.log2_nonneg).
  cbn [Z.eqb negb orb].
  assert (Hm : mul64 sets ways = sets * ways).
  { unfold mul64. apply wrap_small. unfold is_u64. nia. }
  rewrite Hm. unfold new_zeroed.
  destruct (Z.leb_spec (2 ^ 60) (sets * ways)) as [?|_]; [lia|]. cbn.
  assert (Hprod : (Z.to_nat sets * Z.to_nat ways)%nat = Z.to_nat (sets * ways)).
  { rewrite Z2Nat.inj_mul by lia. reflexivity. }
  destruct (init_lru_rows_spec ways (Z.to_nat ways) (Z.to_nat sets) 0
              (replicate (Z.to_nat (sets * ways)) 0))
    as (l0 & Hres & Hlen & Hin & _).
  { lia. }
  { rewrite length_replicate. lia. }
  { lia. }
  change (Z.of_nat 0) with 0 in Hres. rewrite Hres. cbn.
  rewrite count_idx_shift_log2.
  exists l0. split; [reflexivity|].
  split; [rewrite Hlen, length_replicate; reflexivity|].
  intros i j Hi Hj.
  replace (Z.to_nat (i * ways + j))
    with (Z.to_nat i * Z.to_nat ways + Z.to_nat j)%nat by nia.
  rewrite Hin by lia. f_equal. lia.
Qed.

Lemma init_accepted_wf (sets ways linesz : Z) (name : string) (log : bool)
    (c : cache_sim_t) :
  accepted_geometry sets ways linesz ->
  init sets ways linesz name log = Ok c ->
  wf c.
Proof.
  intros Hg Hinit.
  destruct (init_accepted sets ways linesz name log Hg)
    as (l0 & Hres & Hlen & Hlook).
  rewrite Hres in Hinit. injection Hinit as <-.
  destruct Hg as (Hs & Hs64 & Hw & Hl & Hl8 & Hsz).
  pose proof (pow2_log2_pos sets Hs) as Hs1.
  constructor; cbn; try assumption; try lia.
  - apply pow2_log2_range. exact Hl8.
  - apply length_replicate.
  - intros idx Hi. unfold lru_set; cbn.
    assert (0 <= idx * ways) by nia.
    assert (idx * ways + ways <= sets * ways) by nia.
    rewrite <- (Z2Nat.id ways Hw) at 3.
    apply descending_perm.
    + apply length_segment. lia.
    + intros j Hj. rewrite lookup_segment by exact Hj.
      replace (Z.to_nat (idx * ways) + j)%nat
        with (Z.to_nat (idx * ways + Z.of_nat j)) by lia.
      rewrite Hlook by lia. f_equal. lia.
Qed.

(** What a successful run of the initialisation loops tells about the
    positions it wrote. *)
Lemma init_lru_row_Ok_bound (n : nat) (i j ways : Z) (l l' : list Z) :
  init_lru_row n i j ways l = Ok l' ->
  length l' = length l /\
  forall q : nat, (q < n)%nat ->
    (Z.to_nat (add64 (mul64 i ways) (j + Z.of_nat q)) < length l)%nat.
Proof.
  revert j l. induction n as [|n IH]; intros j l Hres.
  - injection Hres as <-. split; [reflexivity|intros q Hq; lia].
  - cbn [init_lru_row] in Hres.
    apply bind_Ok_inv in Hres as (l1 & Hst & Hres).
    apply store_Ok_inv in Hst as [Hlt ->].
    apply IH in Hres as [Hlen Hq]. rewrite length_insert in Hlen, Hq.
    split; [exact Hlen|]. intros [|q] Hlt'.
    + rewrite Z.add_0_r. exact Hlt.
    + replace (j + Z.of_nat (S q)) with (j + 1 + Z.of_nat q) by lia.
      apply Hq. lia.
Qed.

Lemma init_lru_rows_Ok_bound (n : nat) (i ways : Z) (l l' : list Z) :
  init_lru_rows n i ways l = Ok l' ->
  length l' = length l /\
  forall r q : nat, (r < n)%nat -> (q < Z.to_nat ways)%nat ->
    (Z.to_nat (add64 (mul64 (i + Z.of_nat r) ways) (Z.of_nat q))
     < length l)%nat.
Proof.
  revert i l. induction n as [|n IH]; intros i l Hres.
  - injection Hres as <-. split; [reflexivity|intros r q Hr; lia].
  - cbn [init_lru_rows] in Hres.
    apply bind_Ok_inv in Hres as (l1 & Hrow & Hres).
    apply init_lru_row_Ok_bound in Hrow as [Hlen1 Hq1].
    apply IH in Hres as [Hlen Hq]. rewrite Hlen1 in Hlen, Hq.
    split; [exact Hlen|]. intros [|r] q Hr Hqw.
    + rewrite Z.add_0_r. apply (Hq1 q Hqw).
    + replace (i + Z.of_nat (S r)) with (i + 1 + Z.of_nat r) by lia.
      apply Hq; lia.
Qed.

(** [init] succeeds on accepted geometries only. *)
Lemma init_Ok_accepted (sets ways linesz : Z) (name : string) (log : bool)
    (c : cache_sim_t) :
  is_u64 sets -> is_u64 ways -> is_u64 linesz ->
  init sets ways linesz name log = Ok c ->
  accepted_geometry sets ways linesz.
Proof.
  intros Hs Hw Hl Hinit. unfold init in Hinit.
  destruct (Z.eqb_spec sets 0) as [?|Hs0]; [discriminate|].
  destruct (Z.eqb_spec (Z.land sets (sub64 sets 1)) 0) as [Hsp|?];
    [|discriminate].
  destruct (Z.ltb_spec linesz 8) as [?|Hl8]; [discriminate|].
  destruct (Z.eqb_spec (Z.land linesz (sub64 linesz 1)) 0) as [Hlp|?];
    [|discriminate].
  cbn [negb orb] in Hinit.
  unfold is_u64 in Hs, Hw, Hl.
  unfold sub64 in Hsp, Hlp.
  rewrite wrap_small in Hsp, Hlp by (unfold is_u64; lia).
  apply land_pred_zero in Hsp; [|lia]. apply land_pred_zero in Hlp; [|lia].
  apply bind_Ok_inv in Hinit as (t0 & Ht0 & Hinit).
  apply bind_Ok_inv in Hinit as (l0 & Hl0 & Hinit).
  apply bind_Ok_inv in Hinit as (l1 & Hrows & _).
  unfold new_zeroed in Hl0.
  destruct (Z.leb_spec (2 ^ 60) (mul64 sets ways)) as [?|Hn]; [discriminate|].
  injection Hl0 as <-.
  apply init_lru_rows_Ok_bound in Hrows as [_ Hbound].
  rewrite length_replicate in Hbound.
  repeat split; try lia; try assumption.
  (* the product does not wrap: otherwise the loops write past the end *)
  destruct (Z.eq_dec ways 0) as [->|Hw0]; [lia|].
  destruct (Z.lt_ge_cases (sets * ways) (2 ^ 64)) as [Hlt|Hge].
  { unfold mul64 in Hn. rewrite wrap_small in Hn by (unfold is_u64; nia).
    exact Hn. }
  exfalso. set (n := mul64 sets ways) in *.
  assert (Hn0 : 0 <= n) by apply wrap_is_u64.
  pose proof (Z.div_mod n ways Hw0) as Hdm.
  pose proof (Z.mod_pos_bound n ways ltac:(lia)) as Hmod.
  assert (Hdiv : 0 <= n / ways < sets).
  { split; [apply Z.div_pos; lia|].
    apply Z.div_lt_upper_bound; lia. }
  specialize (Hbound (Z.to_nat (n / ways)) (Z.to_nat (n mod ways))
                ltac:(lia) ltac:(lia)).
  rewrite !Z2Nat.id in Hbound by lia.
  replace (add64 (mul64 (0 + n / ways) ways) (n mod ways)) with n in Hbound;
    [lia|].
  unfold add64, mul64. rewrite Z.add_0_l.
  rewrite (wrap_small (n / ways * ways)) by (unfold is_u64; nia).
  rewrite wrap_small by (unfold is_u64; nia). nia.
Qed.

Lemma init_Ok_wf (sets ways linesz : Z) (name : string) (log : bool)
    (c : cache_sim_t) :
  is_u64 sets -> is_u64 ways -> is_u64 linesz ->
  init sets ways linesz name log = Ok c ->
  wf c.
Proof.
  intros Hs Hw Hl Hinit.
  eapply init_accepted_wf; [|exact Hinit].
  eapply init_Ok_accepted; eassumption.
Qed.

(** ** The two classes *)

Lemma v_check_tag_eq (VALID DIRTY : Z) (k : cache_kind) :
  v_check_tag VALID DIRTY k = check_tag VALID DIRTY.
Proof. destruct k; reflexivity. Qed.

Lemma to_front_last (W : nat) (w : Z) (seg : list Z) :
  length seg = W ->
  to_front (W - 1) w seg = w :: take (W - 1) seg ++ drop W seg.
Proof.
  intros Hlen. unfold to_front. destruct W as [|W].
  - destruct seg; [reflexivity|discriminate].
  - replace (S W - 1)%nat with W by lia. reflexivity.
Qed.

Lemma victimize_wf (VALID : Z) (c : cache_sim_t) (addr : Z) :
  wf c -> 1 <= ways c ->
  exists victim c', victimize VALID c addr = Ok (victim, c') /\ wf c'.
Proof.
  intros Hc Hw.
  destruct (victimize_spec VALID c addr Hc Hw)
    as (w & victim & Hlk & Hrange & Hv & Hres).
  rewrite Hres. eexists _, _. split; [reflexivity|].
  pose proof (set_of_range c addr Hc) as Hi.
  destruct (set_base c (set_of c addr) Hc Hi) as (_ & _ & _ & Hl & _).
  apply wf_set_tags; [|cbn; apply length_insert].
  apply (wf_set_lru c (set_of c addr)); [exact Hc|exact Hi|].
  set (b := Z.to_nat (set_of c addr * ways c)) in *.
  set (W := Z.to_nat (ways c)) in *.
  assert (Hseg : length (lru_set c (set_of c addr)) = W)
    by (apply length_segment; exact Hl).
  replace (w :: take (W - 1) (lru_set c (set_of c addr)))
    with (to_front (W - 1) w (segment b W (lru c))).
  - apply reordered_to_front; [lia|exact Hl|].
    unfold lru_set in Hlk. fold b W in Hlk.
    rewrite lookup_segment in Hlk by lia. exact Hlk.
  - change (segment b W (lru c)) with (lru_set c (set_of c addr)).
    rewrite (to_front_last W) by exact Hseg.
    rewrite drop_ge by (rewrite Hseg; lia). rewrite app_nil_r. reflexivity.
Qed.

(** Without ways the victim read is outside the (empty) LRU table. *)
Lemma victimize_no_ways (VALID : Z) (c : cache_sim_t) (addr : Z) :
  wf c -> ways c = 0 ->
  victimize VALID c addr = Fault OutOfBounds /\
  fa_victimize VALID c addr = Fault OutOfBounds.
Proof.
  intros Hc Hw.
  assert (Hnil : lru c = []).
  { apply nil_length_inv. rewrite (wf_lru c Hc), Hw, Z.mul_0_r. reflexivity. }
  unfold victimize, fa_victimize. rewrite Hw, Hnil.
  unfold mul64. rewrite Z.mul_0_r. split; reflexivity.
Qed.

(** The shifting loop of the fully associative class is the one of the
    base class at set 0. *)
Lemma fa_shift_down_eq (idx ways : Z) (j : nat) (l : list Z) :
  mul64 idx ways = 0 -> Z.of_nat j < 2 ^ 64 ->
  fa_shift_down j l = shift_down j idx ways l.
Proof.
  intros Hb. revert l. induction j as [|j IH]; intros l Hj; [reflexivity|].
  cbn [fa_shift_down shift_down]. rewrite Hb.
  replace (add64 0 (Z.of_nat (S j))) with (Z.of_nat (S j))
    by (unfold add64; rewrite Z.add_0_l, wrap_small;
        [reflexivity|unfold is_u64; lia]).
  destruct (load l (sub64 (Z.of_nat (S j)) 1)) as [v|]; [cbn|reflexivity].
  destruct (store l (Z.of_nat (S j)) v) as [l'|]; [cbn|reflexivity].
  apply IH. lia.
Qed.

Lemma set_of_one_set (c : cache_sim_t) (addr : Z) :
  sets c = 1 -> set_of c addr = 0.
Proof. intros H. unfold set_of. rewrite H. apply Z.land_0_r. Qed.

Lemma fa_victimize_eq (VALID : Z) (c : cache_sim_t) (addr : Z) :
  wf c -> sets c = 1 ->
  fa_victimize VALID c addr = victimize VALID c addr.
Proof.
  intros Hc Hs.
  destruct (Z.eq_dec (ways c) 0) as [Hw0|Hw0].
  { destruct (victimize_no_ways VALID c addr Hc Hw0) as [-> ->]. reflexivity. }
  pose proof (wf_ways c Hc) as Hw. pose proof (wf_size c Hc) as Hsz.
  rewrite Hs in Hsz.
  destruct (victimize_spec VALID c addr Hc ltac:(lia))
    as (w & victim & Hlk & Hrange & Hv & Hres).
  rewrite Hres. clear Hres.
  rewrite (set_of_one_set c addr Hs) in *. rewrite Z.mul_0_l in *.
  change (Z.to_nat 0) with 0%nat in *. cbn [Nat.add] in *.
  set (W := Z.to_nat (ways c)) in *.
  assert (Hlen : (W <= length (lru c))%nat).
  { rewrite (wf_lru c Hc), Hs. lia. }
  unfold lru_set in Hlk. rewrite Z.mul_0_l in Hlk.
  change (Z.to_nat 0) with 0%nat in Hlk. fold W in Hlk.
  rewrite lookup_segment in Hlk by lia. cbn [Nat.add] in Hlk.
  unfold fa_victimize.
  replace (sub64 (ways c) 1) with (Z.of_nat (W - 1))
    by (unfold sub64; rewrite wrap_small by (unfold is_u64; lia); lia).
  rewrite (load_at _ _ _ Hlk). cbn.
  rewrite (load_in _ _ _ Hv). cbn.
  rewrite store_in by (apply lookup_lt_is_Some; eauto). cbn.
  rewrite Nat2Z.id.
  rewrite (fa_shift_down_eq 0 (ways c)) by (reflexivity || lia).
  assert (Hb0 : mul64 0 (ways c) = Z.of_nat 0) by reflexivity.
  pose proof (move_front_spec 0 (ways c) 0 Hb0 W (W - 1) w (lru c)
                ltac:(lia) ltac:(lia) ltac:(lia)) as Hmove.
  change (mul64 0 (ways c)) with 0 in Hmove.
  apply bind_Ok_inv in Hmove as (l1 & Hshift & Hstore).
  rewrite Hshift. cbn. rewrite Hstore. cbn.
  do 4 f_equal. unfold lru_set. rewrite Z.mul_0_l.
  change (Z.to_nat 0) with 0%nat. fold W.
  rewrite (to_front_last W) by (apply length_segment; lia).
  rewrite drop_ge by (rewrite length_segment; lia).
  rewrite app_nil_r. reflexivity.
Qed.

Lemma v_victimize_eq (VALID : Z) (k : cache_kind) (c : cache_sim_t)
    (addr : Z) :
  wf c -> kind_ok k c ->
  v_victimize VALID k c addr = victimize VALID c addr.
Proof.
  intros Hc Hk. destruct k; [reflexivity|].
  apply fa_victimize_eq; [exact Hc|apply Hk; reflexivity].
Qed.

(** ** The flags *)

Lemma testbit_u64 (z n : Z) : is_u64 z -> Z.testbit z n = true -> 0 <= n < 64.
Proof.
  intros [Hlo Hhi] Hbit.
  destruct (Z.lt_ge_cases n 0) as [Hneg|Hnn].
  { rewrite Z.testbit_neg_r in Hbit by exact Hneg. discriminate. }
  split; [exact Hnn|].
  destruct (Z.lt_ge_cases n 64) as [?|Hge]; [assumption|exfalso].
  destruct (Z.eq_dec z 0) as [->|Hz].
  { rewrite Z.bits_0 in Hbit. discriminate. }
  rewrite Z.bits_above_log2 in Hbit; [discriminate|lia|].
  assert (Z.log2 z < 64) by (apply Z.log2_lt_pow2; lia). lia.
Qed.

(** The test of [access] on the victim word asks for both flags. *)
Lemma valid_and_dirty_test (VALID DIRTY victim : Z) :
  (Z.land victim (Z.lor VALID DIRTY) =? Z.lor VALID DIRTY)
  = valid_and_dirty VALID DIRTY victim.
Proof.
  unfold valid_and_dirty.
  destruct (Z.eqb_spec (Z.land victim VALID) VALID) as [HV|HV];
    [destruct (Z.eqb_spec (Z.land victim DIRTY) DIRTY) as [HD|HD]|]; cbn.
  - apply Z.eqb_eq. rewrite Z.land_lor_distr_r, HV, HD. reflexivity.
  - apply Z.eqb_neq. intros H. apply HD.
    apply Z.bits_inj'. intros n Hn.
    apply (f_equal (fun z => Z.testbit z n)) in H.
    rewrite Z.land_spec in *. rewrite Z.lor_spec in H.
    destruct (Z.testbit victim n), (Z.testbit VALID n), (Z.testbit DIRTY n);
      cbn in *; congruence.
  - apply Z.eqb_neq. intros H. apply HV.
    apply Z.bits_inj'. intros n Hn.
    apply (f_equal (fun z => Z.testbit z n)) in H.
    rewrite Z.land_spec in *. rewrite Z.lor_spec in H.
    destruct (Z.testbit victim n), (Z.testbit VALID n), (Z.testbit DIRTY n);
      cbn in *; congruence.
Qed.

Lemma land_lor_same (x v : Z) : Z.land (Z.lor x v) v = v.
Proof.
  apply Z.bits_inj'. intros n Hn. rewrite Z.land_spec, Z.lor_spec.
  destruct (Z.testbit x n), (Z.testbit v n); reflexivity.
Qed.

Lemma land_not64_diag (d : Z) : Z.land d (not64 d) = 0.
Proof.
  unfold not64, wrap. rewrite <- Z.land_ones by lia.
  rewrite Z.land_assoc, Z.land_lnot_diag. reflexivity.
Qed.

(** The dirty flag masked out of a word that was just marked dirty. *)
Lemma mask_marked (DIRTY t : Z) :
  Z.land (Z.lor t DIRTY) (not64 DIRTY) = Z.land t (not64 DIRTY).
Proof.
  rewrite Z.land_lor_distr_l, land_not64_diag. apply Z.lor_0_r.
Qed.

(** With well-placed flags the word [victimize] writes is found by
    [check_tag]: masking the dirty flag leaves it unchanged. *)
Lemma mask_fresh (VALID DIRTY addr s : Z) :
  flags_ok VALID DIRTY -> is_u64 addr -> 3 <= s ->
  Z.land (Z.lor (Z.shiftr addr s) VALID) (not64 DIRTY)
  = Z.lor (Z.shiftr addr s) VALID.
Proof.
  intros (HV & HD & Hdisj & Hhigh) Ha Hs.
  apply Z.bits_inj'. intros n Hn.
  rewrite Z.land_spec.
  destruct (Z.testbit (Z.lor (Z.shiftr addr s) VALID) n) eqn:Hx;
    [cbn|reflexivity].
  rewrite Z.lor_spec, Z.shiftr_spec in Hx by exact Hn.
  assert (Hd : Z.testbit DIRTY n = false /\ n < 64).
  { apply orb_true_iff in Hx as [Hx|Hx].
    - apply (testbit_u64 addr) in Hx; [|exact Ha].
      split; [|lia].
      assert (Hb : Z.testbit (Z.land DIRTY (Z.ones 61)) n = false)
        by (rewrite Hhigh; apply Z.bits_0).
      rewrite Z.land_spec, Z.ones_spec_low in Hb by lia.
      rewrite andb_true_r in Hb. exact Hb.
    - assert (Hb : Z.testbit (Z.land VALID DIRTY) n = false)
        by (rewrite Hdisj; apply Z.bits_0).
      rewrite Z.land_spec, Hx in Hb. split; [exact Hb|].
      apply (testbit_u64 VALID) in Hx; [lia|unfold is_u64; lia]. }
  destruct Hd as [Hd Hn64].
  unfold not64, wrap. rewrite Z.mod_pow2_bits_low by lia.
  rewrite Z.lnot_spec by exact Hn. rewrite Hd. reflexivity.
Qed.

(** ** [access] *)

Lemma set_tags_same (c : cache_sim_t) : set_tags c (tags c) = c.
Proof. destruct c; reflexivity. Qed.

Lemma wf_count_access (c : cache_sim_t) (bytes : Z) (is_store : bool) :
  wf c -> wf (count_access c bytes is_store).
Proof.
  intros [H1 H2 H3 H4 H5 H6 H7 H8].
  destruct is_store; constructor; assumption.
Qed.

(** Closes [same_tables] goals between an object and the same object with
    other counters. *)
Ltac by_projections := repeat split; reflexivity.

Section Access.
Context (VALID DIRTY : Z).

Lemma check_tag_transfer (c1 c2 c2' : cache_sim_t) (addr : Z)
    (hit : option Z) :
  same_tables c1 c2 ->
  check_tag VALID DIRTY c2 addr = Ok (hit, c2') ->
  check_tag VALID DIRTY c1 addr = Ok (hit, set_lru c1 (lru c2')).
Proof.
  intros (Hs & Hw & Hi & Ht & Hl). unfold check_tag.
  rewrite Hs, Hw, Hi, Ht, Hl.
  destruct (scan_ways _ _ _ _ _ _ _ _) as [[hit' l]|]; cbn; [|discriminate].
  intros [= -> <-]. reflexivity.
Qed.

Lemma victimize_transfer (c1 c2 c2' : cache_sim_t) (addr victim : Z) :
  same_tables c1 c2 ->
  victimize VALID c2 addr = Ok (victim, c2') ->
  victimize VALID c1 addr
  = Ok (victim, set_tags (set_lru c1 (lru c2')) (tags c2')).
Proof.
  intros (Hs & Hw & Hi & Ht & Hl). unfold victimize.
  rewrite Hs, Hw, Hi, Ht, Hl.
  destruct (load (lru c2) _) as [lru_way|]; cbn; [|discriminate].
  destruct (shift_down _ _ _ _) as [l1|]; cbn; [|discriminate].
  destruct (store l1 _ _) as [l2|]; cbn; [|discriminate].
  destruct (load (tags c2) _) as [v|]; cbn; [|discriminate].
  destruct (store (tags c2) _ _) as [t'|]; cbn; [|discriminate].
  intros [= -> <-]. reflexivity.
Qed.


Lemma misses_resident (k : cache_kind) (c : cache_sim_t) (addr : Z) :
  wf c -> misses VALID DIRTY k c addr ->
  forall q : nat, (q < Z.to_nat (ways c))%nat ->
                  ~ resident_at VALID DIRTY c addr q.
Proof.
  intros Hc (c' & Hmiss). rewrite v_check_tag_eq in Hmiss.
  destruct (check_tag_spec VALID DIRTY c addr Hc)
    as [(q & l' & _ & _ & _ & _ & _ & Hres)|[Hno _]].
  - rewrite Hres in Hmiss. discriminate.
  - exact Hno.
Qed.

Lemma access_hit_spec (k : cache_kind) (c : cache_sim_t) (addr bytes : Z)
    (is_store : bool) :
  wf c -> hits VALID DIRTY k c addr ->
  let b := Z.to_nat (set_of c addr * ways c) in
  let W := Z.to_nat (ways c) in
  exists (q : nat) (t : Z) (l' : list Z),
    (q < W)%nat /\ tags c !! (b + q)%nat = Some t /\
    tag_of VALID c addr = Z.land t (not64 DIRTY) /\
    reordered b W (lru c) l' /\
    v_check_tag VALID DIRTY k c addr
    = Ok (Some (Z.of_nat (b + q)), set_lru c l') /\
    access VALID DIRTY k c addr bytes is_store
    = Ok (set_tags (set_lru (count_access c bytes is_store) l')
            (if is_store then <[(b + q)%nat := Z.lor t DIRTY]> (tags c)
             else tags c), []).
Proof.
  intros Hc Hhit b W. destruct Hhit as (slot & c' & Hhit).
  rewrite v_check_tag_eq in *.
  destruct (check_tag_spec VALID DIRTY c addr Hc)
    as [(q & l' & Hq & (t & Ht & Hm) & _ & _ & Hre & Hres)|[_ Hres]];
    [|rewrite Hres in Hhit; discriminate].
  fold b W in Hq, Ht, Hre, Hres.
  exists q, t, l'. split; [exact Hq|]. split; [exact Ht|]. split; [exact Hm|].
  split; [exact Hre|]. split; [exact Hres|].
  unfold access. rewrite !v_check_tag_eq.
  destruct is_store; cbv zeta.
  - erewrite (check_tag_transfer _ c); [|by_projections|exact Hres].
    cbn. unfold mark_dirty. cbn.
    rewrite (load_at _ _ _ Ht). cbn.
    rewrite store_at by (apply lookup_lt_is_Some; eauto). reflexivity.
  - erewrite (check_tag_transfer _ c); [|by_projections|exact Hres].
    cbn. reflexivity.
Qed.

Lemma fa_victimize_transfer (c1 c2 c2' : cache_sim_t) (addr victim : Z) :
  same_tables c1 c2 ->
  fa_victimize VALID c2 addr = Ok (victim, c2') ->
  fa_victimize VALID c1 addr
  = Ok (victim, set_tags (set_lru c1 (lru c2')) (tags c2')).
Proof.
  intros (Hs & Hw & Hi & Ht & Hl). unfold fa_victimize.
  rewrite Hw, Hi, Ht, Hl.
  destruct (load (lru c2) _) as [lru_way|]; cbn; [|discriminate].
  destruct (load (tags c2) _) as [v|]; cbn; [|discriminate].
  destruct (store (tags c2) _ _) as [t'|]; cbn; [|discriminate].
  destruct (fa_shift_down _ _) as [l1|]; cbn; [|discriminate].
  destruct (store l1 _ _) as [l2|]; cbn; [|discriminate].
  intros [= -> <-]. reflexivity.
Qed.

Lemma v_victimize_transfer (k : cache_kind) (c1 c2 c2' : cache_sim_t)
    (addr victim : Z) :
  wf c2 -> kind_ok k c2 -> same_tables c1 c2 ->
  victimize VALID c2 addr = Ok (victim, c2') ->
  v_victimize VALID k c1 addr
  = Ok (victim, set_tags (set_lru c1 (lru c2')) (tags c2')).
Proof.
  intros Hc Hk Hsame Hres. destruct k; cbn [v_victimize].
  - eapply victimize_transfer; eassumption.
  - eapply fa_victimize_transfer; [eassumption|].
    rewrite fa_victimize_eq; [exact Hres|exact Hc|apply Hk; reflexivity].
Qed.

(** A way that is already most recently used stays where it is. *)
Lemma promote_front (idx ways w : Z) (b W : nat) (l : list Z) :
  mul64 idx ways = Z.of_nat b -> (0 < W)%nat ->
  l !! b = Some w ->
  promote W 0 idx ways w l = Ok l.
Proof.
  intros Hb HW Hl. destruct W as [|W]; [lia|]. cbn [promote].
  replace (add64 (mul64 idx ways) 0) with (Z.of_nat b)
    by (rewrite Hb; unfold add64; rewrite Z.add_0_r, wrap_small;
        [reflexivity|apply wrap_is_u64 || (rewrite <- Hb; apply wrap_is_u64)]).
  rewrite (load_at _ _ _ Hl). cbn. rewrite Z.eqb_refl.
  change (Z.to_nat 0) with 0%nat. cbn [shift_down]. cbn.
  rewrite Hb, store_at by (apply lookup_lt_is_Some; eauto).
  rewrite list_insert_id by exact Hl. reflexivity.
Qed.

(** After a miss has been filled, the lookup finds the slot of the
    evicted way and leaves the LRU order as it is, provided the new word
    is equal to itself with the dirty flag masked. *)
Lemma relookup_spec (c : cache_sim_t) (addr w : Z) :
  wf c -> 1 <= ways c ->
  (forall q : nat, (q < Z.to_nat (ways c))%nat ->
                   ~ resident_at VALID DIRTY c addr q) ->
  tag_of VALID c addr = Z.land (tag_of VALID c addr) (not64 DIRTY) ->
  lru_set c (set_of c addr) !! (Z.to_nat (ways c) - 1)%nat = Some w ->
  0 <= w < ways c ->
  wf (filled VALID c addr w) ->
  check_tag VALID DIRTY (filled VALID c addr w) addr
  = Ok (Some (Z.of_nat (Z.to_nat (set_of c addr * ways c) + Z.to_nat w)),
        filled VALID c addr w).
Proof.
  intros Hc Hw Hno Hself Hlk Hrange Hc3.
  pose proof (set_of_range c addr Hc) as Hi.
  destruct (set_base c (set_of c addr) Hc Hi) as (Hb & HW & Ht & Hl & Hr).
  set (b := Z.to_nat (set_of c addr * ways c)) in *.
  set (W := Z.to_nat (ways c)) in *.
  set (c3 := filled VALID c addr w) in *.
  assert (Hat : tags c3 !! (b + Z.to_nat w)%nat = Some (tag_of VALID c addr)).
  { unfold c3, filled. cbn. apply list_lookup_insert_eq. lia. }
  assert (Hres3 : forall q : nat,
             resident_at VALID DIRTY c3 addr q ->
             q <> Z.to_nat w -> resident_at VALID DIRTY c addr q).
  { intros q Hq Hne. unfold resident_at in Hq.
    change (set_of c3 addr) with (set_of c addr) in Hq.
    change (ways c3) with (ways c) in Hq.
    change (tag_of VALID c3 addr) with (tag_of VALID c addr) in Hq.
    destruct Hq as (t & Hq & Hm). exists t. split; [|exact Hm].
    fold b in Hq |- *. unfold c3, filled in Hq.
    cbn [tags set_tags set_lru] in Hq. fold b in Hq.
    rewrite list_lookup_insert_ne in Hq by lia. exact Hq. }
  assert (Hin : resident_at VALID DIRTY c3 addr (Z.to_nat w)).
  { exists (tag_of VALID c addr). split; [exact Hat|exact Hself]. }
  assert (Hfront : lru c3 !! b = Some w).
  { unfold c3, filled. cbn. fold b W. unfold splice.
    rewrite lookup_app_r by (rewrite length_take; lia).
    rewrite length_take. replace (b - b `min` length (lru c))%nat with 0%nat
      by lia. reflexivity. }
  destruct (check_tag_spec VALID DIRTY c3 addr Hc3)
    as [(q & l' & Hq & Hresq & Hfirst & Hp & _ & Hres)|[Hno3 _]].
  - change (set_of c3 addr) with (set_of c addr) in *.
    change (ways c3) with (ways c) in *. fold b W in Hq, Hp, Hres.
    assert (q = Z.to_nat w) as ->.
    { destruct (Nat.lt_trichotomy q (Z.to_nat w)) as [Hlt|[?|Hgt]];
        [exfalso|assumption|exfalso].
      - apply (Hno q); [lia|]. apply Hres3; [exact Hresq|lia].
      - apply (Hfirst (Z.to_nat w)); [lia|exact Hin]. }
    rewrite Z2Nat.id in Hp by lia.
    rewrite (promote_front _ _ w b W) in Hp by (assumption || lia).
    injection Hp as <-. rewrite Hres, set_lru_same. reflexivity.
  - exfalso. apply (Hno3 (Z.to_nat w)); [|exact Hin].
    change (ways c3) with (ways c). lia.
Qed.

Lemma access_miss_spec (k : cache_kind) (c : cache_sim_t) (addr bytes : Z)
    (is_store : bool) :
  wf c -> kind_ok k c -> 1 <= ways c -> is_u64 addr ->
  misses VALID DIRTY k c addr ->
  (is_store = true ->
   tag_of VALID c addr = Z.land (tag_of VALID c addr) (not64 DIRTY)) ->
  exists w victim,
    lru_set c (set_of c addr) !! (Z.to_nat (ways c) - 1)%nat = Some w /\
    0 <= w < ways c /\
    tags c !! (Z.to_nat (set_of c addr * ways c) + Z.to_nat w)%nat
    = Some victim /\
    v_victimize VALID k c addr = Ok (victim, filled VALID c addr w) /\
    access VALID DIRTY k c addr bytes is_store
    = Ok (set_tags
            (set_lru
               (count_writeback VALID DIRTY
                  (count_miss (count_access c bytes is_store) is_store)
                  victim)
               (lru (filled VALID c addr w)))
            (if is_store
             then <[(Z.to_nat (set_of c addr * ways c) + Z.to_nat w)%nat
                    := Z.lor (tag_of VALID c addr) DIRTY]> (tags c)
             else tags (filled VALID c addr w)),
          miss_events VALID DIRTY c victim addr is_store).
Proof.
  intros Hc Hk Hw Ha Hmiss Hself.
  pose proof (misses_resident k c addr Hc Hmiss) as Hno.
  assert (Hnone : check_tag VALID DIRTY c addr = Ok (None, c)).
  { destruct (check_tag_spec VALID DIRTY c addr Hc)
      as [(q & l' & Hq & Hres & _)|[_ Hres]]; [|exact Hres].
    exfalso. exact (Hno q Hq Hres). }
  destruct (victimize_spec VALID c addr Hc Hw)
    as (w & victim & Hlk & Hrange & Hv & Hvict).
  change (victimize VALID c addr = Ok (victim, filled VALID c addr w))
    in Hvict.
  exists w, victim. split; [exact Hlk|]. split; [exact Hrange|].
  split; [exact Hv|].
  split; [rewrite v_victimize_eq by assumption; exact Hvict|].
  assert (Hc3 : wf (filled VALID c addr w)).
  { destruct (victimize_wf VALID c addr Hc Hw) as (v' & c' & Hres' & Hwf').
    rewrite Hvict in Hres'. injection Hres' as _ <-. exact Hwf'. }
  assert (Halign : Z.land addr (not64 (sub64 (linesz c) 1))
                   = addr - addr mod linesz c).
  { rewrite (wf_linesz c Hc). apply align_down; [exact Ha|].
    pose proof (wf_shift c Hc). lia. }
  pose proof (set_of_range c addr Hc) as Hi.
  destruct (set_base c (set_of c addr) Hc Hi) as (_ & _ & Ht & _ & _).
  unfold access. rewrite !v_check_tag_eq.
  destruct is_store; cbv zeta.
  - erewrite (check_tag_transfer _ c); [|by_projections|exact Hnone].
    cbn [mbind result_bind].
    erewrite (v_victimize_transfer k _ c);
      [|exact Hc|exact Hk|by_projections|exact Hvict].
    cbn [mbind result_bind]. rewrite valid_and_dirty_test.
    specialize (Hself eq_refl).
    pose proof (relookup_spec c addr w Hc Hw Hno Hself Hlk Hrange Hc3) as Hre.
    assert (Hat : tags (filled VALID c addr w)
                  !! (Z.to_nat (set_of c addr * ways c) + Z.to_nat w)%nat
                  = Some (tag_of VALID c addr)).
    { unfold filled. cbn. apply list_lookup_insert_eq. lia. }
    unfold count_writeback.
    destruct (valid_and_dirty VALID DIRTY victim) eqn:Hvd.
    + erewrite (check_tag_transfer _ (filled VALID c addr w));
        [|by_projections|exact Hre].
      cbn [mbind result_bind]. unfold mark_dirty.
      cbn [tags set_tags set_lru set_writebacks].
      rewrite (load_at _ _ _ Hat). cbn [mbind result_bind].
      rewrite store_at by (apply lookup_lt_is_Some; eauto).
      cbn [mbind result_bind].
      f_equal. f_equal.
      * unfold filled. cbn [tags set_tags set_lru].
        rewrite list_insert_insert_eq. reflexivity.
      * unfold miss_events. cbn. rewrite Hvd, Halign.
        destruct (log c), (miss_handler c); reflexivity.
    + erewrite (check_tag_transfer _ (filled VALID c addr w));
        [|by_projections|exact Hre].
      cbn [mbind result_bind]. unfold mark_dirty.
      cbn [tags set_tags set_lru set_writebacks].
      rewrite (load_at _ _ _ Hat). cbn [mbind result_bind].
      rewrite store_at by (apply lookup_lt_is_Some; eauto).
      cbn [mbind result_bind].
      f_equal. f_equal.
      * unfold filled. cbn [tags set_tags set_lru].
        rewrite list_insert_insert_eq. reflexivity.
      * unfold miss_events. cbn. rewrite Hvd, Halign.
        destruct (log c), (miss_handler c); reflexivity.
  - erewrite (check_tag_transfer _ c); [|by_projections|exact Hnone].
    cbn [mbind result_bind].
    erewrite (v_victimize_transfer k _ c);
      [|exact Hc|exact Hk|by_projections|exact Hvict].
    cbn [mbind result_bind]. rewrite valid_and_dirty_test.
    unfold count_writeback, miss_events.
    destruct (valid_and_dirty VALID DIRTY victim) eqn:Hvd;
      cbn; rewrite Halign;
      destruct (log c), (miss_handler c); reflexivity.
Qed.

(** *** Every call keeps the invariant *)

Lemma inv_same_tables (k : cache_kind) (c1 c2 : cache_sim_t) :
  same_tables c1 c2 -> linesz c1 = linesz c2 -> inv k c2 -> inv k c1.
Proof.
  intros (Hs & Hw & Hi & Ht & Hl) Hz [[H1 H2 H3 H4 H5 H6 H7 H8] Hk]. split.
  - constructor; rewrite ?Hs, ?Hw, ?Hi, ?Ht, ?Hl, ?Hz; try assumption.
    intros idx Hidx. unfold lru_set. rewrite Hw, Hl. apply (H8 idx Hidx).
  - intros Hfa. rewrite Hs. exact (Hk Hfa).
Qed.

Lemma check_tag_preserves (k : cache_kind) (c c' : cache_sim_t) (addr : Z)
    (hit : option Z) :
  inv k c -> v_check_tag VALID DIRTY k c addr = Ok (hit, c') ->
  inv k c' /\
  forall slot, hit = Some slot -> is_Some (tags c' !! Z.to_nat slot).
Proof.
  intros [Hc Hk] Hres. rewrite v_check_tag_eq in Hres.
  destruct (check_tag_spec VALID DIRTY c addr Hc)
    as [(q & l' & Hq & (t & Ht & _) & _ & _ & Hre & Heq)|[_ Heq]];
    rewrite Heq in Hres; injection Hres as <- <-.
  - split.
    + split; [|exact Hk].
      eapply wf_set_lru; [exact Hc|apply set_of_range; exact Hc|exact Hre].
    + intros slot [= <-]. rewrite Nat2Z.id. cbn. eauto.
  - split; [split; assumption|]. intros slot [=].
Qed.

Lemma victimize_preserves (k : cache_kind) (c c' : cache_sim_t)
    (addr victim : Z) :
  inv k c -> v_victimize VALID k c addr = Ok (victim, c') -> inv k c'.
Proof.
  intros [Hc Hk] Hres. rewrite v_victimize_eq in Hres by assumption.
  pose proof (wf_ways c Hc) as Hw0.
  destruct (Z.eq_dec (ways c) 0) as [Hz|Hnz].
  { destruct (victimize_no_ways VALID c addr Hc Hz) as [Hf _].
    rewrite Hf in Hres. discriminate. }
  destruct (victimize_wf VALID c addr Hc ltac:(lia))
    as (v' & c3 & Heq & Hc3).
  destruct (victimize_spec VALID c addr Hc ltac:(lia))
    as (w & v'' & _ & _ & _ & Hexp).
  rewrite Heq in Hres. injection Hres as _ <-.
  split; [exact Hc3|].
  rewrite Hexp in Heq. injection Heq as _ <-. exact Hk.
Qed.

Lemma mark_dirty_preserves (k : cache_kind) (c c' : cache_sim_t) (slot : Z) :
  inv k c -> mark_dirty DIRTY c slot = Ok c' -> inv k c'.
Proof.
  intros [Hc Hk] Hres. unfold mark_dirty in Hres.
  apply bind_Ok_inv in Hres as (t & _ & Hres).
  apply bind_Ok_inv in Hres as (t' & Hst & Hres).
  apply store_Ok_inv in Hst as [_ ->]. injection Hres as <-.
  split; [|exact Hk]. apply wf_set_tags; [exact Hc|apply length_insert].
Qed.

Lemma access_preserves (k : cache_kind) (c c' : cache_sim_t)
    (addr bytes : Z) (is_store : bool) (evs : list event) :
  inv k c ->
  access VALID DIRTY k c addr bytes is_store = Ok (c', evs) ->
  inv k c'.
Proof.
  intros Hinv Hres. unfold access in Hres.
  destruct is_store; cbv zeta in Hres.
  - apply bind_Ok_inv in Hres as ([hit c1] & H1 & Hres).
    apply check_tag_preserves in H1 as [Hinv1 _];
      [|apply (inv_same_tables k _ c); [by_projections|reflexivity|exact Hinv]].
    destruct hit as [slot|].
    + apply bind_Ok_inv in Hres as (c2 & H2 & Hres). injection Hres as <- _.
      eapply mark_dirty_preserves; eassumption.
    + apply bind_Ok_inv in Hres as ([victim c2] & H2 & Hres).
      apply victimize_preserves in H2;
        [|apply (inv_same_tables k _ c1); [by_projections|reflexivity|exact Hinv1]].
      apply bind_Ok_inv in Hres as ([slot c3] & H3 & Hres).
      apply check_tag_preserves in H3 as [Hinv3 _].
      2:{ destruct (Z.land victim (Z.lor VALID DIRTY) =? Z.lor VALID DIRTY);
            [|exact H2].
          apply (inv_same_tables k _ c2); [by_projections|reflexivity|exact H2]. }
      destruct slot as [p|]; [|discriminate].
      apply bind_Ok_inv in Hres as (c4 & H4 & Hres). injection Hres as <- _.
      eapply mark_dirty_preserves; eassumption.
  - apply bind_Ok_inv in Hres as ([hit c1] & H1 & Hres).
    apply check_tag_preserves in H1 as [Hinv1 _];
      [|apply (inv_same_tables k _ c); [by_projections|reflexivity|exact Hinv]].
    destruct hit as [slot|].
    + injection Hres as <- _. exact Hinv1.
    + apply bind_Ok_inv in Hres as ([victim c2] & H2 & Hres).
      apply victimize_preserves in H2;
        [|apply (inv_same_tables k _ c1); [by_projections|reflexivity|exact Hinv1]].
      injection Hres as <- _.
      destruct (Z.land victim (Z.lor VALID DIRTY) =? Z.lor VALID DIRTY);
        [|exact H2].
      apply (inv_same_tables k _ c2); [by_projections|reflexivity|exact H2].
Qed.

Lemma do_call_preserves (k : cache_kind) (c c' : cache_sim_t) (o : call)
    (evs : list event) :
  inv k c -> do_call VALID DIRTY k c o = Ok (c', evs) -> inv k c'.
Proof.
  intros Hinv Hres. destruct o as [addr bytes is_store|addr|addr|mh|b];
    cbn [do_call] in Hres.
  - eapply access_preserves; eassumption.
  - apply bind_Ok_inv in Hres as ([hit c1] & H1 & Hres).
    injection Hres as <- _.
    eapply check_tag_preserves in H1 as [H1 _]; eassumption.
  - apply bind_Ok_inv in Hres as ([victim c1] & H1 & Hres).
    injection Hres as <- _.
    eapply victimize_preserves; eassumption.
  - injection Hres as <- _.
    apply (inv_same_tables k _ c); [by_projections|reflexivity|exact Hinv].
  - injection Hres as <- _.
    apply (inv_same_tables k _ c); [by_projections|reflexivity|exact Hinv].
Qed.

Lemma after_preserves (k : cache_kind) (calls : list call)
    (c c' : cache_sim_t) :
  inv k c -> after VALID DIRTY k c calls = Ok c' -> inv k c'.
Proof.
  revert c. induction calls as [|o calls IH]; intros c Hinv Hres.
  - injection Hres as <-. exact Hinv.
  - cbn [after] in Hres. apply bind_Ok_inv in Hres as ([c1 evs] & H1 & Hres).
    apply (IH c1); [|exact Hres].
    eapply do_call_preserves; eassumption.
Qed.

Lemma reachable_inv (k : cache_kind) (c : cache_sim_t) :
  reachable VALID DIRTY k c -> inv k c.
Proof.
  intros (s & w & l & nm & c0 & calls & Hs & Hw & Hl & Hk & Hnew & Hrun).
  apply (after_preserves k calls c0); [|exact Hrun].
  pose proof (init_Ok_accepted s w l nm false c0 Hs Hw Hl Hnew) as Hg.
  split; [exact (init_accepted_wf s w l nm false c0 Hg Hnew)|].
  destruct (init_accepted s w l nm false Hg) as (l0 & Heq & _).
  unfold new_cache_sim_t in Hnew. rewrite Heq in Hnew. injection Hnew as <-.
  exact Hk.
Qed.

End Access.

(** * The properties of the design document *)

Lemma segment_insert_same (b W i : nat) (x : Z) (l : list Z) :
  (i < W)%nat ->
  segment b W (<[(b + i)%nat := x]> l) = <[i := x]> (segment b W l).
Proof.
  intros Hi. unfold segment.
  rewrite drop_insert_ge by lia. rewrite take_insert_lt by lia.
  do 2 f_equal. lia.
Qed.

Lemma segment_insert_other (b b' W i : nat) (x : Z) (l : list Z) :
  (i < W)%nat -> (b' + W <= b)%nat \/ (b + W <= b')%nat ->
  segment b' W (<[(b + i)%nat := x]> l) = segment b' W l.
Proof.
  intros Hi Hd. apply list_eq. intros j.
  destruct (decide (j < W)%nat) as [Hj|Hj].
  - rewrite !lookup_segment by exact Hj.
    apply list_lookup_insert_ne. lia.
  - unfold segment. rewrite !lookup_take_ge by lia. reflexivity.
Qed.

Lemma resident_hits (VALID DIRTY : Z) (k : cache_kind) (c : cache_sim_t)
    (addr : Z) (q : nat) :
  wf c -> (q < Z.to_nat (ways c))%nat -> resident_at VALID DIRTY c addr q ->
  hits VALID DIRTY k c addr.
Proof.
  intros Hc Hq Hres. unfold hits. rewrite v_check_tag_eq.
  destruct (check_tag_spec VALID DIRTY c addr Hc)
    as [(q' & l' & _ & _ & _ & _ & _ & Heq)|[Hno _]].
  - eauto.
  - exfalso. exact (Hno q Hq Hres).
Qed.

Lemma flags_63_62 : flags_ok VALID63 DIRTY62.
Proof. unfold flags_ok, VALID63, DIRTY62. repeat split; try lia; reflexivity. Qed.

Lemma fresh_2x2_built : new_cache_sim_t 2 2 8 "L1" = Ok fresh_2x2.
Proof. reflexivity. Qed.

Lemma used_2x2_reached :
  after VALID63 DIRTY62 SetAssoc fresh_2x2 trace_2x2 = Ok used_2x2.
Proof. vm_compute. reflexivity. Qed.

Lemma used_2x2_reachable : reachable VALID63 DIRTY62 SetAssoc used_2x2.
Proof.
  exists 2, 2, 8, "L1"%string, fresh_2x2, trace_2x2.
  split; [unfold is_u64; lia|]. split; [unfold is_u64; lia|].
  split; [unfold is_u64; lia|]. split; [discriminate|].
  split; [exact fresh_2x2_built|exact used_2x2_reached].
Qed.

(** [C3] In every state that calls of [access], [check_tag] and
    [victimize] (and the two setters) reach from a constructed cache, the
    LRU entries of every set are a permutation of [0 .. ways-1]; the
    constructor puts way [ways - j - 1] at LRU position [j]; and in every
    such state [check_tag] returns, and so does [victimize] when the cache
    has a way. *)
Theorem lru_sets_are_permutations (VALID DIRTY : Z) (k : cache_kind)
    (sets0 ways0 linesz0 : Z) (name0 : string) (c0 c : cache_sim_t)
    (calls : list call) :
  is_u64 sets0 -> is_u64 ways0 -> is_u64 linesz0 ->
  (k = FullyAssoc -> sets0 = 1) ->
  new_cache_sim_t sets0 ways0 linesz0 name0 = Ok c0 ->
  after VALID DIRTY k c0 calls = Ok c ->
  (forall idx j, 0 <= idx < sets0 -> 0 <= j < ways0 ->
                 lru_set c0 idx !! Z.to_nat j = Some (ways0 - j - 1)) /\
  (forall idx, 0 <= idx < sets c -> lru_set c idx ≡ₚ seqZ 0 (ways c)) /\
  (forall addr, exists hit c',
        v_check_tag VALID DIRTY k c addr = Ok (hit, c')) /\
  (1 <= ways c ->
   forall addr, exists victim c',
       v_victimize VALID k c addr = Ok (victim, c')).
Proof.
  intros Hs Hw Hl Hk Hnew Hrun.
  assert (Hreach : reachable VALID DIRTY k c).
  { exists sets0, ways0, linesz0, name0, c0, calls. auto 10. }
  destruct (reachable_inv VALID DIRTY k c Hreach) as [Hc Hkind].
  split; [|split; [|split]].
  - pose proof (init_Ok_accepted _ _ _ _ _ _ Hs Hw Hl Hnew) as Hg.
    destruct (init_accepted sets0 ways0 linesz0 name0 false Hg)
      as (l0 & Heq & Hlen & Hlook).
    unfold new_cache_sim_t in Hnew. rewrite Heq in Hnew. injection Hnew as <-.
    intros idx j Hi Hj. unfold lru_set. cbn [lru ways].
    destruct Hg as (_ & _ & _ & _ & _ & Hsz).
    assert (0 <= idx * ways0) by nia.
    assert (idx * ways0 + ways0 <= sets0 * ways0) by nia.
    rewrite lookup_segment by lia.
    replace (Z.to_nat (idx * ways0) + Z.to_nat j)%nat
      with (Z.to_nat (idx * ways0 + j)) by lia.
    apply Hlook; assumption.
  - exact (wf_perm c Hc).
  - intros addr. rewrite v_check_tag_eq.
    destruct (check_tag_wf VALID DIRTY c addr Hc) as (hit & c' & Heq & _).
    eauto.
  - intros Hways addr. rewrite v_victimize_eq by assumption.
    destruct (victimize_wf VALID c addr Hc Hways) as (v & c' & Heq & _).
    eauto.
Qed.

Lemma lru_sets_are_permutations_witness :
  (is_u64 2 /\ is_u64 8 /\
   new_cache_sim_t 2 2 8 "L1" = Ok fresh_2x2 /\
   after VALID63 DIRTY62 SetAssoc fresh_2x2 trace_2x2 = Ok used_2x2) /\
  lru_set fresh_2x2 1 !! Z.to_nat 0 = Some (2 - 0 - 1) /\
  lru_set used_2x2 0 ≡ₚ seqZ 0 2.
Proof.
  assert (H2 : is_u64 2) by (unfold is_u64; lia).
  assert (H8 : is_u64 8) by (unfold is_u64; lia).
  assert (Hnew : new_cache_sim_t 2 2 8 "L1" = Ok fresh_2x2) by reflexivity.
  assert (Hrun : after VALID63 DIRTY62 SetAssoc fresh_2x2 trace_2x2
                 = Ok used_2x2) by (vm_compute; reflexivity).
  split; [auto|].
  destruct (lru_sets_are_permutations VALID63 DIRTY62 SetAssoc 2 2 8 "L1"
              fresh_2x2 used_2x2 trace_2x2 H2 H2 H8
              ltac:(discriminate) Hnew Hrun) as (Hfresh & Hperm & _).
  split; [apply Hfresh; lia|apply (Hperm 0); cbn; lia].
Defined.

(** [C4] On the set-associative cache, [victimize] evicts the way [w] at
    the last LRU position of the set of the address, moves every other way
    one position back and puts [w] in front, overwrites the tag slot of
    [w] with [(addr >> idx_shift) | VALID] and returns the word that slot
    held; nothing changes in the other sets.  With well-placed flags the
    new word is valid and not dirty. *)
Theorem victimize_evicts_last_lru_way (VALID DIRTY : Z) (c : cache_sim_t)
    (addr : Z) :
  reachable VALID DIRTY SetAssoc c -> 1 <= ways c ->
  exists w victim c',
    victimize VALID c addr = Ok (victim, c') /\
    lru_set c (set_of c addr) !! (Z.to_nat (ways c) - 1)%nat = Some w /\
    0 <= w < ways c /\
    tag_set c (set_of c addr) !! Z.to_nat w = Some victim /\
    lru_set c' (set_of c addr)
    = w :: take (Z.to_nat (ways c) - 1) (lru_set c (set_of c addr)) /\
    tag_set c' (set_of c addr)
    = <[Z.to_nat w := Z.lor (Z.shiftr addr (idx_shift c)) VALID]>
        (tag_set c (set_of c addr)) /\
    (forall idx, 0 <= idx < sets c -> idx <> set_of c addr ->
                 lru_set c' idx = lru_set c idx /\
                 tag_set c' idx = tag_set c idx) /\
    (flags_ok VALID DIRTY -> is_u64 addr ->
     Z.land (Z.lor (Z.shiftr addr (idx_shift c)) VALID) VALID = VALID /\
     Z.land (Z.lor (Z.shiftr addr (idx_shift c)) VALID) DIRTY = 0).
Proof.
  intros Hreach Hw.
  destruct (reachable_inv VALID DIRTY SetAssoc c Hreach) as [Hc _].
  destruct (victimize_spec VALID c addr Hc Hw)
    as (w & victim & Hlk & Hrange & Hv & Hres).
  pose proof (set_of_range c addr Hc) as Hi.
  destruct (set_base c (set_of c addr) Hc Hi) as (_ & _ & Ht & Hl & _).
  set (b := Z.to_nat (set_of c addr * ways c)) in *.
  set (W := Z.to_nat (ways c)) in *.
  exists w, victim. eexists. split; [exact Hres|].
  split; [exact Hlk|]. split; [exact Hrange|].
  assert (Hseg : length (lru_set c (set_of c addr)) = W)
    by (apply length_segment; exact Hl).
  split; [|split; [|split; [|split]]].
  - unfold tag_set. fold b W. rewrite lookup_segment by lia. exact Hv.
  - unfold lru_set at 1. cbn [lru ways set_tags set_lru]. fold b W.
    apply segment_splice_same; [|lia].
    cbn [length]. rewrite length_take. lia.
  - unfold tag_set. cbn [tags ways set_tags set_lru]. fold b W.
    apply segment_insert_same. lia.
  - intros idx Hidx Hne.
    pose proof (sets_disjoint c (set_of c addr) idx (wf_ways c Hc)
                  ltac:(lia) ltac:(lia) ltac:(congruence)) as Hd.
    fold b W in Hd. cbv zeta in Hd.
    unfold lru_set, tag_set. cbn [lru tags ways set_tags set_lru]. fold W.
    split.
    + apply segment_splice_other; [|exact Hl|exact Hd].
      cbn [length]. rewrite length_take, length_segment by exact Hl. lia.
    + apply segment_insert_other; [lia|exact Hd].
  - intros Hf Ha. split.
    + apply land_lor_same.
    + pose proof (mask_fresh VALID DIRTY addr (idx_shift c) Hf Ha
                    ltac:(pose proof (wf_shift c Hc); lia)) as Hm.
      rewrite <- Hm, <- Z.land_assoc.
      rewrite (Z.land_comm (not64 DIRTY)), land_not64_diag.
      apply Z.land_0_r.
Qed.

Lemma victimize_evicts_last_lru_way_witness :
  (reachable VALID63 DIRTY62 SetAssoc used_2x2 /\ 1 <= ways used_2x2) /\
  exists w victim c',
    victimize VALID63 used_2x2 16 = Ok (victim, c') /\
    lru_set used_2x2 (set_of used_2x2 16) !! 1%nat = Some w /\
    lru_set c' (set_of used_2x2 16)
    = w :: take 1 (lru_set used_2x2 (set_of used_2x2 16)).
Proof.
  assert (Hr : reachable VALID63 DIRTY62 SetAssoc used_2x2).
  { exists 2, 2, 8, "L1"%string, fresh_2x2, trace_2x2.
    split; [unfold is_u64; lia|]. split; [unfold is_u64; lia|].
    split; [unfold is_u64; lia|]. split; [discriminate|].
    split; [reflexivity|vm_compute; reflexivity]. }
  assert (Hw : 1 <= ways used_2x2) by (cbn; lia).
  split; [auto|].
  destruct (victimize_evicts_last_lru_way VALID63 DIRTY62 used_2x2 16 Hr Hw)
    as (w & victim & c' & H1 & H2 & _ & _ & H5 & _).
  exists w, victim, c'. auto.
Defined.

(** [C7] An access that hits returns without forwarding anything and
    without a trace line; the miss counters and the writeback counter are
    unchanged; no tag word changes except that a store sets [DIRTY] in the
    slot that hit, so every word is the same once the dirty flag is masked
    out; the LRU order of the set of the address is reordered and the
    other sets keep theirs.  The slot that hit is the one the lookup
    returns: a slot of the set of the address whose word, with the dirty
    flag masked out, is the line number of the address with the valid
    flag; after the access it holds that word with [DIRTY] or-ed in for a
    store and unchanged for a load. *)
Theorem hit_changes_lru_order_only (VALID DIRTY : Z) (k : cache_kind)
    (c : cache_sim_t) (addr bytes : Z) (is_store : bool) :
  reachable VALID DIRTY k c -> hits VALID DIRTY k c addr ->
  exists (c' : cache_sim_t) (slot t : Z),
    access VALID DIRTY k c addr bytes is_store = Ok (c', []) /\
    read_misses c' = read_misses c /\
    write_misses c' = write_misses c /\
    writebacks c' = writebacks c /\
    tags c !! Z.to_nat slot = Some t /\
    tags c' = (if is_store then <[Z.to_nat slot := Z.lor t DIRTY]> (tags c)
               else tags c) /\
    (fun x => Z.land x (not64 DIRTY)) <$> tags c'
    = (fun x => Z.land x (not64 DIRTY)) <$> tags c /\
    lru_set c' (set_of c addr) ≡ₚ lru_set c (set_of c addr) /\
    (forall idx, 0 <= idx < sets c -> idx <> set_of c addr ->
                 lru_set c' idx = lru_set c idx) /\
    sets c' = sets c /\ ways c' = ways c /\ linesz c' = linesz c /\
    v_check_tag VALID DIRTY k c addr = Ok (Some slot, set_lru c (lru c')) /\
    set_of c addr * ways c <= slot < set_of c addr * ways c + ways c /\
    Z.land t (not64 DIRTY) = Z.lor (Z.shiftr addr (idx_shift c)) VALID /\
    tags c' !! Z.to_nat slot
    = Some (if is_store then Z.lor t DIRTY else t).
Proof.
  intros Hreach Hhit.
  destruct (reachable_inv VALID DIRTY k c Hreach) as [Hc _].
  destruct (access_hit_spec VALID DIRTY k c addr bytes is_store Hc Hhit)
    as (q & t & l' & Hq & Ht & Hm & (Hlen & Hperm & Hother) & Hv & Hres).
  set (b := Z.to_nat (set_of c addr * ways c)) in *.
  eexists. exists (Z.of_nat (b + q)), t.
  split; [exact Hres|]. rewrite !Nat2Z.id.
  assert (Hways : forall x l, ways (set_tags (set_lru (count_access c bytes
                                is_store) l) x) = ways c)
    by (intros; destruct is_store; reflexivity).
  split; [destruct is_store; reflexivity|].
  split; [destruct is_store; reflexivity|].
  split; [destruct is_store; reflexivity|].
  split; [exact Ht|]. split; [destruct is_store; reflexivity|].
  split; [|split; [|split; [|split; [|split; [|split;
    [|split; [|split; [|split; [|]]]]]]]]].
  - cbn [tags set_tags]. destruct is_store; [|reflexivity].
    apply list_eq. intros i. rewrite !list_lookup_fmap, list_lookup_insert.
    case_decide as Hi; [|reflexivity]. destruct Hi as [<- _].
    rewrite Ht. cbn. f_equal. apply mask_marked.
  - unfold lru_set. rewrite Hways.
    replace (lru (set_tags (set_lru (count_access c bytes is_store) l') _))
      with l' by (destruct is_store; reflexivity).
    exact Hperm.
  - intros idx Hidx Hne. unfold lru_set. rewrite Hways.
    replace (lru (set_tags (set_lru (count_access c bytes is_store) l') _))
      with l' by (destruct is_store; reflexivity).
    apply Hother.
    pose proof (set_of_range c addr Hc).
    apply (sets_disjoint c (set_of c addr) idx (wf_ways c Hc));
      (lia || congruence).
  - destruct is_store; reflexivity.
  - destruct is_store; reflexivity.
  - destruct is_store; reflexivity.
  - replace (lru (set_tags (set_lru (count_access c bytes is_store) l') _))
      with l' by (destruct is_store; reflexivity).
    exact Hv.
  - pose proof (set_of_range c addr Hc). pose proof (wf_ways c Hc).
    assert (0 <= set_of c addr * ways c) by nia.
    subst b. lia.
  - symmetry. exact Hm.
  - apply lookup_lt_Some in Ht as Hlt.
    destruct is_store; cbn [tags set_tags];
      [apply list_lookup_insert_eq; exact Hlt|exact Ht].
Qed.

Lemma hit_changes_lru_order_only_witness :
  (reachable VALID63 DIRTY62 SetAssoc used_2x2 /\
   hits VALID63 DIRTY62 SetAssoc used_2x2 48) /\
  exists c', access VALID63 DIRTY62 SetAssoc used_2x2 48 4 true = Ok (c', []) /\
             read_misses c' = read_misses used_2x2 /\
             write_misses c' = write_misses used_2x2 /\
             writebacks c' = writebacks used_2x2 /\
             tags c' = [2 ^ 63 + 10; 2 ^ 63 + 2 ^ 62 + 6; 0; 0].
Proof.
  assert (Hr : reachable VALID63 DIRTY62 SetAssoc used_2x2).
  { exists 2, 2, 8, "L1"%string, fresh_2x2, trace_2x2.
    split; [unfold is_u64; lia|]. split; [unfold is_u64; lia|].
    split; [unfold is_u64; lia|]. split; [discriminate|].
    split; [reflexivity|vm_compute; reflexivity]. }
  assert (Hh : hits VALID63 DIRTY62 SetAssoc used_2x2 48).
  { eexists _, _. vm_compute. reflexivity. }
  split; [auto|].
  destruct (hit_changes_lru_order_only VALID63 DIRTY62 SetAssoc used_2x2
              48 4 true Hr Hh)
    as (c' & slot & t & H1 & H2 & H3 & H4 & Ht & Htags & _ & _ & _ & _ & _
        & _ & Hv & _).
  exists c'. split; [exact H1|]. split; [exact H2|]. split; [exact H3|].
  split; [exact H4|].
  assert (Hslot : slot = 1) by (vm_compute in Hv; congruence).
  subst slot. vm_compute in Ht. injection Ht as <-. exact Htags.
Defined.

(** [C1] On a cache constructed with a valid geometry (with or without a
    miss handler and trace), the first load from an address misses: it
    counts one read miss.  Any access to the same address right after it,
    of any size and direction, hits: it returns without events and counts
    no miss.  The flag constants are asked to satisfy [flags_ok]. *)
Theorem first_access_misses_then_hits (VALID DIRTY : Z) (k : cache_kind)
    (sets0 ways0 linesz0 : Z) (name0 : string)
    (mh : option handler_ref) (lg : bool) (a n : Z) :
  flags_ok VALID DIRTY ->
  valid_geometry sets0 ways0 linesz0 ->
  (k = FullyAssoc -> sets0 = 1) ->
  is_u64 a ->
  exists c0 c1 evs,
    new_cache_sim_t sets0 ways0 linesz0 name0 = Ok c0 /\
    misses VALID DIRTY k (set_log (set_miss_handler c0 mh) lg) a /\
    access VALID DIRTY k (set_log (set_miss_handler c0 mh) lg) a n false
    = Ok (c1, evs) /\
    read_misses c1 = 1 /\ write_misses c1 = 0 /\
    forall n' s',
      hits VALID DIRTY k c1 a /\
      exists c2, access VALID DIRTY k c1 a n' s' = Ok (c2, []) /\
                 read_misses c2 = 1 /\ write_misses c2 = 0.
Proof.
  intros Hf [Hg Hw1] Hk Ha.
  destruct (init_accepted sets0 ways0 linesz0 name0 false Hg)
    as (l0 & Heq & Hlen & Hlook).
  pose proof (init_accepted_wf _ _ _ _ _ _ Hg Heq) as Hc0.
  eexists. unfold new_cache_sim_t. rewrite Heq.
  set (c0 := mk_cache_sim_t sets0 ways0 linesz0 _ _ _ 0 0 0 0 0 0 0 None _ _)
    in *.
  set (cfg := set_log (set_miss_handler c0 mh) lg).
  assert (Hinv : inv k cfg).
  { apply (inv_same_tables k cfg c0); [by_projections|reflexivity|].
    split; [exact Hc0|exact Hk]. }
  destruct Hinv as [Hc Hkind].
  assert (Hmiss : misses VALID DIRTY k cfg a).
  { unfold misses. rewrite v_check_tag_eq.
    destruct (check_tag_spec VALID DIRTY cfg a Hc)
      as [(q & l' & Hq & (t & Ht & Hm) & _)|[_ Hres]]; [exfalso|eauto].
    cbn [tags cfg c0 set_log set_miss_handler] in Ht.
    apply lookup_replicate in Ht as [-> _].
    rewrite Z.land_0_l in Hm. unfold tag_of in Hm.
    apply Z.lor_eq_0_iff in Hm as [_ HV].
    destruct Hf as (HVpos & _). lia. }
  destruct (access_miss_spec VALID DIRTY k cfg a n false Hc Hkind Hw1 Ha
              Hmiss ltac:(discriminate))
    as (w & victim & Hlk & Hrange & Hv & Hvict & Hacc).
  pose proof (access_preserves VALID DIRTY k _ _ _ _ _ _
                (conj Hc Hkind) Hacc) as [Hc1 _].
  eexists _, _. split; [reflexivity|]. split; [exact Hmiss|].
  split; [exact Hacc|].
  remember (set_tags _ _) as c1 eqn:Hc1eq in Hacc, Hc1 |- *.
  assert (Hproj : read_misses c1 = 1 /\ write_misses c1 = 0 /\
                  tags c1 = tags (filled VALID cfg a w) /\
                  set_of c1 a = set_of cfg a /\ ways c1 = ways cfg /\
                  tag_of VALID c1 a = tag_of VALID cfg a).
  { rewrite Hc1eq. unfold count_writeback.
    destruct (valid_and_dirty VALID DIRTY victim); repeat split. }
  destruct Hproj as (Hrm & Hwm & Htags & Hset & Hways & Htag).
  split; [exact Hrm|]. split; [exact Hwm|].
  intros n' s'.
  pose proof (set_of_range cfg a Hc) as Hi.
  destruct (set_base cfg (set_of cfg a) Hc Hi) as (_ & _ & Ht & _ & _).
  assert (Hin : resident_at VALID DIRTY c1 a (Z.to_nat w)).
  { unfold resident_at. rewrite Hset, Hways, Htag, Htags.
    exists (tag_of VALID cfg a). split.
    - unfold filled. cbn [tags set_tags set_lru].
      apply list_lookup_insert_eq. cbn [ways] in *. lia.
    - symmetry. apply mask_fresh; [exact Hf|exact Ha|].
      pose proof (wf_shift cfg Hc). lia. }
  assert (Hhit : hits VALID DIRTY k c1 a).
  { apply (resident_hits VALID DIRTY k c1 a (Z.to_nat w) Hc1); [|exact Hin].
    rewrite Hways. cbn [ways] in *. lia. }
  split; [exact Hhit|].
  destruct (access_hit_spec VALID DIRTY k c1 a n' s' Hc1 Hhit)
    as (q & t & l' & _ & _ & _ & _ & _ & Hres).
  eexists. split; [exact Hres|].
  destruct s'; split; assumption.
Qed.

Lemma first_access_misses_then_hits_witness :
  (flags_ok VALID63 DIRTY62 /\ valid_geometry 2 2 8 /\ is_u64 16) /\
  exists c1 evs c2,
    access VALID63 DIRTY62 SetAssoc fresh_2x2 16 4 false = Ok (c1, evs) /\
    read_misses c1 = 1 /\
    access VALID63 DIRTY62 SetAssoc c1 16 8 true = Ok (c2, []) /\
    read_misses c2 = 1 /\ write_misses c2 = 0.
Proof.
  assert (Hf : flags_ok VALID63 DIRTY62).
  { unfold flags_ok, VALID63, DIRTY62.
    split; [lia|]. split; [lia|]. split; reflexivity. }
  assert (Hg : valid_geometry 2 2 8).
  { unfold valid_geometry, accepted_geometry.
    split; [|lia]. split; [reflexivity|]. split; [lia|]. split; [lia|].
    split; [reflexivity|]. split; lia. }
  assert (Ha : is_u64 16) by (unfold is_u64; lia).
  split; [auto|].
  destruct (first_access_misses_then_hits VALID63 DIRTY62 SetAssoc 2 2 8
              "L1" None false 16 4 Hf Hg ltac:(discriminate) Ha)
    as (c0 & c1 & evs & Hnew & _ & Hacc & Hrm & _ & Hnext).
  injection Hnew as <-.
  destruct (Hnext 8 true) as (_ & c2 & Hacc2 & Hrm2 & Hwm2).
  exists c1, evs, c2. auto.
Defined.

(** [C8] When a store misses, the lookup that [access] repeats after
    [victimize] returns the slot that was just filled, never [NULL]; the
    slot is inside the tag table, [access] returns, and the slot holds the
    new word with [DIRTY] set.  The flag constants are asked to satisfy
    [flags_ok], the cache to have a way. *)
Theorem store_miss_relookup_hits (VALID DIRTY : Z) (k : cache_kind)
    (c : cache_sim_t) (addr bytes : Z) :
  flags_ok VALID DIRTY ->
  reachable VALID DIRTY k c -> 1 <= ways c -> is_u64 addr ->
  misses VALID DIRTY k c addr ->
  exists victim c2 slot c' evs,
    v_victimize VALID k c addr = Ok (victim, c2) /\
    v_check_tag VALID DIRTY k c2 addr = Ok (Some slot, c2) /\
    tags c2 !! Z.to_nat slot = Some (tag_of VALID c addr) /\
    access VALID DIRTY k c addr bytes true = Ok (c', evs) /\
    tags c' !! Z.to_nat slot = Some (Z.lor (tag_of VALID c addr) DIRTY).
Proof.
  intros Hf Hreach Hw Ha Hmiss.
  destruct (reachable_inv VALID DIRTY k c Hreach) as [Hc Hk].
  assert (Hself : tag_of VALID c addr
                  = Z.land (tag_of VALID c addr) (not64 DIRTY)).
  { symmetry. apply mask_fresh; [exact Hf|exact Ha|].
    pose proof (wf_shift c Hc). lia. }
  destruct (access_miss_spec VALID DIRTY k c addr bytes true Hc Hk Hw Ha
              Hmiss (fun _ => Hself))
    as (w & victim & Hlk & Hrange & Hv & Hvict & Hacc).
  assert (Hc3 : wf (filled VALID c addr w)).
  { eapply victimize_preserves in Hvict as [H _]; [exact H|split; eassumption]. }
  pose proof (relookup_spec VALID DIRTY c addr w Hc Hw
                (misses_resident VALID DIRTY k c addr Hc Hmiss)
                Hself Hlk Hrange Hc3) as Hre.
  pose proof (set_of_range c addr Hc) as Hi.
  destruct (set_base c (set_of c addr) Hc Hi) as (_ & _ & Ht & _ & _).
  eexists victim, _, _, _, _. split; [exact Hvict|].
  split; [rewrite v_check_tag_eq; exact Hre|]. rewrite Nat2Z.id.
  split; [|split; [exact Hacc|]].
  - unfold filled. cbn [tags set_tags set_lru].
    apply list_lookup_insert_eq. lia.
  - cbn [tags set_tags]. apply list_lookup_insert_eq. lia.
Qed.

Lemma store_miss_relookup_hits_witness :
  (flags_ok VALID63 DIRTY62 /\ reachable VALID63 DIRTY62 SetAssoc warm_2x2 /\
   1 <= ways warm_2x2 /\ is_u64 80 /\
   misses VALID63 DIRTY62 SetAssoc warm_2x2 80) /\
  exists victim c2 slot c' evs,
    victimize VALID63 warm_2x2 80 = Ok (victim, c2) /\
    check_tag VALID63 DIRTY62 c2 80 = Ok (Some slot, c2) /\
    access VALID63 DIRTY62 SetAssoc warm_2x2 80 8 true = Ok (c', evs).
Proof.
  assert (Hf : flags_ok VALID63 DIRTY62).
  { unfold flags_ok, VALID63, DIRTY62.
    split; [lia|]. split; [lia|]. split; reflexivity. }
  assert (Hr : reachable VALID63 DIRTY62 SetAssoc warm_2x2).
  { exists 2, 2, 8, "L1"%string, fresh_2x2,
      [Access 16 4 true; Access 48 4 false].
    split; [unfold is_u64; lia|]. split; [unfold is_u64; lia|].
    split; [unfold is_u64; lia|]. split; [discriminate|].
    split; [reflexivity|vm_compute; reflexivity]. }
  assert (Hw : 1 <= ways warm_2x2) by (cbn; lia).
  assert (Ha : is_u64 80) by (unfold is_u64; lia).
  assert (Hm : misses VALID63 DIRTY62 SetAssoc warm_2x2 80).
  { eexists. vm_compute. reflexivity. }
  split; [auto 10|].
  destruct (store_miss_relookup_hits VALID63 DIRTY62 SetAssoc warm_2x2 80 8
              Hf Hr Hw Ha Hm)
    as (victim & c2 & slot & c' & evs & H1 & H2 & _ & H4 & _).
  exists victim, c2, slot, c', evs. auto.
Defined.

(** [C2] On a miss of a cache that has a miss handler: when the evicted
    word has both [VALID] and [DIRTY] set, the handler first receives a
    store of [linesz] bytes at the victim's tag bits shifted left by
    [idx_shift], and the writeback counter goes up by one; then, whatever
    the direction of the access, the handler receives a load of [linesz]
    bytes at the address rounded down to a multiple of [linesz].  Only the
    optional trace line comes before these calls. *)
Theorem miss_forwards_writeback_then_fill (VALID DIRTY : Z) (k : cache_kind)
    (c : cache_sim_t) (addr bytes : Z) (is_store : bool) (h : handler_ref) :
  (is_store = true -> flags_ok VALID DIRTY) ->
  reachable VALID DIRTY k c -> 1 <= ways c -> is_u64 addr ->
  misses VALID DIRTY k c addr ->
  miss_handler c = Some h ->
  exists victim c2 c',
    v_victimize VALID k c addr = Ok (victim, c2) /\
    access VALID DIRTY k c addr bytes is_store
    = Ok (c',
          (if log c then [MissTrace (name c) is_store addr] else [])
          ++ (if valid_and_dirty VALID DIRTY victim
              then [Forward h
                      (shl64 (Z.land victim (not64 (Z.lor VALID DIRTY)))
                         (idx_shift c))
                      (linesz c) true]
              else [])
          ++ [Forward h (addr - addr mod linesz c) (linesz c) false]) /\
    writebacks c' = (if valid_and_dirty VALID DIRTY victim
                     then add64 (writebacks c) 1 else writebacks c).
Proof.
  intros Hf Hreach Hw Ha Hmiss Hh.
  destruct (reachable_inv VALID DIRTY k c Hreach) as [Hc Hk].
  assert (Hself : is_store = true ->
                  tag_of VALID c addr
                  = Z.land (tag_of VALID c addr) (not64 DIRTY)).
  { intros Hs. symmetry. apply mask_fresh; [exact (Hf Hs)|exact Ha|].
    pose proof (wf_shift c Hc). lia. }
  destruct (access_miss_spec VALID DIRTY k c addr bytes is_store Hc Hk Hw Ha
              Hmiss Hself)
    as (w & victim & _ & _ & _ & Hvict & Hacc).
  eexists victim, _, _. split; [exact Hvict|].
  split.
  - rewrite Hacc. unfold miss_events. rewrite Hh. reflexivity.
  - unfold count_writeback.
    destruct (valid_and_dirty VALID DIRTY victim), is_store; reflexivity.
Qed.

Lemma miss_forwards_writeback_then_fill_witness :
  (flags_ok VALID63 DIRTY62 /\
   reachable VALID63 DIRTY62 SetAssoc chained_2x2 /\
   1 <= ways chained_2x2 /\ is_u64 80 /\
   misses VALID63 DIRTY62 SetAssoc chained_2x2 80 /\
   miss_handler chained_2x2 = Some 1%nat) /\
  exists c',
    access VALID63 DIRTY62 SetAssoc chained_2x2 80 8 true
    = Ok (c', [MissTrace "L1" true 80; Forward 1%nat 16 8 true;
               Forward 1%nat 80 8 false]) /\
    writebacks c' = 1.
Proof.
  assert (Hf : flags_ok VALID63 DIRTY62).
  { unfold flags_ok, VALID63, DIRTY62.
    split; [lia|]. split; [lia|]. split; reflexivity. }
  assert (Hr : reachable VALID63 DIRTY62 SetAssoc chained_2x2).
  { exists 2, 2, 8, "L1"%string, fresh_2x2,
      [SetMissHandler (Some 1%nat); SetLog true;
       Access 16 4 true; Access 48 4 false].
    split; [unfold is_u64; lia|]. split; [unfold is_u64; lia|].
    split; [unfold is_u64; lia|]. split; [discriminate|].
    split; [reflexivity|vm_compute; reflexivity]. }
  assert (Hw : 1 <= ways chained_2x2) by (cbn; lia).
  assert (Ha : is_u64 80) by (unfold is_u64; lia).
  assert (Hm : misses VALID63 DIRTY62 SetAssoc chained_2x2 80).
  { eexists. vm_compute. reflexivity. }
  assert (Hh : miss_handler chained_2x2 = Some 1%nat) by reflexivity.
  split; [auto 10|].
  destruct (miss_forwards_writeback_then_fill VALID63 DIRTY62 SetAssoc
              chained_2x2 80 8 true 1%nat (fun _ => Hf) Hr Hw Ha Hm Hh)
    as (victim & c2 & c' & Hv & Hacc & Hwb).
  injection Hv as <- _.
  exists c'. split; [exact Hacc|exact Hwb].
Defined.

(** [C9] On a miss of a cache without a miss handler nothing is
    forwarded, and the writeback counter still goes up by one when the
    evicted word has both [VALID] and [DIRTY] set (and only then). *)
Theorem writeback_counted_without_handler (VALID DIRTY : Z) (k : cache_kind)
    (c : cache_sim_t) (addr bytes : Z) (is_store : bool) :
  (is_store = true -> flags_ok VALID DIRTY) ->
  reachable VALID DIRTY k c -> 1 <= ways c -> is_u64 addr ->
  misses VALID DIRTY k c addr ->
  miss_handler c = None ->
  exists victim c2 c',
    v_victimize VALID k c addr = Ok (victim, c2) /\
    access VALID DIRTY k c addr bytes is_store
    = Ok (c', if log c then [MissTrace (name c) is_store addr] else []) /\
    writebacks c' = (if valid_and_dirty VALID DIRTY victim
                     then add64 (writebacks c) 1 else writebacks c).
Proof.
  intros Hf Hreach Hw Ha Hmiss Hh.
  destruct (reachable_inv VALID DIRTY k c Hreach) as [Hc Hk].
  assert (Hself : is_store = true ->
                  tag_of VALID c addr
                  = Z.land (tag_of VALID c addr) (not64 DIRTY)).
  { intros Hs. symmetry. apply mask_fresh; [exact (Hf Hs)|exact Ha|].
    pose proof (wf_shift c Hc). lia. }
  destruct (access_miss_spec VALID DIRTY k c addr bytes is_store Hc Hk Hw Ha
              Hmiss Hself)
    as (w & victim & _ & _ & _ & Hvict & Hacc).
  eexists victim, _, _. split; [exact Hvict|].
  split.
  - rewrite Hacc. unfold miss_events. rewrite Hh.
    destruct (valid_and_dirty VALID DIRTY victim), (log c); reflexivity.
  - unfold count_writeback.
    destruct (valid_and_dirty VALID DIRTY victim), is_store; reflexivity.
Qed.

Lemma writeback_counted_without_handler_witness :
  (reachable VALID63 DIRTY62 SetAssoc warm_2x2 /\
   1 <= ways warm_2x2 /\ is_u64 80 /\
   misses VALID63 DIRTY62 SetAssoc warm_2x2 80 /\
   miss_handler warm_2x2 = None) /\
  exists victim c2 c',
    victimize VALID63 warm_2x2 80 = Ok (victim, c2) /\
    valid_and_dirty VALID63 DIRTY62 victim = true /\
    access VALID63 DIRTY62 SetAssoc warm_2x2 80 8 false = Ok (c', []) /\
    writebacks c' = 1.
Proof.
  assert (Hr : reachable VALID63 DIRTY62 SetAssoc warm_2x2).
  { exists 2, 2, 8, "L1"%string, fresh_2x2,
      [Access 16 4 true; Access 48 4 false].
    split; [unfold is_u64; lia|]. split; [unfold is_u64; lia|].
    split; [unfold is_u64; lia|]. split; [discriminate|].
    split; [reflexivity|vm_compute; reflexivity]. }
  assert (Hw : 1 <= ways warm_2x2) by (cbn; lia).
  assert (Ha : is_u64 80) by (unfold is_u64; lia).
  assert (Hm : misses VALID63 DIRTY62 SetAssoc warm_2x2 80).
  { eexists. vm_compute. reflexivity. }
  assert (Hh : miss_handler warm_2x2 = None) by reflexivity.
  split; [auto 10|].
  destruct (writeback_counted_without_handler VALID63 DIRTY62 SetAssoc
              warm_2x2 80 8 false ltac:(discriminate) Hr Hw Ha Hm Hh)
    as (victim & c2 & c' & Hv & Hacc & Hwb).
  exists victim, c2, c'. split; [exact Hv|].
  injection Hv as <- _.
  split; [reflexivity|]. split; [exact Hacc|exact Hwb].
Defined.

(** ** The fully associative class against the base class with one set *)

Lemma access_kind_eq (VALID DIRTY : Z) (c : cache_sim_t) (addr bytes : Z)
    (is_store : bool) :
  inv FullyAssoc c ->
  access VALID DIRTY FullyAssoc c addr bytes is_store
  = access VALID DIRTY SetAssoc c addr bytes is_store.
Proof.
  intros Hinv. unfold access. rewrite !v_check_tag_eq.
  destruct is_store; cbv zeta.
  - destruct (check_tag VALID DIRTY _ addr) as [[hit c1]|] eqn:H1;
      [|reflexivity].
    cbn [mbind result_bind]. destruct hit as [slot|]; [reflexivity|].
    rewrite <- v_check_tag_eq with (k := FullyAssoc) in H1.
    apply check_tag_preserves in H1 as [Hinv1 _].
    2:{ apply (inv_same_tables _ _ c); [by_projections|reflexivity|exact Hinv]. }
    rewrite !v_victimize_eq; [reflexivity| | | |].
    + apply (inv_same_tables SetAssoc _ c1); [by_projections|reflexivity|].
      split; [apply Hinv1|discriminate].
    + discriminate.
    + apply (inv_same_tables FullyAssoc _ c1);
        [by_projections|reflexivity|exact Hinv1].
    + apply (inv_same_tables FullyAssoc _ c1);
        [by_projections|reflexivity|exact Hinv1].
  - destruct (check_tag VALID DIRTY _ addr) as [[hit c1]|] eqn:H1;
      [|reflexivity].
    cbn [mbind result_bind]. destruct hit as [slot|]; [reflexivity|].
    rewrite <- v_check_tag_eq with (k := FullyAssoc) in H1.
    apply check_tag_preserves in H1 as [Hinv1 _].
    2:{ apply (inv_same_tables _ _ c); [by_projections|reflexivity|exact Hinv]. }
    rewrite !v_victimize_eq; [reflexivity| | | |].
    + apply (inv_same_tables SetAssoc _ c1); [by_projections|reflexivity|].
      split; [apply Hinv1|discriminate].
    + discriminate.
    + apply (inv_same_tables FullyAssoc _ c1);
        [by_projections|reflexivity|exact Hinv1].
    + apply (inv_same_tables FullyAssoc _ c1);
        [by_projections|reflexivity|exact Hinv1].
Qed.

Lemma do_call_kind_eq (VALID DIRTY : Z) (c : cache_sim_t) (o : call) :
  inv FullyAssoc c ->
  do_call VALID DIRTY FullyAssoc c o = do_call VALID DIRTY SetAssoc c o.
Proof.
  intros Hinv. destruct o as [addr bytes is_store|addr|addr|mh|b];
    cbn [do_call]; try reflexivity.
  - apply access_kind_eq. exact Hinv.
  - destruct Hinv as [Hc Hk]. rewrite !v_victimize_eq; try assumption.
    + reflexivity.
    + discriminate.
Qed.

Lemma run_kind_eq (VALID DIRTY : Z) (calls : list call) (c : cache_sim_t) :
  inv FullyAssoc c ->
  run VALID DIRTY FullyAssoc c calls = run VALID DIRTY SetAssoc c calls.
Proof.
  revert c. induction calls as [|o calls IH]; intros c Hinv; [reflexivity|].
  cbn [run]. rewrite (do_call_kind_eq VALID DIRTY c o Hinv).
  destruct (do_call VALID DIRTY SetAssoc c o) as [[c1 evs]|] eqn:H1;
    [|reflexivity].
  cbn [mbind result_bind fst snd].
  rewrite <- (do_call_kind_eq VALID DIRTY c o Hinv) in H1.
  rewrite (IH c1); [reflexivity|].
  eapply do_call_preserves; eassumption.
Qed.

(** [C5] A fully associative cache and a base-class cache constructed
    with one set and the same ways and line size show the same thing at
    every step of every trace of calls: the same miss outcome, the same
    state (counters, tag table, LRU table) and the same events (calls on
    the miss handler, trace lines); a fault of one is the same fault of
    the other. *)
Theorem fully_associative_equals_one_set (VALID DIRTY : Z)
    (ways0 linesz0 : Z) (name0 : string) (calls : list call) :
  is_u64 ways0 -> is_u64 linesz0 ->
  run_from VALID DIRTY FullyAssoc (new_fa_cache_sim_t ways0 linesz0 name0)
    calls
  = run_from VALID DIRTY SetAssoc (new_cache_sim_t 1 ways0 linesz0 name0)
      calls.
Proof.
  intros Hw Hl. unfold run_from, new_fa_cache_sim_t.
  destruct (new_cache_sim_t 1 ways0 linesz0 name0) as [c0|] eqn:Hnew;
    [|reflexivity].
  cbn [mbind result_bind]. apply run_kind_eq.
  apply (reachable_inv VALID DIRTY).
  exists 1, ways0, linesz0, name0, c0, [].
  split; [unfold is_u64; lia|]. split; [exact Hw|]. split; [exact Hl|].
  split; [reflexivity|]. split; [exact Hnew|reflexivity].
Qed.

Lemma fully_associative_equals_one_set_witness :
  (is_u64 8 /\ is_u64 64) /\
  construct_kind 1 8 = FullyAssoc /\
  run_from VALID63 DIRTY62 FullyAssoc (new_fa_cache_sim_t 8 64 "L1") trace_fa
  = run_from VALID63 DIRTY62 SetAssoc (new_cache_sim_t 1 8 64 "L1") trace_fa /\
  exists obs,
    run_from VALID63 DIRTY62 FullyAssoc (new_fa_cache_sim_t 8 64 "L1")
      trace_fa = Ok obs /\
    obs_miss <$> obs
    = [false; true; true; true; true; true; true; true; true; false; true;
       true].
Proof.
  assert (H8 : is_u64 8) by (unfold is_u64; lia).
  assert (H64 : is_u64 64) by (unfold is_u64; lia).
  split; [auto|]. split; [reflexivity|].
  split.
  - exact (fully_associative_equals_one_set VALID63 DIRTY62 8 64 "L1"
             trace_fa H8 H64).
  - eexists. split; [vm_compute; reflexivity|reflexivity].
Defined.

(** ** Construction and the usage check *)

Lemma init_lru_row_fault (n : nat) (i j ways : Z) (l : list Z) (f : fault) :
  init_lru_row n i j ways l = Fault f -> f = OutOfBounds.
Proof.
  revert j l. induction n as [|n IH]; intros j l; cbn [init_lru_row];
    [discriminate|].
  unfold store. destruct (decide _); cbn; [apply IH|congruence].
Qed.

Lemma init_lru_rows_fault (n : nat) (i ways : Z) (l : list Z) (f : fault) :
  init_lru_rows n i ways l = Fault f -> f = OutOfBounds.
Proof.
  revert i l. induction n as [|n IH]; intros i l; cbn [init_lru_rows];
    [discriminate|].
  destruct (init_lru_row _ _ _ _ _) as [l'|f'] eqn:Hrow; cbn.
  - apply IH.
  - intros [= <-]. eapply init_lru_row_fault, Hrow.
Qed.

(** [init] takes the usage exit exactly when [sets] is not a power of two
    (zero included), or [linesz] is less than 8 or not a power of two;
    [ways] plays no part in it. *)
Lemma init_usage_exit_iff (sets0 ways0 linesz0 : Z) (name0 : string)
    (lg : bool) :
  is_u64 sets0 -> is_u64 linesz0 ->
  init sets0 ways0 linesz0 name0 lg = Fault UsageExit <->
  sets0 <> 2 ^ Z.log2 sets0 \/ linesz0 < 8 \/ linesz0 <> 2 ^ Z.log2 linesz0.
Proof.
  intros Hs Hl. unfold is_u64 in Hs, Hl. unfold init.
  assert (Hpow : forall x, 0 <= x < 2 ^ 64 ->
             ((x =? 0) || negb (Z.land x (sub64 x 1) =? 0) = false
              <-> x = 2 ^ Z.log2 x)).
  { intros x Hx. rewrite orb_false_iff, negb_false_iff, Z.eqb_neq, Z.eqb_eq.
    split.
    - intros [Hx0 Hland]. unfold sub64 in Hland.
      rewrite wrap_small in Hland by (unfold is_u64; lia).
      apply land_pred_zero; [lia|exact Hland].
    - intros Hp. pose proof (pow2_log2_pos x Hp). split; [lia|].
      unfold sub64. rewrite wrap_small by (unfold is_u64; lia).
      rewrite Hp. apply land_pred_pow2, Z.log2_nonneg. }
  destruct ((sets0 =? 0) || negb (Z.land sets0 (sub64 sets0 1) =? 0))
    eqn:Hsets.
  { split; [intros _; left|reflexivity].
    intros Hp. apply (Hpow sets0 Hs) in Hp. congruence. }
  apply (Hpow sets0 Hs) in Hsets.
  destruct (Z.ltb_spec linesz0 8) as [Hlt|Hge]; cbn [orb].
  { split; [intros _; right; left; exact Hlt|reflexivity]. }
  destruct (negb (Z.land linesz0 (sub64 linesz0 1) =? 0)) eqn:Hlz.
  { split; [intros _; right; right|reflexivity].
    intros Hp. apply (Hpow linesz0 Hl) in Hp.
    apply orb_false_iff in Hp as [_ Hp]. congruence. }
  assert (Hlp : linesz0 = 2 ^ Z.log2 linesz0).
  { apply (Hpow linesz0 Hl). apply orb_false_iff. split; [|exact Hlz].
    apply Z.eqb_neq. lia. }
  split; [|intros [?|[?|?]]; (contradiction || lia)].
  unfold new_zeroed.
  destruct (2 ^ 60 <=? mul64 sets0 ways0); cbn; [discriminate|].
  destruct (init_lru_rows _ _ _ _) as [l'|f'] eqn:Hrows; cbn; [discriminate|].
  intros [= ->]. apply init_lru_rows_fault in Hrows. discriminate.
Qed.

(** [C6] Construction succeeds on the geometry [sets = 1], [ways = 0],
    [linesz = 8], which has no way: [init] never looks at [ways].  The
    cache it builds has empty tables, and every access to it reads outside
    them. *)
Theorem init_accepts_zero_ways (name0 : string) :
  construct 1 0 8 name0
  = (SetAssoc,
     Ok (mk_cache_sim_t 1 0 8 3 [] [] 0 0 0 0 0 0 0 None name0 false)) /\
  forall VALID DIRTY k addr bytes is_store,
    access VALID DIRTY k
      (mk_cache_sim_t 1 0 8 3 [] [] 0 0 0 0 0 0 0 None name0 false)
      addr bytes is_store
    = Fault OutOfBounds.
Proof.
  split; [reflexivity|].
  intros VALID DIRTY k addr bytes is_store.
  unfold access. rewrite !v_check_tag_eq.
  destruct is_store, k; cbv zeta; cbn [v_victimize];
    unfold check_tag, victimize, fa_victimize; cbn;
    unfold mul64; rewrite ?Z.mul_0_r; reflexivity.
Qed.

(** ** The copy constructor *)

(** [C10] The copy of a reachable cache has the geometry, the name, the
    tag table and the LRU table of the source and a cleared trace flag;
    its seven counters and its miss handler are those of the raw storage
    the copy was built in, whatever the source holds. *)
Theorem copy_keeps_tables_not_counters (VALID DIRTY : Z) (k : cache_kind)
    (rhs raw : cache_sim_t) :
  reachable VALID DIRTY k rhs ->
  exists c,
    copy_cache_sim_t rhs raw = Ok c /\
    (sets c = sets rhs /\ ways c = ways rhs /\ linesz c = linesz rhs /\
     idx_shift c = idx_shift rhs /\ name c = name rhs) /\
    (tags c = tags rhs /\ lru c = lru rhs) /\
    log c = false /\
    (read_accesses c = read_accesses raw /\
     read_misses c = read_misses raw /\
     bytes_read c = bytes_read raw /\
     write_accesses c = write_accesses raw /\
     write_misses c = write_misses raw /\
     bytes_written c = bytes_written raw /\
     writebacks c = writebacks raw) /\
    miss_handler c = miss_handler raw.
Proof.
  intros Hreach.
  destruct (reachable_inv VALID DIRTY k rhs Hreach) as [Hc _].
  pose proof (wf_sets rhs Hc). pose proof (wf_ways rhs Hc).
  pose proof (wf_size rhs Hc).
  unfold copy_cache_sim_t, new_copied.
  assert (Hm : mul64 (sets rhs) (ways rhs) = sets rhs * ways rhs).
  { unfold mul64. apply wrap_small. unfold is_u64. nia. }
  rewrite Hm.
  destruct (Z.leb_spec (2 ^ 60) (sets rhs * ways rhs)) as [?|_]; [lia|].
  pose proof (wf_tags rhs Hc) as Ht. pose proof (wf_lru rhs Hc) as Hl.
  destruct (decide (Z.to_nat (sets rhs * ways rhs) <= length (tags rhs))%nat);
    [|lia].
  destruct (decide (Z.to_nat (sets rhs * ways rhs) <= length (lru rhs))%nat);
    [|lia].
  rewrite !take_ge by lia. cbn.
  eexists. split; [reflexivity|]. cbn. auto 20.
Qed.

Lemma copy_keeps_tables_not_counters_witness :
  reachable VALID63 DIRTY62 SetAssoc used_2x2 /\
  exists c,
    copy_cache_sim_t used_2x2 chained_2x2 = Ok c /\
    tags c = tags used_2x2 /\ lru c = lru used_2x2 /\
    writebacks c = 0 /\ miss_handler c = Some 1%nat.
Proof.
  assert (Hr : reachable VALID63 DIRTY62 SetAssoc used_2x2).
  { exists 2, 2, 8, "L1"%string, fresh_2x2, trace_2x2.
    split; [unfold is_u64; lia|]. split; [unfold is_u64; lia|].
    split; [unfold is_u64; lia|]. split; [discriminate|].
    split; [reflexivity|vm_compute; reflexivity]. }
  split; [exact Hr|].
  destruct (copy_keeps_tables_not_counters VALID63 DIRTY62 SetAssoc
              used_2x2 chained_2x2 Hr)
    as (c & Hcopy & _ & (Ht & Hl) & _ & (_ & _ & _ & _ & _ & _ & Hwb) & Hh).
  exists c. auto.
Defined.

(** ** Flags in the low bits *)

(** The proofs about the repeated lookup need [DIRTY] above the line
    numbers.  With [VALID = 1] and [DIRTY = 2] a store to address 16 of a
    fresh cache does not find the line it has just filled, and a second
    load from that address misses again. *)
Remark low_flag_bits_break_relookup :
  access 1 2 SetAssoc fresh_2x2 16 4 true = Fault NullDeref /\
  exists c1 c2 evs1 evs2,
    access 1 2 SetAssoc fresh_2x2 16 4 false = Ok (c1, evs1) /\
    access 1 2 SetAssoc c1 16 4 false = Ok (c2, evs2) /\
    read_misses c2 = 2.
Proof.
  split; [reflexivity|]. eexists _, _, _, _.
  split; [reflexivity|]. split; [vm_compute; reflexivity|reflexivity].
Qed.

(** ** The scenario of the design document *)

(** Miss then two hits on [0x1000]; three fills; the fifth line of the set
    evicts the dirty [0x1000], written back before the fill; [0x1000]
    misses afterwards. *)
Example scenario_observed :
  exists obs,
    run_from VALID63 DIRTY62 SetAssoc (new_cache_sim_t 64 4 64 "D$")
      trace_scenario = Ok obs /\
    (fun o => (obs_miss o, obs_events o, writebacks (obs_state o))) <$> obs
    = [(false, [], 0);
       (true, [Forward 1%nat 4096 64 false], 0);
       (false, [], 0);
       (false, [], 0);
       (true, [Forward 1%nat 8192 64 false], 0);
       (true, [Forward 1%nat 12288 64 false], 0);
       (true, [Forward 1%nat 16384 64 false], 0);
       (true, [Forward 1%nat 4096 64 true; Forward 1%nat 20480 64 false], 1);
       (true, [Forward 1%nat 4096 64 false], 1)].
Proof. eexists. split; [vm_compute; reflexivity|reflexivity]. Qed.

(** * Further properties of the code *)

(** ** What a call can change *)

Lemma check_tag_shape (VALID DIRTY : Z) (c c' : cache_sim_t) (addr : Z)
    (hit : option Z) :
  check_tag VALID DIRTY c addr = Ok (hit, c') -> exists l, c' = set_lru c l.
Proof.
  unfold check_tag. intros H.
  apply bind_Ok_inv in H as ([hit' l] & _ & H). injection H as _ <-. eauto.
Qed.

Lemma victimize_shape (VALID : Z) (k : cache_kind) (c c' : cache_sim_t)
    (addr victim : Z) :
  v_victimize VALID k c addr = Ok (victim, c') ->
  exists l t, c' = set_tags (set_lru c l) t.
Proof.
  destruct k; cbn [v_victimize]; unfold victimize, fa_victimize; intros H.
  - apply bind_Ok_inv in H as (w & _ & H).
    apply bind_Ok_inv in H as (l1 & _ & H).
    apply bind_Ok_inv in H as (l2 & _ & H).
    apply bind_Ok_inv in H as (v & _ & H).
    apply bind_Ok_inv in H as (t' & _ & H). injection H as _ <-. eauto.
  - apply bind_Ok_inv in H as (w & _ & H).
    apply bind_Ok_inv in H as (v & _ & H).
    apply bind_Ok_inv in H as (t' & _ & H).
    apply bind_Ok_inv in H as (l1 & _ & H).
    apply bind_Ok_inv in H as (l2 & _ & H). injection H as _ <-. eauto.
Qed.

Lemma mark_dirty_shape (DIRTY : Z) (c c' : cache_sim_t) (slot : Z) :
  mark_dirty DIRTY c slot = Ok c' -> exists t, c' = set_tags c t.
Proof.
  unfold mark_dirty. intros H.
  apply bind_Ok_inv in H as (t & _ & H).
  apply bind_Ok_inv in H as (t' & _ & H). injection H as <-. eauto.
Qed.

(** An access that returns has changed the two tables and the counters
    only: one access and its bytes are counted, at most one miss, and a
    writeback only with a miss; without a miss there is no event. *)
Lemma access_shape (VALID DIRTY : Z) (k : cache_kind) (c c' : cache_sim_t)
    (addr bytes : Z) (is_store : bool) (evs : list event) :
  access VALID DIRTY k c addr bytes is_store = Ok (c', evs) ->
  exists (m wb : bool) (l t : list Z),
    c' = set_tags (set_lru (tally c bytes is_store m wb) l) t /\
    (wb = true -> m = true) /\ (m = false -> evs = []).
Proof.
  intros Hres. unfold access in Hres. rewrite !v_check_tag_eq in Hres.
  destruct is_store; cbv zeta in Hres.
  - apply bind_Ok_inv in Hres as ([hit c1] & H1 & Hres).
    apply check_tag_shape in H1 as (l1 & ->).
    destruct hit as [slot|].
    + apply bind_Ok_inv in Hres as (c2 & H2 & Hres).
      apply mark_dirty_shape in H2 as (t2 & ->). injection Hres as <- <-.
      exists false, false, l1, t2. repeat split; discriminate.
    + apply bind_Ok_inv in Hres as ([victim c2] & H2 & Hres).
      apply victimize_shape in H2 as (l2 & t2 & ->).
      apply bind_Ok_inv in Hres as ([slot c3] & H3 & Hres).
      apply check_tag_shape in H3 as (l3 & ->).
      destruct slot as [p|]; [|discriminate].
      apply bind_Ok_inv in Hres as (c4 & H4 & Hres).
      apply mark_dirty_shape in H4 as (t4 & ->). injection Hres as <- _.
      exists true, (Z.land victim (Z.lor VALID DIRTY) =? Z.lor VALID DIRTY),
        l3, t4.
      split; [|split; [reflexivity|discriminate]].
      destruct (Z.land victim (Z.lor VALID DIRTY) =? Z.lor VALID DIRTY);
        reflexivity.
  - apply bind_Ok_inv in Hres as ([hit c1] & H1 & Hres).
    apply check_tag_shape in H1 as (l1 & ->).
    destruct hit as [slot|].
    + injection Hres as <- <-.
      exists false, false, l1, (tags c). repeat split; discriminate.
    + apply bind_Ok_inv in Hres as ([victim c2] & H2 & Hres).
      apply victimize_shape in H2 as (l2 & t2 & ->). injection Hres as <- _.
      exists true, (Z.land victim (Z.lor VALID DIRTY) =? Z.lor VALID DIRTY),
        l2, t2.
      split; [|split; [reflexivity|discriminate]].
      destruct (Z.land victim (Z.lor VALID DIRTY) =? Z.lor VALID DIRTY);
        reflexivity.
Qed.

(** ** The counters along a sequence of calls *)

Lemma add64_wrap_l (x y : Z) : add64 (wrap x) y = wrap (x + y).
Proof. unfold add64, wrap. apply Z.add_mod_idemp_l. lia. Qed.

Lemma loads_cons (o : call) (calls : list call) :
  loads (o :: calls) = loads [o] + loads calls /\
  stores (o :: calls) = stores [o] + stores calls /\
  bytes_loaded (o :: calls) = bytes_loaded [o] + bytes_loaded calls /\
  bytes_stored (o :: calls) = bytes_stored [o] + bytes_stored calls.
Proof. destruct o as [a n []| | | |]; cbn; repeat split; lia. Qed.

Lemma loads_nonneg (calls : list call) : 0 <= loads calls /\ 0 <= stores calls.
Proof.
  induction calls as [|o calls [IH1 IH2]]; [cbn; lia|].
  destruct o as [a n []| | | |]; cbn [loads stores]; lia.
Qed.

Lemma do_call_tallied (VALID DIRTY : Z) (k : cache_kind) (c c' : cache_sim_t)
    (o : call) (evs : list event) (nl ns bl bs rm wm wbk : Z) :
  tallied c nl ns bl bs rm wm wbk ->
  do_call VALID DIRTY k c o = Ok (c', evs) ->
  exists rm' wm' wbk',
    tallied c' (nl + loads [o]) (ns + stores [o])
      (bl + bytes_loaded [o]) (bs + bytes_stored [o]) rm' wm' wbk'.
Proof.
  intros (H1 & H2 & H3 & H4 & H5 & H6 & H7 & Hr & Hw & Hb) Hres.
  destruct o as [addr bytes is_store|addr|addr|mh|b]; cbn [do_call] in Hres.
  - apply access_shape in Hres as (m & wb & l & t & -> & Hwb & _).
    destruct is_store, m, wb; try (specialize (Hwb eq_refl); discriminate);
      cbn [loads stores bytes_loaded bytes_stored];
      unfold tallied, tally, count_access, count_miss; cbn;
      rewrite ?H1, ?H2, ?H3, ?H4, ?H5, ?H6, ?H7, ?add64_wrap_l, ?Z.add_0_r.
    + exists rm, (wm + 1), (wbk + 1). repeat split; lia.
    + exists rm, (wm + 1), wbk. repeat split; lia.
    + exists rm, wm, wbk. repeat split; lia.
    + exists (rm + 1), wm, (wbk + 1). repeat split; lia.
    + exists (rm + 1), wm, wbk. repeat split; lia.
    + exists rm, wm, wbk. repeat split; lia.
  - apply bind_Ok_inv in Hres as ([hit c1] & Hc & Hres).
    rewrite v_check_tag_eq in Hc. apply check_tag_shape in Hc as (l & ->).
    injection Hres as <- _. exists rm, wm, wbk.
    cbn. rewrite !Z.add_0_r. repeat split; assumption || lia.
  - apply bind_Ok_inv in Hres as ([victim c1] & Hv & Hres).
    apply victimize_shape in Hv as (l & t & ->).
    injection Hres as <- _. exists rm, wm, wbk.
    cbn. rewrite !Z.add_0_r. repeat split; assumption || lia.
  - injection Hres as <- _. exists rm, wm, wbk.
    cbn. rewrite !Z.add_0_r. repeat split; assumption || lia.
  - injection Hres as <- _. exists rm, wm, wbk.
    cbn. rewrite !Z.add_0_r. repeat split; assumption || lia.
Qed.

Lemma after_tallied (VALID DIRTY : Z) (k : cache_kind) (calls : list call)
    (c c' : cache_sim_t) (nl ns bl bs rm wm wbk : Z) :
  tallied c nl ns bl bs rm wm wbk ->
  after VALID DIRTY k c calls = Ok c' ->
  exists rm' wm' wbk',
    tallied c' (nl + loads calls) (ns + stores calls)
      (bl + bytes_loaded calls) (bs + bytes_stored calls) rm' wm' wbk'.
Proof.
  revert c nl ns bl bs rm wm wbk.
  induction calls as [|o calls IH]; intros c nl ns bl bs rm wm wbk Ht Hres.
  - injection Hres as <-. exists rm, wm, wbk. cbn. rewrite !Z.add_0_r.
    exact Ht.
  - cbn [after] in Hres. apply bind_Ok_inv in Hres as ([c1 evs] & H1 & Hres).
    destruct (do_call_tallied _ _ _ _ _ _ _ _ _ _ _ _ _ _ Ht H1)
      as (rm1 & wm1 & wbk1 & Ht1).
    destruct (IH _ _ _ _ _ _ _ _ Ht1 Hres) as (rm2 & wm2 & wbk2 & Ht2).
    exists rm2, wm2, wbk2.
    destruct (loads_cons o calls) as (-> & -> & -> & ->).
    rewrite !Z.add_assoc. exact Ht2.
Qed.

(** What [init] leaves in the fields it sets last. *)
Lemma init_Ok_fields (sets0 ways0 linesz0 : Z) (name0 : string) (lg : bool)
    (c : cache_sim_t) :
  init sets0 ways0 linesz0 name0 lg = Ok c ->
  tallied c 0 0 0 0 0 0 0 /\ miss_handler c = None /\
  sets c = sets0 /\ ways c = ways0 /\ linesz c = linesz0 /\
  name c = name0 /\ log c = lg.
Proof.
  unfold init. intros H.
  destruct (_ || _); [discriminate|]. destruct (_ || _); [discriminate|].
  apply bind_Ok_inv in H as (t0 & _ & H).
  apply bind_Ok_inv in H as (l0 & _ & H).
  apply bind_Ok_inv in H as (l1 & _ & H). injection H as <-.
  unfold tallied. cbn. repeat split; lia.
Qed.

(** [X4] The access counters count the calls of [access]: on a cache that
    calls have been made on since its construction, [read_accesses] and
    [write_accesses] are the numbers of loads and of stores, and
    [bytes_read] and [bytes_written] the sums of their sizes, all modulo
    [2^64]; calls of [check_tag], [victimize] and the setters count for
    nothing. *)
Theorem counters_count_the_accesses (VALID DIRTY : Z) (k : cache_kind)
    (sets0 ways0 linesz0 : Z) (name0 : string) (c0 c : cache_sim_t)
    (calls : list call) :
  new_cache_sim_t sets0 ways0 linesz0 name0 = Ok c0 ->
  after VALID DIRTY k c0 calls = Ok c ->
  read_accesses c = wrap (loads calls) /\
  write_accesses c = wrap (stores calls) /\
  bytes_read c = wrap (bytes_loaded calls) /\
  bytes_written c = wrap (bytes_stored calls).
Proof.
  intros Hnew Hrun.
  destruct (init_Ok_fields _ _ _ _ _ _ Hnew) as (Ht & _).
  destruct (after_tallied _ _ _ _ _ _ _ _ _ _ _ _ _ Ht Hrun)
    as (rm & wm & wbk & H1 & H2 & H3 & H4 & _).
  rewrite !Z.add_0_l in *. auto.
Qed.

Lemma counters_count_the_accesses_witness :
  (new_cache_sim_t 2 2 8 "L1" = Ok fresh_2x2 /\
   after VALID63 DIRTY62 SetAssoc fresh_2x2 trace_2x2 = Ok used_2x2) /\
  read_accesses used_2x2 = wrap 2 /\ write_accesses used_2x2 = wrap 1 /\
  bytes_read used_2x2 = wrap 12 /\ bytes_written used_2x2 = wrap 4.
Proof.
  assert (Hnew : new_cache_sim_t 2 2 8 "L1" = Ok fresh_2x2) by reflexivity.
  assert (Hrun : after VALID63 DIRTY62 SetAssoc fresh_2x2 trace_2x2
                 = Ok used_2x2) by (vm_compute; reflexivity).
  split; [auto|].
  exact (counters_count_the_accesses VALID63 DIRTY62 SetAssoc 2 2 8 "L1"
           fresh_2x2 used_2x2 trace_2x2 Hnew Hrun).
Defined.

(** [X5] As long as fewer than [2^64] accesses have been made since
    construction, no counter has wrapped: the read misses are at most the
    read accesses, the write misses at most the write accesses, and the
    writebacks at most the misses. *)
Theorem misses_bounded_by_accesses (VALID DIRTY : Z) (k : cache_kind)
    (sets0 ways0 linesz0 : Z) (name0 : string) (c0 c : cache_sim_t)
    (calls : list call) :
  new_cache_sim_t sets0 ways0 linesz0 name0 = Ok c0 ->
  after VALID DIRTY k c0 calls = Ok c ->
  loads calls + stores calls < 2 ^ 64 ->
  0 <= read_misses c <= read_accesses c /\
  0 <= write_misses c <= write_accesses c /\
  0 <= writebacks c <= read_misses c + write_misses c /\
  read_accesses c + write_accesses c = loads calls + stores calls.
Proof.
  intros Hnew Hrun Hlt.
  destruct (init_Ok_fields _ _ _ _ _ _ Hnew) as (Ht & _).
  destruct (after_tallied _ _ _ _ _ _ _ _ _ _ _ _ _ Ht Hrun)
    as (rm & wm & wbk & H1 & H2 & _ & _ & H5 & H6 & H7 & Hr & Hw & Hb).
  rewrite !Z.add_0_l in *.
  destruct (loads_nonneg calls) as [Hl Hs].
  rewrite H1, H2, H5, H6, H7.
  rewrite !wrap_small by (unfold is_u64; lia). lia.
Qed.

Lemma misses_bounded_by_accesses_witness :
  (new_cache_sim_t 2 2 8 "L1" = Ok fresh_2x2 /\
   after VALID63 DIRTY62 SetAssoc fresh_2x2 trace_2x2 = Ok used_2x2 /\
   loads trace_2x2 + stores trace_2x2 < 2 ^ 64) /\
  0 <= read_misses used_2x2 <= read_accesses used_2x2 /\
  0 <= write_misses used_2x2 <= write_accesses used_2x2 /\
  0 <= writebacks used_2x2 <= read_misses used_2x2 + write_misses used_2x2.
Proof.
  assert (Hnew : new_cache_sim_t 2 2 8 "L1" = Ok fresh_2x2) by reflexivity.
  assert (Hrun : after VALID63 DIRTY62 SetAssoc fresh_2x2 trace_2x2
                 = Ok used_2x2) by (vm_compute; reflexivity).
  assert (Hlt : loads trace_2x2 + stores trace_2x2 < 2 ^ 64) by (cbn; lia).
  split; [auto|].
  destruct (misses_bounded_by_accesses VALID63 DIRTY62 SetAssoc 2 2 8 "L1"
              fresh_2x2 used_2x2 trace_2x2 Hnew Hrun Hlt)
    as (H1 & H2 & H3 & _).
  auto.
Defined.

(** ** What no call changes *)

Lemma do_call_frame (VALID DIRTY : Z) (k : cache_kind) (c c' : cache_sim_t)
    (o : call) (evs : list event) :
  do_call VALID DIRTY k c o = Ok (c', evs) ->
  (sets c' = sets c /\ ways c' = ways c /\ linesz c' = linesz c /\
   idx_shift c' = idx_shift c /\ name c' = name c) /\
  ((forall mh, o <> SetMissHandler mh) -> miss_handler c' = miss_handler c) /\
  ((forall b, o <> SetLog b) -> log c' = log c).
Proof.
  intros Hres.
  destruct o as [addr bytes is_store|addr|addr|mh|b]; cbn [do_call] in Hres.
  - apply access_shape in Hres as (m & wb & l & t & -> & _ & _).
    destruct is_store, m, wb; repeat split.
  - apply bind_Ok_inv in Hres as ([hit c1] & Hc & Hres).
    rewrite v_check_tag_eq in Hc. apply check_tag_shape in Hc as (l & ->).
    injection Hres as <- _. repeat split.
  - apply bind_Ok_inv in Hres as ([victim c1] & Hv & Hres).
    apply victimize_shape in Hv as (l & t & ->).
    injection Hres as <- _. repeat split.
  - injection Hres as <- _. repeat split. intros H. exfalso. exact (H mh eq_refl).
  - injection Hres as <- _. repeat split. intros H. exfalso. exact (H b eq_refl).
Qed.

(** [X6] No call changes the geometry or the name of a cache: [sets],
    [ways], [linesz] and [idx_shift] are those of the construction.  The
    miss handler changes through [set_miss_handler] only and the trace
    flag through [set_log] only. *)
Theorem geometry_never_changes (VALID DIRTY : Z) (k : cache_kind)
    (calls : list call) (c c' : cache_sim_t) :
  after VALID DIRTY k c calls = Ok c' ->
  (sets c' = sets c /\ ways c' = ways c /\ linesz c' = linesz c /\
   idx_shift c' = idx_shift c /\ name c' = name c) /\
  ((forall mh, SetMissHandler mh ∉ calls) ->
   miss_handler c' = miss_handler c) /\
  ((forall b, SetLog b ∉ calls) -> log c' = log c).
Proof.
  revert c. induction calls as [|o calls IH]; intros c Hres.
  - injection Hres as <-. repeat split.
  - cbn [after] in Hres. apply bind_Ok_inv in Hres as ([c1 evs] & H1 & Hres).
    apply do_call_frame in H1 as ((E1 & E2 & E3 & E4 & E5) & Hh & Hl).
    apply IH in Hres as ((F1 & F2 & F3 & F4 & F5) & Gh & Gl).
    cbn [fst] in *.
    split; [repeat split; congruence|]. split.
    + intros Hno. rewrite Gh, Hh; [reflexivity| |].
      * intros mh ->. apply (Hno mh). left.
      * intros mh Hin. apply (Hno mh). right. exact Hin.
    + intros Hno. rewrite Gl, Hl; [reflexivity| |].
      * intros b ->. apply (Hno b). left.
      * intros b Hin. apply (Hno b). right. exact Hin.
Qed.

Lemma geometry_never_changes_witness :
  after VALID63 DIRTY62 SetAssoc fresh_2x2 trace_2x2 = Ok used_2x2 /\
  (sets used_2x2 = 2 /\ ways used_2x2 = 2 /\ linesz used_2x2 = 8 /\
   idx_shift used_2x2 = 3 /\ name used_2x2 = "L1"%string).
Proof.
  assert (Hrun : after VALID63 DIRTY62 SetAssoc fresh_2x2 trace_2x2
                 = Ok used_2x2) by (vm_compute; reflexivity).
  split; [exact Hrun|].
  destruct (geometry_never_changes VALID63 DIRTY62 SetAssoc trace_2x2
              fresh_2x2 used_2x2 Hrun) as (Hg & _).
  exact Hg.
Defined.

(** ** Construction *)

(** [X1] [init] leaves through [help()] exactly when [sets] is not a power
    of two (zero included) or [linesz] is below 8 or not a power of two;
    the value of [ways] never causes the usage exit. *)
Theorem usage_exit_exactly (sets0 ways0 linesz0 : Z) (name0 : string)
    (lg : bool) :
  is_u64 sets0 -> is_u64 linesz0 ->
  init sets0 ways0 linesz0 name0 lg = Fault UsageExit <->
  sets0 <> 2 ^ Z.log2 sets0 \/ linesz0 < 8 \/ linesz0 <> 2 ^ Z.log2 linesz0.
Proof. apply init_usage_exit_iff. Qed.

Lemma usage_exit_exactly_witness :
  (is_u64 6 /\ is_u64 64) /\
  init 6 4 64 "L1" false = Fault UsageExit.
Proof.
  assert (H6 : is_u64 6) by (unfold is_u64; lia).
  assert (H64 : is_u64 64) by (unfold is_u64; lia).
  split; [auto|].
  apply (usage_exit_exactly 6 4 64 "L1" false H6 H64).
  left. vm_compute. discriminate.
Defined.

(** [init] refuses a table of [2^60] words or more, whether the product
    [sets * ways] has wrapped around or not. *)
Lemma init_bad_array_length (sets0 ways0 linesz0 : Z) (name0 : string)
    (lg : bool) :
  is_u64 sets0 -> is_u64 linesz0 ->
  sets0 = 2 ^ Z.log2 sets0 -> linesz0 = 2 ^ Z.log2 linesz0 ->
  8 <= linesz0 -> 2 ^ 60 <= mul64 sets0 ways0 ->
  init sets0 ways0 linesz0 name0 lg = Fault BadArrayLength.
Proof.
  intros Hs Hl Ps Pl Pl8 Hbig.
  assert (Hnu : init sets0 ways0 linesz0 name0 lg <> Fault UsageExit).
  { rewrite (init_usage_exit_iff sets0 ways0 linesz0 name0 lg Hs Hl).
    intros [?|[?|?]]; (contradiction || lia). }
  unfold init in *.
  destruct (_ || _); [congruence|]. destruct (_ || _); [congruence|].
  unfold new_zeroed.
  destruct (Z.leb_spec (2 ^ 60) (mul64 sets0 ways0)); [reflexivity|lia].
Qed.

(** [X2] [init] returns a cache only on the accepted geometries: [sets]
    and [linesz] powers of two, [linesz] at least 8, and [sets * ways]
    below [2^60], the longest array of 8-byte words.  The cache then has
    the geometry asked for, [idx_shift = log2 linesz] and a tag table of
    [sets * ways] zero words.  A product that wraps around never gives a
    cache, and with [sets] and [linesz] in order a table of [2^60] words
    or more is refused as a bad array length. *)
Theorem init_succeeds_only_when_accepted (sets0 ways0 linesz0 : Z)
    (name0 : string) (lg : bool) :
  is_u64 sets0 -> is_u64 ways0 -> is_u64 linesz0 ->
  (forall c, init sets0 ways0 linesz0 name0 lg = Ok c ->
     accepted_geometry sets0 ways0 linesz0 /\
     sets c = sets0 /\ ways c = ways0 /\ linesz c = linesz0 /\
     idx_shift c = Z.log2 linesz0 /\
     tags c = replicate (Z.to_nat (sets0 * ways0)) 0 /\
     length (lru c) = Z.to_nat (sets0 * ways0)) /\
  (sets0 = 2 ^ Z.log2 sets0 -> linesz0 = 2 ^ Z.log2 linesz0 ->
   8 <= linesz0 -> 2 ^ 60 <= mul64 sets0 ways0 ->
   init sets0 ways0 linesz0 name0 lg = Fault BadArrayLength).
Proof.
  intros Hs Hw Hl. split.
  - intros c Hinit.
    pose proof (init_Ok_accepted _ _ _ _ _ _ Hs Hw Hl Hinit) as Hg.
    destruct (init_accepted _ _ _ name0 lg Hg) as (l0 & Heq & Hlen & _).
    rewrite Heq in Hinit. injection Hinit as <-.
    split; [exact Hg|]. cbn. repeat split. exact Hlen.
  - intros Ps Pl Pl8 Hbig.
    exact (init_bad_array_length _ _ _ name0 lg Hs Hl Ps Pl Pl8 Hbig).
Qed.

Lemma init_succeeds_only_when_accepted_witness :
  (is_u64 (2 ^ 32) /\ is_u64 (2 ^ 28) /\ is_u64 8) /\
  (forall c, init (2 ^ 32) (2 ^ 32) 8 "L1" false <> Ok c) /\
  init (2 ^ 32) (2 ^ 28) 8 "L1" false = Fault BadArrayLength.
Proof.
  assert (H32 : is_u64 (2 ^ 32)) by (unfold is_u64; lia).
  assert (H28 : is_u64 (2 ^ 28)) by (unfold is_u64; lia).
  assert (H8 : is_u64 8) by (unfold is_u64; lia).
  split; [auto|]. split.
  - intros c Hc.
    apply (proj1 (init_succeeds_only_when_accepted (2 ^ 32) (2 ^ 32) 8 "L1"
                    false H32 H32 H8)) in Hc.
    destruct Hc as ((_ & _ & _ & _ & _ & Hsz) & _). lia.
  - apply (proj2 (init_succeeds_only_when_accepted (2 ^ 32) (2 ^ 28) 8 "L1"
                    false H32 H28 H8)).
    + reflexivity.
    + reflexivity.
    + lia.
    + vm_compute. discriminate.
Defined.

(** [X3] The loop that computes [idx_shift] counts the halvings of
    [linesz]: for every line size from 1 on the result is the integer
    logarithm, [2^idx_shift <= linesz < 2^(idx_shift+1)], and it is below
    64 for a 64-bit line size. *)
Theorem idx_shift_is_floor_log2 (linesz0 : Z) :
  1 <= linesz0 < 2 ^ 64 ->
  2 ^ count_idx_shift linesz0 <= linesz0 < 2 ^ (count_idx_shift linesz0 + 1)
  /\ 0 <= count_idx_shift linesz0 < 64.
Proof.
  intros [Hlo Hhi]. rewrite count_idx_shift_log2.
  pose proof (Z.log2_spec linesz0 ltac:(lia)) as Hspec.
  pose proof (Z.log2_nonneg linesz0).
  split; [replace (Z.log2 linesz0 + 1) with (Z.succ (Z.log2 linesz0)) by lia;
          exact Hspec|].
  split; [assumption|]. apply Z.log2_lt_pow2; lia.
Qed.

Lemma idx_shift_is_floor_log2_witness :
  1 <= 100 < 2 ^ 64 /\
  2 ^ count_idx_shift 100 <= 100 < 2 ^ (count_idx_shift 100 + 1).
Proof.
  assert (H : 1 <= 100 < 2 ^ 64) by lia.
  split; [exact H|].
  exact (proj1 (idx_shift_is_floor_log2 100 H)).
Defined.

(** [X7] A cache that [init] has just built is empty: whatever non-zero
    value [VALID] has, the lookup of any address returns [NULL] and leaves
    the object as it is. *)
Theorem fresh_cache_is_empty (VALID DIRTY : Z) (sets0 ways0 linesz0 : Z)
    (name0 : string) (lg : bool) (c : cache_sim_t) (addr : Z) :
  is_u64 sets0 -> is_u64 ways0 -> is_u64 linesz0 ->
  VALID <> 0 ->
  init sets0 ways0 linesz0 name0 lg = Ok c ->
  check_tag VALID DIRTY c addr = Ok (None, c) /\
  fa_check_tag VALID DIRTY c addr = Ok (None, c).
Proof.
  intros Hs Hw Hl HV Hinit.
  pose proof (init_Ok_accepted _ _ _ _ _ _ Hs Hw Hl Hinit) as Hg.
  pose proof (init_accepted_wf _ _ _ _ _ _ Hg Hinit) as Hc.
  destruct (init_accepted _ _ _ name0 lg Hg) as (l0 & Heq & _).
  assert (Htags : tags c = replicate (Z.to_nat (sets0 * ways0)) 0).
  { rewrite Heq in Hinit. injection Hinit as <-. reflexivity. }
  assert (Hnone : check_tag VALID DIRTY c addr = Ok (None, c)).
  { destruct (check_tag_spec VALID DIRTY c addr Hc)
      as [(q & l' & Hq & (t & Ht & Hm) & _)|[_ Hres]]; [exfalso|exact Hres].
    rewrite Htags in Ht. apply lookup_replicate in Ht as [-> _].
    rewrite Z.land_0_l in Hm. unfold tag_of in Hm.
    apply Z.lor_eq_0_iff in Hm as [_ HV0]. contradiction. }
  split; exact Hnone.
Qed.

Lemma fresh_cache_is_empty_witness :
  (is_u64 2 /\ is_u64 8 /\ VALID63 <> 0 /\
   init 2 2 8 "L1" false = Ok fresh_2x2) /\
  check_tag VALID63 DIRTY62 fresh_2x2 12345 = Ok (None, fresh_2x2).
Proof.
  assert (H2 : is_u64 2) by (unfold is_u64; lia).
  assert (H8 : is_u64 8) by (unfold is_u64; lia).
  assert (HV : VALID63 <> 0) by (unfold VALID63; lia).
  assert (Hinit : init 2 2 8 "L1" false = Ok fresh_2x2) by reflexivity.
  split; [auto|].
  exact (proj1 (fresh_cache_is_empty VALID63 DIRTY62 2 2 8 "L1" false
                  fresh_2x2 12345 H2 H2 H8 HV Hinit)).
Defined.

(** ** The copy constructor and the lookup *)

(** [X8] A copy of a reachable cache answers like its source: built in
    any raw storage, it is a well-formed object with the tables of the
    source, so every lookup returns the same slot in both and every
    replacement evicts the same word. *)
Theorem copy_answers_like_source (VALID DIRTY : Z) (k : cache_kind)
    (rhs raw : cache_sim_t) (addr : Z) :
  reachable VALID DIRTY k rhs ->
  exists c,
    copy_cache_sim_t rhs raw = Ok c /\ wf c /\
    (forall hit r, check_tag VALID DIRTY rhs addr = Ok (hit, r) ->
       check_tag VALID DIRTY c addr = Ok (hit, set_lru c (lru r))) /\
    (forall victim r, victimize VALID rhs addr = Ok (victim, r) ->
       victimize VALID c addr
       = Ok (victim, set_tags (set_lru c (lru r)) (tags r))).
Proof.
  intros Hreach.
  destruct (reachable_inv VALID DIRTY k rhs Hreach) as [Hc Hk].
  pose proof (wf_sets rhs Hc). pose proof (wf_ways rhs Hc).
  pose proof (wf_size rhs Hc).
  pose proof (wf_tags rhs Hc) as Ht. pose proof (wf_lru rhs Hc) as Hl.
  unfold copy_cache_sim_t, new_copied.
  assert (Hm : mul64 (sets rhs) (ways rhs) = sets rhs * ways rhs).
  { unfold mul64. apply wrap_small. unfold is_u64. nia. }
  rewrite Hm.
  destruct (Z.leb_spec (2 ^ 60) (sets rhs * ways rhs)) as [?|_]; [lia|].
  destruct (decide (Z.to_nat (sets rhs * ways rhs) <= length (tags rhs))%nat);
    [|lia].
  destruct (decide (Z.to_nat (sets rhs * ways rhs) <= length (lru rhs))%nat);
    [|lia].
  rewrite !take_ge by lia. cbn [mbind result_bind].
  eexists. split; [reflexivity|].
  set (c := mk_cache_sim_t _ _ _ _ _ _ _ _ _ _ _ _ _ _ _ _).
  assert (Hsame : same_tables c rhs) by by_projections.
  split; [|split].
  - apply (inv_same_tables k c rhs Hsame eq_refl (conj Hc Hk)).
  - intros hit r Hr. exact (check_tag_transfer VALID DIRTY c rhs r addr hit
                              Hsame Hr).
  - intros victim r Hr. exact (victimize_transfer VALID c rhs r addr victim
                                 Hsame Hr).
Qed.

Lemma copy_answers_like_source_witness :
  reachable VALID63 DIRTY62 SetAssoc used_2x2 /\
  exists c slot c',
    copy_cache_sim_t used_2x2 chained_2x2 = Ok c /\
    check_tag VALID63 DIRTY62 used_2x2 48 = Ok (Some slot, c') /\
    check_tag VALID63 DIRTY62 c 48 = Ok (Some slot, set_lru c (lru c')).
Proof.
  assert (Hr : reachable VALID63 DIRTY62 SetAssoc used_2x2).
  { exists 2, 2, 8, "L1"%string, fresh_2x2, trace_2x2.
    split; [unfold is_u64; lia|]. split; [unfold is_u64; lia|].
    split; [unfold is_u64; lia|]. split; [discriminate|].
    split; [reflexivity|vm_compute; reflexivity]. }
  split; [exact Hr|].
  destruct (copy_answers_like_source VALID63 DIRTY62 SetAssoc used_2x2
              chained_2x2 48 Hr) as (c & Hcopy & _ & Hlook & _).
  exists c. eexists _, _. split; [exact Hcopy|].
  assert (Hsrc : check_tag VALID63 DIRTY62 used_2x2 48
                 = Ok (Some 1, set_lru used_2x2 [1; 0; 1; 0]))
    by (vm_compute; reflexivity).
  split; [exact Hsrc|]. exact (Hlook _ _ Hsrc).
Defined.

(** ** The LRU order under lookups *)

Lemma lru_set_NoDup (c : cache_sim_t) (idx : Z) :
  wf c -> 0 <= idx < sets c -> NoDup (lru_set c idx).
Proof.
  intros Hc Hi. rewrite (wf_perm c Hc idx Hi). apply NoDup_seqZ.
Qed.

(** Every way index has a position in the LRU order of every set. *)
Lemma lru_set_position (c : cache_sim_t) (idx : Z) (k : nat) :
  wf c -> 0 <= idx < sets c -> (k < Z.to_nat (ways c))%nat ->
  exists p : nat, (p < Z.to_nat (ways c))%nat /\
                  lru_set c idx !! p = Some (Z.of_nat k).
Proof.
  intros Hc Hi Hk.
  assert (Hin : Z.of_nat k ∈ lru_set c idx).
  { rewrite (wf_perm c Hc idx Hi). apply elem_of_seqZ. lia. }
  apply list_elem_of_lookup in Hin as [p Hp]. exists p. split; [|exact Hp].
  apply lookup_lt_Some in Hp. unfold lru_set in Hp.
  destruct (set_base c idx Hc Hi) as (_ & _ & _ & Hl & _).
  rewrite length_segment in Hp by exact Hl. exact Hp.
Qed.

(** The state a lookup that hits leaves: the way [k] that matched, taken
    from its position [p] of the LRU order and put in front. *)
Lemma check_tag_hit_exact (VALID DIRTY : Z) (c c' : cache_sim_t)
    (addr slot : Z) :
  wf c -> check_tag VALID DIRTY c addr = Ok (Some slot, c') ->
  let b := Z.to_nat (set_of c addr * ways c) in
  let W := Z.to_nat (ways c) in
  exists k p : nat,
    (k < W)%nat /\ (p < W)%nat /\ slot = Z.of_nat (b + k) /\
    resident_at VALID DIRTY c addr k /\
    (forall q : nat, (q < k)%nat -> ~ resident_at VALID DIRTY c addr q) /\
    lru_set c (set_of c addr) !! p = Some (Z.of_nat k) /\
    c' = set_lru c (splice b W
                      (to_front p (Z.of_nat k) (lru_set c (set_of c addr)))
                      (lru c)).
Proof.
  intros Hc Hres b W.
  pose proof (set_of_range c addr Hc) as Hi.
  destruct (set_base c (set_of c addr) Hc Hi) as (Hb & HW & Ht & Hl & Hr).
  fold b W in Hb, HW, Ht, Hl, Hr.
  destruct (check_tag_spec VALID DIRTY c addr Hc)
    as [(k & l' & Hk & Hm & Hfirst & Hp & _ & Heq)|[_ Heq]];
    rewrite Heq in Hres; [|discriminate].
  fold b W in Hk, Hp. injection Hres as <- <-.
  destruct (promote_spec (set_of c addr) (ways c) b Hb W (Z.of_nat k) (lru c)
              W 0 Hl ltac:(lia) ltac:(lia))
    as [(p & Hpr & Hpk & _ & Hpres)|[Hno _]].
  - change (Z.of_nat 0) with 0 in Hpres. rewrite Hpres in Hp.
    injection Hp as <-. exists k, p.
    split; [exact Hk|]. split; [lia|]. split; [reflexivity|].
    split; [exact Hm|]. split; [exact Hfirst|].
    split; [|reflexivity].
    unfold lru_set. fold b W. rewrite lookup_segment by lia. exact Hpk.
  - exfalso.
    destruct (lru_set_position c (set_of c addr) k Hc Hi Hk) as (p & Hp1 & Hp2).
    unfold lru_set in Hp2. fold b W in Hp1, Hp2.
    rewrite lookup_segment in Hp2 by exact Hp1.
    apply (Hno p); [lia|exact Hp2].
Qed.

(** [X9] A lookup that hits makes the matching way the most recently used
    of its set and keeps the other ways in the order they had: the way is
    taken out of its position [p] and put in front.  The other sets and
    the tag table are untouched. *)
Theorem hit_moves_way_to_front (VALID DIRTY : Z) (k : cache_kind)
    (c c' : cache_sim_t) (addr slot : Z) :
  reachable VALID DIRTY k c ->
  v_check_tag VALID DIRTY k c addr = Ok (Some slot, c') ->
  exists (way : Z) (p : nat),
    slot = set_of c addr * ways c + way /\ 0 <= way < ways c /\
    lru_set c (set_of c addr) !! p = Some way /\
    lru_set c' (set_of c addr)
    = way :: take p (lru_set c (set_of c addr))
          ++ drop (S p) (lru_set c (set_of c addr)) /\
    (forall idx, 0 <= idx < sets c -> idx <> set_of c addr ->
                 lru_set c' idx = lru_set c idx) /\
    tags c' = tags c.
Proof.
  intros Hreach Hres. rewrite v_check_tag_eq in Hres.
  destruct (reachable_inv VALID DIRTY k c Hreach) as [Hc _].
  pose proof (set_of_range c addr Hc) as Hi.
  destruct (set_base c (set_of c addr) Hc Hi) as (_ & _ & _ & Hl & _).
  destruct (check_tag_hit_exact VALID DIRTY c c' addr slot Hc Hres)
    as (w & p & Hw & Hp & -> & _ & _ & Hpos & ->).
  set (b := Z.to_nat (set_of c addr * ways c)) in *.
  set (W := Z.to_nat (ways c)) in *.
  assert (Hlen : length (to_front p (Z.of_nat w) (lru_set c (set_of c addr)))
                 = W).
  { rewrite to_front_length; unfold lru_set; fold b W;
      rewrite length_segment by exact Hl; lia. }
  exists (Z.of_nat w), p.
  pose proof (wf_ways c Hc).
  assert (0 <= set_of c addr * ways c) by nia.
  split; [unfold b; lia|]. split; [lia|]. split; [exact Hpos|].
  split; [|split; [|reflexivity]].
  - unfold lru_set at 1. cbn [lru ways set_lru]. fold b W.
    apply segment_splice_same; [exact Hlen|lia].
  - intros idx Hidx Hne. unfold lru_set at 1. cbn [lru ways set_lru]. fold W.
    apply segment_splice_other; [exact Hlen|exact Hl|].
    apply (sets_disjoint c (set_of c addr) idx); (lia || congruence).
Qed.

Lemma hit_moves_way_to_front_witness :
  (reachable VALID63 DIRTY62 SetAssoc used_2x2 /\
   check_tag VALID63 DIRTY62 used_2x2 48
   = Ok (Some 1, set_lru used_2x2 [1; 0; 1; 0])) /\
  lru_set used_2x2 0 = [0; 1] /\
  lru_set (set_lru used_2x2 [1; 0; 1; 0]) 0 = [1; 0].
Proof.
  assert (Hr : reachable VALID63 DIRTY62 SetAssoc used_2x2).
  { exists 2, 2, 8, "L1"%string, fresh_2x2, trace_2x2.
    split; [unfold is_u64; lia|]. split; [unfold is_u64; lia|].
    split; [unfold is_u64; lia|]. split; [discriminate|].
    split; [reflexivity|vm_compute; reflexivity]. }
  assert (Hh : check_tag VALID63 DIRTY62 used_2x2 48
               = Ok (Some 1, set_lru used_2x2 [1; 0; 1; 0]))
    by (vm_compute; reflexivity).
  split; [auto|].
  destruct (hit_moves_way_to_front VALID63 DIRTY62 SetAssoc used_2x2 _ 48 1
              Hr Hh) as (way & p & _ & _ & _ & _ & _ & _).
  split; reflexivity.
Defined.

(** The lookup of an address whose way is already in front of the LRU
    order of its set changes nothing. *)
Lemma check_tag_settled (VALID DIRTY : Z) (c : cache_sim_t) (addr : Z)
    (k : nat) :
  wf c -> (k < Z.to_nat (ways c))%nat ->
  resident_at VALID DIRTY c addr k ->
  (forall q : nat, (q < k)%nat -> ~ resident_at VALID DIRTY c addr q) ->
  lru_set c (set_of c addr) !! 0%nat = Some (Z.of_nat k) ->
  check_tag VALID DIRTY c addr
  = Ok (Some (Z.of_nat (Z.to_nat (set_of c addr * ways c) + k)), c).
Proof.
  intros Hc Hk Hin Hfirst Hfront.
  pose proof (set_of_range c addr Hc) as Hi.
  destruct (set_base c (set_of c addr) Hc Hi) as (Hb & HW & Ht & Hl & Hr).
  set (b := Z.to_nat (set_of c addr * ways c)) in *.
  set (W := Z.to_nat (ways c)) in *.
  unfold lru_set in Hfront. fold b W in Hfront.
  rewrite lookup_segment in Hfront by lia.
  rewrite Nat.add_0_r in Hfront.
  destruct (check_tag_spec VALID DIRTY c addr Hc)
    as [(q & l' & Hq & Hresq & Hfirstq & Hp & _ & Hres)|[Hno _]].
  - fold b W in Hq, Hp, Hres.
    assert (q = k) as ->.
    { destruct (Nat.lt_trichotomy q k) as [Hlt|[?|Hgt]];
        [exfalso|assumption|exfalso].
      - exact (Hfirst q Hlt Hresq).
      - exact (Hfirstq k Hgt Hin). }
    rewrite (promote_front _ _ (Z.of_nat k) b W) in Hp by (assumption || lia).
    injection Hp as <-. rewrite Hres, set_lru_same. reflexivity.
  - exfalso. exact (Hno k Hk Hin).
Qed.

(** [X10] Looking the same address up twice: the second lookup returns
    what the first returned and changes nothing, since the first has
    already put the way in front. *)
Theorem check_tag_twice (VALID DIRTY : Z) (k : cache_kind)
    (c c1 : cache_sim_t) (addr : Z) (r : option Z) :
  reachable VALID DIRTY k c ->
  v_check_tag VALID DIRTY k c addr = Ok (r, c1) ->
  v_check_tag VALID DIRTY k c1 addr = Ok (r, c1).
Proof.
  intros Hreach Hres. rewrite v_check_tag_eq in *.
  destruct (reachable_inv VALID DIRTY k c Hreach) as [Hc Hk].
  destruct r as [slot|].
  - pose proof (set_of_range c addr Hc) as Hi.
    destruct (set_base c (set_of c addr) Hc Hi) as (_ & _ & _ & Hl & _).
    assert (Hc1 : wf c1).
    { rewrite <- v_check_tag_eq with (k := k) in Hres.
      apply (check_tag_preserves VALID DIRTY k c c1 addr _ (conj Hc Hk))
        in Hres as [[H _] _]. exact H. }
    destruct (check_tag_hit_exact VALID DIRTY c c1 addr slot Hc Hres)
      as (w & p & Hw & Hp & -> & Hin & Hfirst & Hpos & Heq).
    set (b := Z.to_nat (set_of c addr * ways c)) in *.
    set (W := Z.to_nat (ways c)) in *.
    assert (Hset : set_of c1 addr = set_of c addr) by (rewrite Heq; reflexivity).
    assert (Hways : ways c1 = ways c) by (rewrite Heq; reflexivity).
    assert (Hres1 : forall q, resident_at VALID DIRTY c1 addr q
                              <-> resident_at VALID DIRTY c addr q).
    { intros q. rewrite Heq. reflexivity. }
    rewrite (check_tag_settled VALID DIRTY c1 addr w Hc1).
    + rewrite Hset, Hways. reflexivity.
    + rewrite Hways. exact Hw.
    + apply Hres1. exact Hin.
    + intros q Hq Hq1. apply Hres1 in Hq1. exact (Hfirst q Hq Hq1).
    + rewrite Hset. unfold lru_set. rewrite Hways. fold b W.
      rewrite Heq. cbn [lru set_lru].
      rewrite segment_splice_same; [reflexivity| |lia].
      rewrite to_front_length; unfold lru_set; fold b W;
        rewrite length_segment by exact Hl; lia.
  - destruct (check_tag_spec VALID DIRTY c addr Hc)
      as [(q & l' & _ & _ & _ & _ & _ & Heq)|[_ Heq]];
      rewrite Heq in Hres; [discriminate|].
    injection Hres as <-. exact Heq.
Qed.

Lemma check_tag_twice_witness :
  (reachable VALID63 DIRTY62 SetAssoc used_2x2 /\
   check_tag VALID63 DIRTY62 used_2x2 48
   = Ok (Some 1, set_lru used_2x2 [1; 0; 1; 0])) /\
  check_tag VALID63 DIRTY62 (set_lru used_2x2 [1; 0; 1; 0]) 48
  = Ok (Some 1, set_lru used_2x2 [1; 0; 1; 0]).
Proof.
  assert (Hr : reachable VALID63 DIRTY62 SetAssoc used_2x2).
  { exists 2, 2, 8, "L1"%string, fresh_2x2, trace_2x2.
    split; [unfold is_u64; lia|]. split; [unfold is_u64; lia|].
    split; [unfold is_u64; lia|]. split; [discriminate|].
    split; [reflexivity|vm_compute; reflexivity]. }
  assert (Hh : check_tag VALID63 DIRTY62 used_2x2 48
               = Ok (Some 1, set_lru used_2x2 [1; 0; 1; 0]))
    by (vm_compute; reflexivity).
  split; [auto|].
  exact (check_tag_twice VALID63 DIRTY62 SetAssoc used_2x2 _ 48 _ Hr Hh).
Defined.

(** ** What an access leaves in the tables *)

Lemma check_tag_hits_or_misses (VALID DIRTY : Z) (k : cache_kind)
    (c : cache_sim_t) (addr : Z) :
  wf c -> hits VALID DIRTY k c addr \/ misses VALID DIRTY k c addr.
Proof.
  intros Hc.
  destruct (check_tag_spec VALID DIRTY c addr Hc)
    as [(q & l' & _ & _ & _ & _ & _ & Heq)|[_ Heq]].
  - left. eexists _, _. rewrite v_check_tag_eq. exact Heq.
  - right. eexists. rewrite v_check_tag_eq. exact Heq.
Qed.

(** With at least one way, an access in a well-formed state returns, and
    the way [q] that holds the line afterwards is in front of the LRU
    order of its set; its word is the only one of the tag table that may
    differ, and the LRU orders of the other sets are kept.  Either the
    line was there (the word changes by the dirty flag at most) or [q] was
    the least recently used way of the set. *)
Lemma access_leaves_line (VALID DIRTY : Z) (k : cache_kind)
    (c : cache_sim_t) (addr bytes : Z) (is_store : bool) :
  flags_ok VALID DIRTY -> wf c -> kind_ok k c -> 1 <= ways c ->
  is_u64 addr ->
  let idx := set_of c addr in
  let b := Z.to_nat (idx * ways c) in
  let W := Z.to_nat (ways c) in
  exists (c' : cache_sim_t) (evs : list event) (q : nat) (t : Z),
    access VALID DIRTY k c addr bytes is_store = Ok (c', evs) /\
    (sets c' = sets c /\ ways c' = ways c /\ idx_shift c' = idx_shift c) /\
    (q < W)%nat /\
    tags c' !! (b + q)%nat = Some t /\
    tag_of VALID c addr = Z.land t (not64 DIRTY) /\
    (is_store = true -> Z.land t DIRTY = DIRTY) /\
    (forall i : nat, i <> (b + q)%nat -> tags c' !! i = tags c !! i) /\
    lru_set c' idx !! 0%nat = Some (Z.of_nat q) /\
    (forall idx', 0 <= idx' < sets c -> idx' <> idx ->
                  lru_set c' idx' = lru_set c idx') /\
    ((exists t0, tags c !! (b + q)%nat = Some t0 /\
                 Z.land t0 (not64 DIRTY) = Z.land t (not64 DIRTY) /\
                 evs = []) \/
     (lru_set c idx !! (W - 1)%nat = Some (Z.of_nat q) /\
      misses VALID DIRTY k c addr)).
Proof.
  intros Hf Hc Hk Hw Ha idx b W.
  pose proof (set_of_range c addr Hc) as Hi. fold idx in Hi.
  destruct (set_base c idx Hc Hi) as (Hb & HW & Ht & Hl & Hr).
  fold b W in Hb, HW, Ht, Hl, Hr.
  assert (Hseg : length (lru_set c idx) = W).
  { unfold lru_set. fold b W. apply length_segment. exact Hl. }
  assert (Hother : forall seg idx',
             length seg = W -> 0 <= idx' < sets c -> idx' <> idx ->
             segment (Z.to_nat (idx' * ways c)) W (splice b W seg (lru c))
             = lru_set c idx').
  { intros seg idx' Hlen Hi' Hne. unfold lru_set. fold W.
    apply segment_splice_other; [exact Hlen|exact Hl|].
    apply (sets_disjoint c idx idx'); lia. }
  destruct (check_tag_hits_or_misses VALID DIRTY k c addr Hc) as [Hhit|Hmiss].
  - destruct (access_hit_spec VALID DIRTY k c addr bytes is_store Hc Hhit)
      as (q & t & l' & Hq & Htq & Htag & _ & Hv & Hacc).
    fold idx b W in Hq, Htq, Hv, Hacc.
    rewrite v_check_tag_eq in Hv.
    destruct (check_tag_hit_exact VALID DIRTY c _ addr _ Hc Hv)
      as (w & p & _ & Hp & Hslot & _ & _ & Hpos & Heq).
    fold idx b W in Hp, Hslot, Hpos, Heq.
    assert (w = q) as -> by lia.
    apply (f_equal lru) in Heq. cbn [lru set_lru] in Heq. subst l'.
    assert (Hlen : length (to_front p (Z.of_nat q) (lru_set c idx)) = W)
      by (rewrite to_front_length; lia).
    eexists _, [], q, (if is_store then Z.lor t DIRTY else t).
    split; [exact Hacc|].
    split; [destruct is_store; repeat split|].
    split; [exact Hq|].
    split; [destruct is_store; cbn [tags set_tags];
            [apply list_lookup_insert_eq; lia|exact Htq]|].
    split; [destruct is_store; [rewrite mask_marked|]; exact Htag|].
    split; [intros ->; apply land_lor_same|].
    split; [intros i Hne; destruct is_store; cbn [tags set_tags];
            [apply list_lookup_insert_ne; lia|reflexivity]|].
    split; [|split].
    + unfold lru_set at 1.
      replace (ways (set_tags _ _)) with (ways c) by (destruct is_store; reflexivity).
      replace (lru (set_tags _ _))
        with (splice b W (to_front p (Z.of_nat q) (lru_set c idx)) (lru c))
        by (destruct is_store; reflexivity).
      fold b W. rewrite segment_splice_same by (exact Hlen || lia).
      reflexivity.
    + intros idx' Hi' Hne. unfold lru_set at 1.
      replace (ways (set_tags _ _)) with (ways c) by (destruct is_store; reflexivity).
      replace (lru (set_tags _ _))
        with (splice b W (to_front p (Z.of_nat q) (lru_set c idx)) (lru c))
        by (destruct is_store; reflexivity).
      fold W. apply Hother; assumption.
    + left. exists t. split; [exact Htq|]. split; [|reflexivity].
      destruct is_store; [rewrite mask_marked|]; reflexivity.
  - assert (Hself : tag_of VALID c addr
                    = Z.land (tag_of VALID c addr) (not64 DIRTY)).
    { symmetry. apply mask_fresh; [exact Hf|exact Ha|].
      destruct (wf_shift c Hc). lia. }
    destruct (access_miss_spec VALID DIRTY k c addr bytes is_store
                Hc Hk Hw Ha Hmiss (fun _ => Hself))
      as (w & victim & Hlk & Hrange & Hv & _ & Hacc).
    fold idx b W in Hlk, Hv, Hacc.
    assert (Hlen : length (w :: take (W - 1) (lru_set c idx)) = W).
    { cbn [length]. rewrite length_take. lia. }
    assert (Hlru' : forall c0, lru (set_tags (set_lru c0 (lru (filled VALID c addr w)))
                        (if is_store
                         then <[(b + Z.to_nat w)%nat
                                := Z.lor (tag_of VALID c addr) DIRTY]> (tags c)
                         else tags (filled VALID c addr w)))
                    = splice b W (w :: take (W - 1) (lru_set c idx)) (lru c))
      by reflexivity.
    assert (Hgeo : forall f : cache_sim_t -> Z,
               (forall c0 x, f (set_tags c0 x) = f c0) ->
               (forall c0 x, f (set_lru c0 x) = f c0) ->
               (forall c0 x, f (set_writebacks c0 x) = f c0) ->
               (forall c0 x, f (set_write_misses c0 x) = f c0) ->
               (forall c0 x, f (set_read_misses c0 x) = f c0) ->
               (forall c0 x, f (set_bytes_written c0 x) = f c0) ->
               (forall c0 x, f (set_write_accesses c0 x) = f c0) ->
               (forall c0 x, f (set_bytes_read c0 x) = f c0) ->
               (forall c0 x, f (set_read_accesses c0 x) = f c0) ->
               forall l t,
                 f (set_tags
                      (set_lru
                         (count_writeback VALID DIRTY
                            (count_miss (count_access c bytes is_store)
                               is_store) victim) l) t) = f c).
    { intros f H1 H2 H3 H4 H5 H6 H7 H8 H9 l t.
      rewrite H1, H2. unfold count_writeback, count_miss, count_access.
      destruct (valid_and_dirty VALID DIRTY victim), is_store;
        rewrite ?H3, ?H4, ?H5, ?H6, ?H7, ?H8, ?H9; reflexivity. }
    eexists _, _, (Z.to_nat w),
      (if is_store then Z.lor (tag_of VALID c addr) DIRTY
       else tag_of VALID c addr).
    split; [exact Hacc|].
    split; [repeat split; apply Hgeo; reflexivity|].
    split; [lia|].
    split; [destruct is_store; cbn [tags set_tags filled];
            apply list_lookup_insert_eq; lia|].
    split; [destruct is_store; [rewrite mask_marked|]; exact Hself|].
    split; [intros ->; apply land_lor_same|].
    split; [intros i Hne; destruct is_store; cbn [tags set_tags filled];
            apply list_lookup_insert_ne; lia|].
    split; [|split].
    + unfold lru_set at 1. rewrite Hlru', (Hgeo ways) by reflexivity.
      fold b W. rewrite segment_splice_same by (exact Hlen || lia).
      cbn. f_equal. lia.
    + intros idx' Hi' Hne. unfold lru_set at 1.
      rewrite Hlru', (Hgeo ways) by reflexivity.
      fold W. apply Hother; assumption.
    + right. split; [|exact Hmiss]. rewrite Hlk. f_equal. lia.
Qed.


Lemma chained_2x2_reachable : reachable VALID63 DIRTY62 SetAssoc chained_2x2.
Proof.
  exists 2, 2, 8, "L1"%string, fresh_2x2,
    [SetMissHandler (Some 1%nat); SetLog true;
     Access 16 4 true; Access 48 4 false].
  split; [unfold is_u64; lia|]. split; [unfold is_u64; lia|].
  split; [unfold is_u64; lia|]. split; [discriminate|].
  split; [reflexivity|vm_compute; reflexivity].
Qed.

Lemma set_of_same_geometry (c c' : cache_sim_t) (addr : Z) :
  sets c' = sets c -> idx_shift c' = idx_shift c ->
  set_of c' addr = set_of c addr.
Proof. intros Hs Hi. unfold set_of. rewrite Hs, Hi. reflexivity. Qed.

(** [X11] With at least one way, every access in a reachable state
    returns, and leaves the line of its address in the way that is first
    in the LRU order of its set: the word of that way is the line number
    of the address with the valid flag (once the dirty flag is masked
    out), it carries the dirty flag after a store, and the address hits
    from then on. *)
Theorem access_makes_line_most_recent (VALID DIRTY : Z) (k : cache_kind)
    (c : cache_sim_t) (addr bytes : Z) (is_store : bool) :
  flags_ok VALID DIRTY -> reachable VALID DIRTY k c -> 1 <= ways c ->
  is_u64 addr ->
  exists (c' : cache_sim_t) (evs : list event) (way t : Z),
    access VALID DIRTY k c addr bytes is_store = Ok (c', evs) /\
    lru_set c' (set_of c addr) !! 0%nat = Some way /\
    tag_set c' (set_of c addr) !! Z.to_nat way = Some t /\
    Z.land t (not64 DIRTY) = Z.lor (Z.shiftr addr (idx_shift c)) VALID /\
    (is_store = true -> Z.land t DIRTY = DIRTY) /\
    hits VALID DIRTY k c' addr.
Proof.
  intros Hf Hreach Hw Ha.
  destruct (reachable_inv VALID DIRTY k c Hreach) as [Hc Hk].
  destruct (access_leaves_line VALID DIRTY k c addr bytes is_store
              Hf Hc Hk Hw Ha)
    as (c' & evs & q & t & Hacc & (Hs & Hwy & Hsh) & Hq & Ht & Htag & Hd
        & _ & Hfront & _).
  destruct (access_preserves VALID DIRTY k c c' addr bytes is_store evs
              (conj Hc Hk) Hacc) as [Hc' _].
  exists c', evs, (Z.of_nat q), t.
  split; [exact Hacc|]. split; [exact Hfront|].
  split; [|split; [symmetry; exact Htag|split; [exact Hd|]]].
  - unfold tag_set. rewrite Hwy, Nat2Z.id.
    rewrite lookup_segment by exact Hq. exact Ht.
  - apply (resident_hits VALID DIRTY k c' addr q Hc').
    + rewrite Hwy. exact Hq.
    + unfold resident_at, slot_matches, tag_of.
      rewrite (set_of_same_geometry c c') by assumption.
      rewrite Hwy, Hsh. exists t. split; [exact Ht|exact Htag].
Qed.

Lemma access_makes_line_most_recent_witness :
  (flags_ok VALID63 DIRTY62 /\
   reachable VALID63 DIRTY62 SetAssoc used_2x2 /\
   1 <= ways used_2x2 /\ is_u64 16) /\
  exists c' evs,
    access VALID63 DIRTY62 SetAssoc used_2x2 16 4 true = Ok (c', evs) /\
    lru_set c' 0 !! 0%nat = Some 1 /\
    tag_set c' 0 !! 1%nat = Some (2 ^ 63 + 2 ^ 62 + 2).
Proof.
  assert (Hw : 1 <= ways used_2x2) by (cbn; lia).
  assert (Ha : is_u64 16) by (unfold is_u64; lia).
  split; [auto using flags_63_62, used_2x2_reachable|].
  destruct (access_makes_line_most_recent VALID63 DIRTY62 SetAssoc used_2x2
              16 4 true flags_63_62 used_2x2_reachable Hw Ha)
    as (c' & evs & way & t & Hacc & _).
  exists c', evs. split; [exact Hacc|].
  vm_compute in Hacc. injection Hacc as <- <-. split; reflexivity.
Defined.

(** [X12] An access changes at most one word of the tag table, a word of
    the set of its address, and no LRU entry of another set. *)
Theorem access_stays_in_its_set (VALID DIRTY : Z) (k : cache_kind)
    (c : cache_sim_t) (addr bytes : Z) (is_store : bool) :
  flags_ok VALID DIRTY -> reachable VALID DIRTY k c -> 1 <= ways c ->
  is_u64 addr ->
  exists (c' : cache_sim_t) (evs : list event) (way : Z),
    access VALID DIRTY k c addr bytes is_store = Ok (c', evs) /\
    0 <= way < ways c /\
    (forall i : nat, Z.of_nat i <> set_of c addr * ways c + way ->
                     tags c' !! i = tags c !! i) /\
    (forall idx, 0 <= idx < sets c -> idx <> set_of c addr ->
                 tag_set c' idx = tag_set c idx /\
                 lru_set c' idx = lru_set c idx).
Proof.
  intros Hf Hreach Hw Ha.
  destruct (reachable_inv VALID DIRTY k c Hreach) as [Hc Hk].
  pose proof (set_of_range c addr Hc) as Hi.
  destruct (access_leaves_line VALID DIRTY k c addr bytes is_store
              Hf Hc Hk Hw Ha)
    as (c' & evs & q & t & Hacc & (Hs & Hwy & Hsh) & Hq & _ & _ & _
        & Hframe & _ & Hlru & _).
  assert (0 <= set_of c addr * ways c) by nia.
  exists c', evs, (Z.of_nat q).
  split; [exact Hacc|]. split; [lia|]. split.
  - intros i Hne. apply Hframe. lia.
  - intros idx Hidx Hne. split; [|apply Hlru; assumption].
    unfold tag_set. rewrite Hwy. apply list_eq. intros j.
    destruct (decide (j < Z.to_nat (ways c))%nat) as [Hj|Hj].
    2:{ unfold segment. rewrite !lookup_take_ge by lia. reflexivity. }
    rewrite !lookup_segment by exact Hj. apply Hframe.
    destruct (sets_disjoint c (set_of c addr) idx); lia.
Qed.

Lemma access_stays_in_its_set_witness :
  (flags_ok VALID63 DIRTY62 /\
   reachable VALID63 DIRTY62 SetAssoc used_2x2 /\
   1 <= ways used_2x2 /\ is_u64 24) /\
  exists c' evs,
    access VALID63 DIRTY62 SetAssoc used_2x2 24 8 false = Ok (c', evs) /\
    tag_set c' 0 = tag_set used_2x2 0 /\ lru_set c' 0 = lru_set used_2x2 0.
Proof.
  assert (Hw : 1 <= ways used_2x2) by (cbn; lia).
  assert (Ha : is_u64 24) by (unfold is_u64; lia).
  split; [auto using flags_63_62, used_2x2_reachable|].
  destruct (access_stays_in_its_set VALID63 DIRTY62 SetAssoc used_2x2
              24 8 false flags_63_62 used_2x2_reachable Hw Ha)
    as (c' & evs & way & Hacc & _ & _ & Hother).
  exists c', evs. split; [exact Hacc|].
  apply Hother; [cbn; lia|vm_compute; discriminate].
Defined.

(** [X13] With two ways or more, the line of an access is still in the
    cache after the next access, whatever address that one has: a miss
    evicts the least recently used way of its set, never the most recently
    used one. *)
Theorem most_recent_line_survives_next_access (VALID DIRTY : Z)
    (k : cache_kind) (c : cache_sim_t) (a n1 b n2 : Z) (s1 s2 : bool) :
  flags_ok VALID DIRTY -> reachable VALID DIRTY k c -> 2 <= ways c ->
  is_u64 a -> is_u64 b ->
  exists (c1 c2 : cache_sim_t) (e1 e2 : list event),
    access VALID DIRTY k c a n1 s1 = Ok (c1, e1) /\
    access VALID DIRTY k c1 b n2 s2 = Ok (c2, e2) /\
    hits VALID DIRTY k c2 a.
Proof.
  intros Hf Hreach Hw Ha Hb.
  destruct (reachable_inv VALID DIRTY k c Hreach) as [Hc Hk].
  destruct (access_leaves_line VALID DIRTY k c a n1 s1
              Hf Hc Hk ltac:(lia) Ha)
    as (c1 & e1 & q & t & Hacc1 & (Hs1 & Hw1 & Hi1) & Hq & Ht & Htag & _
        & _ & Hfront & _).
  destruct (access_preserves VALID DIRTY k c c1 a n1 s1 e1
              (conj Hc Hk) Hacc1) as [Hc1 Hk1].
  destruct (access_leaves_line VALID DIRTY k c1 b n2 s2
              Hf Hc1 Hk1 ltac:(lia) Hb)
    as (c2 & e2 & q2 & t2 & Hacc2 & (Hs2 & Hw2 & Hi2) & Hq2 & Ht2 & _ & _
        & Hframe & _ & _ & Hwhy).
  destruct (access_preserves VALID DIRTY k c1 c2 b n2 s2 e2
              (conj Hc1 Hk1) Hacc2) as [Hc2 _].
  exists c1, c2, e1, e2. split; [exact Hacc1|]. split; [exact Hacc2|].
  pose proof (set_of_range c1 a Hc1) as Ria.
  pose proof (set_of_range c1 b Hc1) as Rib.
  rewrite <- (set_of_same_geometry c c1 a) in Ht, Hfront by assumption.
  rewrite <- Hw1 in Ht, Hq.
  set (ia := set_of c1 a) in *. set (ib := set_of c1 b) in *.
  apply (resident_hits VALID DIRTY k c2 a q Hc2); [rewrite Hw2; exact Hq|].
  unfold resident_at, slot_matches, tag_of.
  rewrite (set_of_same_geometry c1 c2) by assumption. fold ia.
  rewrite Hw2, Hi2, Hi1.
  destruct (decide ((Z.to_nat (ia * ways c1) + q
                     = Z.to_nat (ib * ways c1) + q2)%nat)) as [Heq|Hne].
  - assert (Hsame : ia = ib /\ q = q2).
    { destruct (decide (ia = ib)) as [E|E].
      - split; [exact E|]. rewrite E in Heq. lia.
      - exfalso. destruct (sets_disjoint c1 ia ib); lia. }
    destruct Hsame as [Eidx <-]. rewrite <- Eidx in *.
    exists t2. split; [exact Ht2|].
    destruct Hwhy as [(t0 & Ht0 & Hmask & _)|[Hlast _]].
    + rewrite Ht in Ht0. injection Ht0 as <-. rewrite <- Hmask.
      exact Htag.
    + exfalso.
      pose proof (NoDup_lookup _ _ _ _ (lru_set_NoDup c1 ia Hc1 Ria)
                    Hfront Hlast). lia.
  - exists t. split; [|exact Htag].
    rewrite Hframe by exact Hne. exact Ht.
Qed.

Lemma most_recent_line_survives_next_access_witness :
  (flags_ok VALID63 DIRTY62 /\
   reachable VALID63 DIRTY62 SetAssoc used_2x2 /\
   2 <= ways used_2x2 /\ is_u64 16 /\ is_u64 112) /\
  exists c2, hits VALID63 DIRTY62 SetAssoc c2 16.
Proof.
  assert (Hw : 2 <= ways used_2x2) by (cbn; lia).
  assert (Ha : is_u64 16) by (unfold is_u64; lia).
  assert (Hb : is_u64 112) by (unfold is_u64; lia).
  split; [auto 6 using flags_63_62, used_2x2_reachable|].
  destruct (most_recent_line_survives_next_access VALID63 DIRTY62 SetAssoc
              used_2x2 16 4 112 8 false true
              flags_63_62 used_2x2_reachable Hw Ha Hb)
    as (c1 & c2 & e1 & e2 & _ & _ & Hhit).
  exists c2. exact Hhit.
Defined.


(** ** Line numbers and the flag bits *)

Lemma testbit_not64 (x n : Z) :
  0 <= n -> Z.testbit (not64 x) n = (n <? 64) && negb (Z.testbit x n).
Proof.
  intros Hn. unfold not64, wrap. rewrite <- Z.land_ones by lia.
  rewrite Z.land_spec, Z.lnot_spec, Z.testbit_ones_nonneg by lia.
  apply andb_comm.
Qed.

(** The line number of a 64-bit address has 61 bits at most. *)
Lemma line_number_bits (a s n : Z) :
  is_u64 a -> 3 <= s -> 0 <= n ->
  Z.testbit (Z.shiftr a s) n = true -> n < 61.
Proof.
  intros Ha Hs Hn Hbit. rewrite Z.shiftr_spec in Hbit by exact Hn.
  apply (testbit_u64 a) in Hbit; [lia|exact Ha].
Qed.

Lemma high_flag_bits (V n : Z) :
  Z.land V (Z.ones 61) = 0 -> 0 <= n -> Z.testbit V n = true -> 61 <= n.
Proof.
  intros HV Hn Hbit.
  assert (H : Z.testbit (Z.land V (Z.ones 61)) n = false)
    by (rewrite HV; apply Z.bits_0).
  rewrite Z.land_spec, Z.testbit_ones_nonneg, Hbit in H by lia.
  cbn in H. lia.
Qed.


(** The address [access] writes a victim back to is the start of the line
    the victim's word was made from by [victimize]. *)
Lemma victim_line_address (V D t a s : Z) :
  Z.land V (Z.ones 61) = 0 -> is_u64 a -> 3 <= s < 64 ->
  Z.land t (not64 D) = Z.lor (Z.shiftr a s) V ->
  shl64 (Z.land t (not64 (Z.lor V D))) s = a - a mod 2 ^ s.
Proof.
  intros HV Ha Hs Heq.
  assert (Hx : Z.land t (not64 (Z.lor V D)) = Z.shiftr a s).
  { apply Z.bits_inj'. intros n Hn.
    assert (H : Z.testbit (Z.land t (not64 D)) n
                = Z.testbit (Z.lor (Z.shiftr a s) V) n)
      by (rewrite Heq; reflexivity).
    rewrite Z.land_spec, testbit_not64, Z.lor_spec in H by exact Hn.
    rewrite Z.land_spec, testbit_not64, Z.lor_spec by exact Hn.
    pose proof (line_number_bits a s n Ha ltac:(lia) Hn) as Ba.
    pose proof (high_flag_bits V n HV Hn) as Bv.
    destruct (Z.testbit (Z.shiftr a s) n), (Z.testbit V n),
      (Z.testbit t n), (Z.testbit D n), (n <? 64);
      cbn in H |- *; try reflexivity; try discriminate; exfalso; lia. }
  rewrite Hx. unfold shl64.
  rewrite Z.shiftr_div_pow2, Z.shiftl_mul_pow2 by lia.
  assert (Hp : 0 < 2 ^ s) by (apply Z.pow_pos_nonneg; lia).
  pose proof (Z.div_mod a (2 ^ s) ltac:(lia)) as Hdm.
  pose proof (Z.mod_pos_bound a (2 ^ s) Hp) as Hm.
  destruct Ha as [Ha0 Ha1].
  assert (E : a / 2 ^ s * 2 ^ s = a - a mod 2 ^ s) by lia.
  pose proof (Z.mod_le a (2 ^ s) Ha0 Hp) as Hle.
  rewrite E. apply wrap_small. unfold is_u64. lia.
Qed.

(** A word made by [victimize] has the valid flag. *)
Lemma victim_word_valid (V D t x : Z) :
  Z.land t (not64 D) = Z.lor x V -> Z.land t V = V.
Proof.
  intros Heq. apply Z.bits_inj'. intros n Hn.
  assert (H : Z.testbit (Z.land t (not64 D)) n = Z.testbit (Z.lor x V) n)
    by (rewrite Heq; reflexivity).
  rewrite Z.land_spec, testbit_not64, Z.lor_spec in H by exact Hn.
  rewrite Z.land_spec.
  destruct (Z.testbit x n), (Z.testbit V n), (Z.testbit t n);
    cbn in H |- *; try reflexivity; discriminate.
Qed.




(** [X15] The writeback of a miss goes to the line that is evicted: when
    the least recently used way of the set holds the line of address [a]
    with the dirty flag, a miss on [b] forwards a store of one line at the
    start of the line of [a] to the next level, then the load of the line
    of [b], and counts one writeback.  The valid flag is assumed to lie
    above the 61 bits of the line numbers. *)
Theorem writeback_names_the_evicted_line (VALID DIRTY : Z) (k : cache_kind)
    (c : cache_sim_t) (a b bytes : Z) (is_store : bool) (h : handler_ref)
    (w t : Z) :
  flags_ok VALID DIRTY -> Z.land VALID (Z.ones 61) = 0 ->
  reachable VALID DIRTY k c -> 1 <= ways c -> is_u64 a -> is_u64 b ->
  miss_handler c = Some h ->
  misses VALID DIRTY k c b ->
  lru_set c (set_of c b) !! (Z.to_nat (ways c) - 1)%nat = Some w ->
  tag_set c (set_of c b) !! Z.to_nat w = Some t ->
  Z.land t (not64 DIRTY) = Z.lor (Z.shiftr a (idx_shift c)) VALID ->
  Z.land t DIRTY = DIRTY ->
  exists c' : cache_sim_t,
    access VALID DIRTY k c b bytes is_store
    = Ok (c', (if log c then [MissTrace (name c) is_store b] else [])
              ++ [Forward h (a - a mod linesz c) (linesz c) true;
                  Forward h (b - b mod linesz c) (linesz c) false]) /\
    writebacks c' = add64 (writebacks c) 1.
Proof.
  intros Hf HV Hreach Hw Ha Hb Hh Hmiss Hlast Ht Hline Hdirty.
  destruct (reachable_inv VALID DIRTY k c Hreach) as [Hc Hk].
  assert (Hself : tag_of VALID c b
                  = Z.land (tag_of VALID c b) (not64 DIRTY)).
  { symmetry. apply mask_fresh; [exact Hf|exact Hb|].
    destruct (wf_shift c Hc). lia. }
  destruct (access_miss_spec VALID DIRTY k c b bytes is_store
              Hc Hk Hw Hb Hmiss (fun _ => Hself))
    as (w' & victim & Hlk & Hrange & Hv & _ & Hacc).
  rewrite Hlast in Hlk. injection Hlk as <-.
  unfold tag_set in Ht. rewrite lookup_segment in Ht by lia.
  rewrite Hv in Ht. injection Ht as ->.
  assert (Hvd : valid_and_dirty VALID DIRTY t = true).
  { unfold valid_and_dirty.
    rewrite (victim_word_valid VALID DIRTY t _ Hline), Hdirty, !Z.eqb_refl.
    reflexivity. }
  eexists. split.
  - rewrite Hacc. f_equal. f_equal. unfold miss_events.
    rewrite Hvd, Hh.
    rewrite (victim_line_address VALID DIRTY t a (idx_shift c) HV Ha
               (wf_shift c Hc) Hline).
    rewrite <- (wf_linesz c Hc). reflexivity.
  - unfold count_writeback. rewrite Hvd.
    destruct is_store; reflexivity.
Qed.

Lemma writeback_names_the_evicted_line_witness :
  (flags_ok VALID63 DIRTY62 /\ Z.land VALID63 (Z.ones 61) = 0 /\
   reachable VALID63 DIRTY62 SetAssoc chained_2x2 /\
   1 <= ways chained_2x2 /\ is_u64 20 /\ is_u64 80 /\
   miss_handler chained_2x2 = Some 1%nat /\
   misses VALID63 DIRTY62 SetAssoc chained_2x2 80 /\
   lru_set chained_2x2 (set_of chained_2x2 80)
     !! (Z.to_nat (ways chained_2x2) - 1)%nat = Some 0 /\
   tag_set chained_2x2 (set_of chained_2x2 80) !! Z.to_nat 0
   = Some (2 ^ 63 + 2 ^ 62 + 2) /\
   Z.land (2 ^ 63 + 2 ^ 62 + 2) (not64 DIRTY62)
   = Z.lor (Z.shiftr 20 (idx_shift chained_2x2)) VALID63 /\
   Z.land (2 ^ 63 + 2 ^ 62 + 2) DIRTY62 = DIRTY62) /\
  exists c',
    access VALID63 DIRTY62 SetAssoc chained_2x2 80 8 false
    = Ok (c', [MissTrace "L1" false 80; Forward 1%nat 16 8 true;
               Forward 1%nat 80 8 false]) /\
    writebacks c' = 1.
Proof.
  assert (HV : Z.land VALID63 (Z.ones 61) = 0) by reflexivity.
  assert (Hw : 1 <= ways chained_2x2) by (cbn; lia).
  assert (Ha : is_u64 20) by (unfold is_u64; lia).
  assert (Hb : is_u64 80) by (unfold is_u64; lia).
  assert (Hh : miss_handler chained_2x2 = Some 1%nat) by reflexivity.
  assert (Hm : misses VALID63 DIRTY62 SetAssoc chained_2x2 80).
  { eexists. vm_compute. reflexivity. }
  assert (Hl : lru_set chained_2x2 (set_of chained_2x2 80)
                 !! (Z.to_nat (ways chained_2x2) - 1)%nat = Some 0)
    by reflexivity.
  assert (Ht : tag_set chained_2x2 (set_of chained_2x2 80) !! Z.to_nat 0
               = Some (2 ^ 63 + 2 ^ 62 + 2)) by reflexivity.
  assert (Hline : Z.land (2 ^ 63 + 2 ^ 62 + 2) (not64 DIRTY62)
                  = Z.lor (Z.shiftr 20 (idx_shift chained_2x2)) VALID63)
    by reflexivity.
  assert (Hd : Z.land (2 ^ 63 + 2 ^ 62 + 2) DIRTY62 = DIRTY62)
    by reflexivity.
  split; [auto 20 using flags_63_62, chained_2x2_reachable|].
  exact (writeback_names_the_evicted_line VALID63 DIRTY62 SetAssoc
           chained_2x2 20 80 8 false 1%nat 0 (2 ^ 63 + 2 ^ 62 + 2)
           flags_63_62 HV chained_2x2_reachable Hw Ha Hb Hh Hm Hl Ht
           Hline Hd).
Defined.


(** ** The configuration string *)

Lemma strchr_found (s : list Ascii.ascii) (ch : Ascii.ascii) (i : nat) :
  strchr s ch = Some i ->
  exists pre post, s = pre ++ ch :: post /\ length pre = i.
Proof.
  revert i. induction s as [|c s IH]; intros i H; [discriminate|].
  cbn [strchr] in H. destruct (Ascii.eqb_spec c ch) as [->|Hne].
  - injection H as <-. exists [], s. split; reflexivity.
  - destruct (Ascii.eqb c Ascii.zero); [discriminate|].
    destruct (strchr s ch) as [i'|] eqn:Hs; [|discriminate].
    injection H as <-. destruct (IH i' eq_refl) as (pre & post & -> & Hlen).
    exists (c :: pre), post. split; [reflexivity|]. cbn. lia.
Qed.

Lemma strchr_field (f rest : list Ascii.ascii) (ch : Ascii.ascii) :
  ch ∉ f -> Ascii.zero ∉ f ->
  strchr (f ++ ch :: rest) ch = Some (length f).
Proof.
  induction f as [|c f IH]; intros Hch Hz; cbn [strchr app length].
  - rewrite Ascii.eqb_refl. reflexivity.
  - apply not_elem_of_cons in Hch as [Hc Hch].
    apply not_elem_of_cons in Hz as [Hc0 Hz].
    destruct (Ascii.eqb_spec c ch) as [?|_]; [congruence|].
    destruct (Ascii.eqb_spec c Ascii.zero) as [?|_]; [congruence|].
    rewrite (IH Hch Hz). reflexivity.
Qed.

Lemma skip_spaces_colon (f rest : list Ascii.ascii) :
  skip_spaces (f ++ ":"%char :: rest)
  = skip_spaces f ++ ":"%char :: rest.
Proof.
  induction f as [|c f IH]; [reflexivity|].
  cbn [skip_spaces app]. destruct (isspace c); [exact IH|reflexivity].
Qed.

Lemma digits_value_colon (f rest : list Ascii.ascii) (acc : Z) :
  digits_value (f ++ ":"%char :: rest) acc = digits_value f acc.
Proof.
  revert acc. induction f as [|c f IH]; intros acc; [reflexivity|].
  cbn [digits_value app]. destruct (isdigit c); [apply IH|reflexivity].
Qed.

(** [atoi] reads a field up to its colon. *)
Lemma atoi_colon (f rest : list Ascii.ascii) :
  atoi (f ++ ":"%char :: rest) = atoi f.
Proof.
  unfold atoi. rewrite skip_spaces_colon.
  destruct (skip_spaces f) as [|c g]; [reflexivity|].
  cbn [app read_sign].
  destruct (Ascii.eqb c "-"%char); [rewrite digits_value_colon; reflexivity|].
  destruct (Ascii.eqb c "+"%char); [rewrite digits_value_colon; reflexivity|].
  rewrite (app_comm_cons g), digits_value_colon. reflexivity.
Qed.

Lemma atoi_range (s : list Ascii.ascii) (v : Z) :
  atoi s = Some v -> - 2 ^ 31 <= v < 2 ^ 31.
Proof.
  unfold atoi. destruct (read_sign (skip_spaces s)) as [neg s'].
  cbv zeta.
  destruct (Z.leb_spec (- 2 ^ 31) (if neg then - digits_value s' 0
                                   else digits_value s' 0));
    destruct (Z.ltb_spec (if neg then - digits_value s' 0
                          else digits_value s' 0) (2 ^ 31));
    cbn [andb]; intros [= <-]; lia.
Qed.

(** The three numbers are read from the text before the first colon, the
    text between the first two colons and the text after the second. *)
Lemma parse_config_fields (f1 f2 f3 : list Ascii.ascii) :
  ":"%char ∉ f1 -> Ascii.zero ∉ f1 -> ":"%char ∉ f2 -> Ascii.zero ∉ f2 ->
  parse_config (f1 ++ ":"%char :: f2 ++ ":"%char :: f3)
  = (sets ← atoi f1; ways ← atoi f2; linesz ← atoi f3;
     Some (Ok (wrap sets, wrap ways, wrap linesz))).
Proof.
  intros H1 Z1 H2 Z2. unfold parse_config.
  rewrite (strchr_field f1 _ _ H1 Z1).
  assert (Hd : drop (S (length f1)) (f1 ++ ":"%char :: f2 ++ ":"%char :: f3)
               = f2 ++ ":"%char :: f3).
  { rewrite cons_middle, app_assoc.
    apply drop_app_length'. rewrite length_app. cbn. lia. }
  rewrite Hd, (strchr_field f2 _ _ H2 Z2).
  assert (Ht1 : take (S (length f1)) (f1 ++ ":"%char :: f2 ++ ":"%char :: f3)
                = f1 ++ [":"%char]).
  { rewrite cons_middle, app_assoc.
    apply take_app_length'. rewrite length_app. cbn. lia. }
  assert (Ht2 : take (S (length f2)) (f2 ++ ":"%char :: f3)
                = f2 ++ [":"%char]).
  { rewrite cons_middle, app_assoc.
    apply take_app_length'. rewrite length_app. cbn. lia. }
  assert (Hd2 : drop (S (length f1) + S (length f2))
                  (f1 ++ ":"%char :: f2 ++ ":"%char :: f3) = f3).
  { rewrite <- drop_drop, Hd.
    rewrite cons_middle, app_assoc.
    apply drop_app_length'. rewrite length_app. cbn. lia. }
  cbv zeta. rewrite Ht1, Ht2, Hd2, !atoi_colon. reflexivity.
Qed.

Lemma construct_is_init (s w l : Z) (name0 : string) :
  construct s w l name0 = (construct_kind s w, init s w l name0 false).
Proof.
  unfold construct, construct_kind.
  destruct (4 <? w); cbn [andb]; [|reflexivity].
  destruct (Z.eqb_spec s 1) as [->|_]; reflexivity.
Qed.

Lemma pow2_upper (x n : Z) :
  0 <= n -> x = 2 ^ Z.log2 x -> x < 2 ^ n -> x <= 2 ^ (n - 1) /\ 1 <= x.
Proof.
  intros Hn Hx Hlt. pose proof (Z.log2_nonneg x) as Hk.
  assert (H1 : 1 <= x).
  { rewrite Hx. pose proof (Z.pow_pos_nonneg 2 (Z.log2 x)). lia. }
  split; [|exact H1].
  assert (Hlog : Z.log2 x < n).
  { apply Z.log2_lt_pow2; lia. }
  rewrite Hx. apply Z.pow_le_mono_r; lia.
Qed.

Ltac not_in_text :=
  let H := fresh in
  intros H; apply list_elem_of_In in H; cbn in H; intuition discriminate.

(** [X16] A configuration string with fewer than two colons never gives
    a cache: [construct] prints the usage text and exits. *)
Theorem config_needs_two_colons (config : list Ascii.ascii) (name0 : string) :
  (length (filter (fun c => c = ":"%char) config) < 2)%nat ->
  construct_config config name0 = Some (Fault UsageExit).
Proof.
  intros Hcount. unfold construct_config, parse_config.
  destruct (strchr config ":"%char) as [i|] eqn:H1; [|reflexivity].
  cbv zeta.
  destruct (strchr (drop (S i) config) ":"%char) as [j|] eqn:H2; [|reflexivity].
  exfalso.
  apply strchr_found in H1 as (pre & post & -> & Hlen).
  rewrite cons_middle, app_assoc in H2.
  rewrite drop_app_length' in H2 by (rewrite length_app; cbn; lia).
  apply strchr_found in H2 as (pre2 & post2 & -> & _).
  rewrite filter_app, filter_cons_True, filter_app, filter_cons_True
    in Hcount by reflexivity.
  rewrite length_app in Hcount. cbn [length] in Hcount.
  rewrite length_app in Hcount. cbn [length] in Hcount. lia.
Qed.

Lemma config_needs_two_colons_witness :
  (length (filter (fun c => c = ":"%char)
             (String.list_ascii_of_string "64:4")) < 2)%nat /\
  construct_config (String.list_ascii_of_string "64:4") "L1"
  = Some (Fault UsageExit).
Proof.
  assert (H : (length (filter (fun c => c = ":"%char)
                         (String.list_ascii_of_string "64:4")) < 2)%nat)
    by (vm_compute; lia).
  split; [exact H|].
  exact (config_needs_two_colons (String.list_ascii_of_string "64:4") "L1" H).
Defined.

(** [X17] The three numbers of a configuration are what [atoi] reads from
    the text before the first colon, from the text between the first two
    colons and from the text after the second, each converted from [int]
    to [size_t] (a negative number wraps around); where [atoi] has a
    result it is within the range of [int]. *)
Theorem config_fields_are_read_by_atoi (f1 f2 f3 : list Ascii.ascii)
    (s w l : Z) :
  ":"%char ∉ f1 -> Ascii.zero ∉ f1 -> ":"%char ∉ f2 -> Ascii.zero ∉ f2 ->
  atoi f1 = Some s -> atoi f2 = Some w -> atoi f3 = Some l ->
  parse_config (f1 ++ ":"%char :: f2 ++ ":"%char :: f3)
  = Some (Ok (wrap s, wrap w, wrap l)) /\
  - 2 ^ 31 <= s < 2 ^ 31 /\ - 2 ^ 31 <= w < 2 ^ 31 /\
  - 2 ^ 31 <= l < 2 ^ 31.
Proof.
  intros H1 Z1 H2 Z2 Hs Hw Hl.
  rewrite (parse_config_fields f1 f2 f3 H1 Z1 H2 Z2), Hs, Hw, Hl.
  split; [reflexivity|].
  split; [exact (atoi_range f1 s Hs)|].
  split; [exact (atoi_range f2 w Hw)|exact (atoi_range f3 l Hl)].
Qed.

Lemma config_fields_are_read_by_atoi_witness :
  ((":"%char ∉ String.list_ascii_of_string " 64 sets") /\
   (Ascii.zero ∉ String.list_ascii_of_string " 64 sets") /\
   (":"%char ∉ String.list_ascii_of_string "+4") /\
   (Ascii.zero ∉ String.list_ascii_of_string "+4") /\
   atoi (String.list_ascii_of_string " 64 sets") = Some 64 /\
   atoi (String.list_ascii_of_string "+4") = Some 4 /\
   atoi (String.list_ascii_of_string "-8B") = Some (-8)) /\
  parse_config (String.list_ascii_of_string " 64 sets:+4:-8B")
  = Some (Ok (64, 4, 2 ^ 64 - 8)).
Proof.
  assert (H1 : ":"%char ∉ String.list_ascii_of_string " 64 sets")
    by not_in_text.
  assert (Z1 : Ascii.zero ∉ String.list_ascii_of_string " 64 sets")
    by not_in_text.
  assert (H2 : ":"%char ∉ String.list_ascii_of_string "+4")
    by not_in_text.
  assert (Z2 : Ascii.zero ∉ String.list_ascii_of_string "+4")
    by not_in_text.
  assert (Hs : atoi (String.list_ascii_of_string " 64 sets") = Some 64)
    by reflexivity.
  assert (Hw : atoi (String.list_ascii_of_string "+4") = Some 4) by reflexivity.
  assert (Hl : atoi (String.list_ascii_of_string "-8B") = Some (-8))
    by reflexivity.
  split; [auto 10|].
  exact (proj1 (config_fields_are_read_by_atoi _ _ _ 64 4 (-8)
                  H1 Z1 H2 Z2 Hs Hw Hl)).
Defined.

Lemma wrap_int_neg (x : Z) : - 2 ^ 31 <= x < 0 -> wrap x = 2 ^ 64 + x.
Proof.
  intros Hx. unfold wrap. symmetry.
  apply (Z.mod_unique x (2 ^ 64) (-1)); lia.
Qed.

Lemma wrap_int_pos (x : Z) : 0 <= x < 2 ^ 31 -> wrap x = x.
Proof. intros Hx. apply wrap_small. unfold is_u64. lia. Qed.

(** An [int] converted to [size_t] is a power of two exactly when the
    [int] is one: a negative number becomes a number above [2^63]. *)
Lemma wrap_int_pow2 (x : Z) :
  - 2 ^ 31 <= x < 2 ^ 31 ->
  wrap x = 2 ^ Z.log2 (wrap x) <-> x = 2 ^ Z.log2 x.
Proof.
  intros Hx. destruct (Z.lt_ge_cases x 0) as [Hneg|Hpos].
  - rewrite (wrap_int_neg x) by lia. split; intros H; exfalso.
    + destruct (pow2_upper (2 ^ 64 + x) 64 ltac:(lia) H ltac:(lia))
        as [Hu _].
      change (64 - 1) with 63 in Hu. lia.
    + pose proof (Z.pow_pos_nonneg 2 (Z.log2 x) ltac:(lia)
                    (Z.log2_nonneg x)). lia.
  - rewrite (wrap_int_pos x) by lia. reflexivity.
Qed.

(** [X18] What [construct] makes of a configuration whose fields [atoi]
    reads as [s], [w] and [l].  An object is built only when [s] is a
    power of two, [w] is not negative, [l] is a power of two from 8 on and
    [s * w] is below [2^60]; it has that geometry and the given name, and
    it is a [fa_cache_sim_t] exactly for one set of more than four ways.
    The usage exit is taken exactly when [s] is not a power of two (zero
    and negative numbers included) or [l] is below 8 or not a power of
    two.  A negative [w] with [s] and [l] in order is refused as a bad
    array length. *)
Theorem config_outcomes (f1 f2 f3 : list Ascii.ascii) (name0 : string)
    (s w l : Z) :
  ":"%char ∉ f1 -> Ascii.zero ∉ f1 -> ":"%char ∉ f2 -> Ascii.zero ∉ f2 ->
  atoi f1 = Some s -> atoi f2 = Some w -> atoi f3 = Some l ->
  let config := f1 ++ ":"%char :: f2 ++ ":"%char :: f3 in
  (forall k c, construct_config config name0 = Some (Ok (k, c)) ->
               (k = FullyAssoc <-> s = 1 /\ 4 < w) /\
               sets c = s /\ ways c = w /\ linesz c = l /\
               name c = name0 /\
               s = 2 ^ Z.log2 s /\ 0 <= w /\ l = 2 ^ Z.log2 l /\ 8 <= l /\
               s * w < 2 ^ 60) /\
  (construct_config config name0 = Some (Fault UsageExit) <->
   s <> 2 ^ Z.log2 s \/ l < 8 \/ l <> 2 ^ Z.log2 l) /\
  (s = 2 ^ Z.log2 s -> l = 2 ^ Z.log2 l -> 8 <= l -> w < 0 ->
   construct_config config name0 = Some (Fault BadArrayLength)).
Proof.
  intros H1 Z1 H2 Z2 Hs Hw Hl config.
  pose proof (atoi_range f1 s Hs) as Rs.
  pose proof (atoi_range f2 w Hw) as Rw.
  pose proof (atoi_range f3 l Hl) as Rl.
  assert (Hcfg : construct_config config name0
                 = Some (c ← init (wrap s) (wrap w) (wrap l) name0 false;
                         Ok (construct_kind (wrap s) (wrap w), c))).
  { unfold construct_config, config.
    rewrite (parse_config_fields f1 f2 f3 H1 Z1 H2 Z2), Hs, Hw, Hl.
    cbn [mbind option_bind]. rewrite construct_is_init. reflexivity. }
  assert (Hu : forall x, is_u64 (wrap x)).
  { intros x. unfold is_u64, wrap. apply Z.mod_pos_bound. lia. }
  assert (Hacc : forall c,
             init (wrap s) (wrap w) (wrap l) name0 false = Ok c ->
             (s = 2 ^ Z.log2 s /\ 0 <= w /\ l = 2 ^ Z.log2 l /\ 8 <= l /\
              s * w < 2 ^ 60) /\
             wrap s = s /\ wrap w = w /\ wrap l = l).
  { intros c Hinit.
    pose proof (init_Ok_accepted _ _ _ _ _ _ (Hu s) (Hu w) (Hu l) Hinit)
      as (Gs & Gs64 & Gw & Gl & Gl8 & Gsz).
    destruct (pow2_upper (wrap s) 64 ltac:(lia) Gs Gs64) as [Us Ls].
    destruct (pow2_upper (wrap l) 64 ltac:(lia) Gl ltac:(lia)) as [Ul _].
    change (64 - 1) with 63 in Us, Ul.
    assert (Es : wrap s = s).
    { destruct (Z.lt_ge_cases s 0); [rewrite wrap_int_neg in Us; lia|].
      apply wrap_int_pos; lia. }
    assert (El : wrap l = l).
    { destruct (Z.lt_ge_cases l 0); [rewrite wrap_int_neg in Ul; lia|].
      apply wrap_int_pos; lia. }
    assert (Ew : wrap w = w).
    { destruct (Z.lt_ge_cases w 0); [|apply wrap_int_pos; lia].
      exfalso. rewrite (wrap_int_neg w) in Gsz by lia. nia. }
    rewrite Es, El in *. rewrite Ew in Gw, Gsz.
    repeat split; (assumption || lia). }
  split; [|split].
  - intros k c Hres. rewrite Hcfg in Hres. injection Hres as Hres.
    apply bind_Ok_inv in Hres as (c' & Hinit & Hres).
    injection Hres as <- <-.
    destruct (Hacc c' Hinit) as ((Ps & Pw & Pl & Pl8 & Psz) & Es & Ew & El).
    rewrite Es, Ew, El in *.
    destruct (init_Ok_fields _ _ _ _ _ _ Hinit)
      as (_ & _ & -> & -> & -> & -> & _).
    split; [|repeat split; assumption].
    unfold construct_kind.
    destruct (Z.ltb_spec 4 w), (Z.eqb_spec s 1); cbn [andb];
      split; (discriminate || (intros []; lia) || auto || lia).
  - assert (Hexit : construct_config config name0 = Some (Fault UsageExit)
                    <-> init (wrap s) (wrap w) (wrap l) name0 false
                        = Fault UsageExit).
    { rewrite Hcfg.
      destruct (init (wrap s) (wrap w) (wrap l) name0 false) as [c|f];
        cbn [mbind result_bind]; split; intros H; congruence. }
    rewrite Hexit, (init_usage_exit_iff _ _ _ _ _ (Hu s) (Hu l)).
    pose proof (wrap_int_pow2 s Rs) as Qs.
    pose proof (wrap_int_pow2 l Rl) as Ql.
    destruct (Z.lt_ge_cases l 0) as [Hneg|Hpos].
    + split; [intros _; right; left; lia|]. intros _. right. right.
      intros Hp. apply Ql in Hp.
      pose proof (Z.pow_pos_nonneg 2 (Z.log2 l) ltac:(lia)
                    (Z.log2_nonneg l)). lia.
    + rewrite (wrap_int_pos l) by lia. tauto.
  - intros Ps Pl Pl8 Hneg. rewrite Hcfg.
    destruct (pow2_upper s 31 ltac:(lia) Ps ltac:(lia)) as [Us Ls].
    change (31 - 1) with 30 in Us.
    rewrite (wrap_int_pos s), (wrap_int_pos l) by lia.
    rewrite (init_bad_array_length s (wrap w) l name0 false);
      [reflexivity|unfold is_u64; lia|unfold is_u64; lia|exact Ps|exact Pl
      |exact Pl8|].
    rewrite (wrap_int_neg w) by lia. unfold mul64, wrap.
    replace (s * (2 ^ 64 + w)) with (2 ^ 64 + s * w + (s - 1) * 2 ^ 64)
      by ring.
    rewrite Z.mod_add by lia. rewrite Z.mod_small; nia.
Qed.

Lemma config_outcomes_witness :
  ((":"%char ∉ String.list_ascii_of_string "1") /\
   (Ascii.zero ∉ String.list_ascii_of_string "1") /\
   (":"%char ∉ String.list_ascii_of_string "-1") /\
   (Ascii.zero ∉ String.list_ascii_of_string "-1") /\
   atoi (String.list_ascii_of_string "1") = Some 1 /\
   atoi (String.list_ascii_of_string "-1") = Some (-1) /\
   atoi (String.list_ascii_of_string "64") = Some 64) /\
  construct_config (String.list_ascii_of_string "1:-1:64") "L1"
  = Some (Fault BadArrayLength) /\
  construct_config (String.list_ascii_of_string "1:-1:64") "L1"
  <> Some (Fault UsageExit).
Proof.
  assert (H1 : ":"%char ∉ String.list_ascii_of_string "1")
    by not_in_text.
  assert (Z1 : Ascii.zero ∉ String.list_ascii_of_string "1")
    by not_in_text.
  assert (H2 : ":"%char ∉ String.list_ascii_of_string "-1")
    by not_in_text.
  assert (Z2 : Ascii.zero ∉ String.list_ascii_of_string "-1")
    by not_in_text.
  assert (Hs : atoi (String.list_ascii_of_string "1") = Some 1)
    by reflexivity.
  assert (Hw : atoi (String.list_ascii_of_string "-1") = Some (-1))
    by reflexivity.
  assert (Hl : atoi (String.list_ascii_of_string "64") = Some 64)
    by reflexivity.
  split; [auto 10|].
  destruct (config_outcomes _ _ _ "L1" 1 (-1) 64 H1 Z1 H2 Z2 Hs Hw Hl)
    as (_ & Hexit & Hbad).
  split.
  - apply Hbad; [reflexivity|reflexivity|lia|lia].
  - intros Hu. apply Hexit in Hu. destruct Hu as [Hu|[Hu|Hu]].
    + apply Hu. reflexivity.
    + lia.
    + apply Hu. reflexivity.
Defined.


(** ** A cache without ways *)

(** [X19] A cache without ways, which [init] accepts, holds no line: in
    every state it reaches, a lookup misses and changes nothing, and
    [victimize] and every access read outside the empty LRU table. *)
Theorem no_ways_no_line (VALID DIRTY : Z) (k : cache_kind)
    (c : cache_sim_t) (addr bytes : Z) (is_store : bool) :
  reachable VALID DIRTY k c -> ways c = 0 ->
  v_check_tag VALID DIRTY k c addr = Ok (None, c) /\
  v_victimize VALID k c addr = Fault OutOfBounds /\
  access VALID DIRTY k c addr bytes is_store = Fault OutOfBounds.
Proof.
  intros Hreach Hw.
  destruct (reachable_inv VALID DIRTY k c Hreach) as [Hc _].
  assert (Hnil : lru c = []).
  { apply nil_length_inv. rewrite (wf_lru c Hc), Hw, Z.mul_0_r. reflexivity. }
  assert (Hv : v_victimize VALID k c addr = Fault OutOfBounds).
  { destruct (victimize_no_ways VALID c addr Hc Hw). destruct k; assumption. }
  split; [|split; [exact Hv|]].
  - rewrite v_check_tag_eq. unfold check_tag. rewrite Hw.
    change (Z.to_nat 0) with 0%nat. cbn [scan_ways mbind result_bind].
    rewrite set_lru_same. reflexivity.
  - unfold access. rewrite !v_check_tag_eq.
    destruct is_store, k; cbv zeta; cbn [v_victimize];
      unfold check_tag, victimize, fa_victimize; cbn;
      rewrite ?Hw, ?Hnil; cbn; unfold mul64; rewrite ?Z.mul_0_r;
      reflexivity.
Qed.

Lemma no_ways_no_line_witness :
  (reachable VALID63 DIRTY62 SetAssoc
     (mk_cache_sim_t 4 0 16 4 [] [] 0 0 0 0 0 0 0 None "L1" false) /\
   ways (mk_cache_sim_t 4 0 16 4 [] [] 0 0 0 0 0 0 0 None "L1" false) = 0) /\
  access VALID63 DIRTY62 SetAssoc
    (mk_cache_sim_t 4 0 16 4 [] [] 0 0 0 0 0 0 0 None "L1" false) 64 4 false
  = Fault OutOfBounds.
Proof.
  assert (Hr : reachable VALID63 DIRTY62 SetAssoc
                 (mk_cache_sim_t 4 0 16 4 [] [] 0 0 0 0 0 0 0 None "L1"
                    false)).
  { exists 4, 0, 16, "L1"%string,
      (mk_cache_sim_t 4 0 16 4 [] [] 0 0 0 0 0 0 0 None "L1" false), [].
    split; [unfold is_u64; lia|]. split; [unfold is_u64; lia|].
    split; [unfold is_u64; lia|]. split; [discriminate|].
    split; reflexivity. }
  split; [split; [exact Hr|reflexivity]|].
  exact (proj2 (proj2 (no_ways_no_line VALID63 DIRTY62 SetAssoc _ 64 4 false
                         Hr eq_refl))).
Defined.
